(** * Test-execution lifecycle of the 99tech Playwright framework

    A shallow embedding of the setup pipeline (src/setup/global-setup.ts),
    the two teardown pipelines (the two global-teardown modules), the
    endpoint probe of the API helper and the configuration manager, with
    the properties the design document states about them.

    Layout.  Definitions come first: [Js] holds the pieces of JavaScript
    the code relies on (strings, numbers, parseInt, parsed JSON); [Eff]
    the effect model (the outside world, exceptions, the events of a
    run); [Trace] what is read off a run; then one module per source
    file, and [Lab] with concrete platforms to run the model on.  The
    laws of the model and the properties of the code follow. *)

From Stdlib Require Import ZArith QArith Lia Ascii.
From stdpp Require Import gmap strings list pretty.

#[local] Set Warnings "-register-all".

Local Close Scope Q_scope.
Local Open Scope Z_scope.
Local Open Scope list_scope.

(* ===================================================================== *)
(** ** JavaScript values used by the code *)
(* ===================================================================== *)

Module Js.

(** The double-quote character; string literals below never contain it. *)
Definition dq : string := String (ascii_of_nat 34) EmptyString.

(** Truthiness of a string: every string but the empty one. *)
Definition truthy_str (s : string) : bool :=
  match s with EmptyString => false | _ => true end.

(** [process.env[k]] is a string or undefined; [!process.env[k]]. *)
Definition truthy_opt (o : option string) : bool :=
  match o with Some s => truthy_str s | None => false end.

(** [a || b] on an optional string with a string default. *)
Definition or_default (o : option string) (d : string) : string :=
  match o with
  | Some s => if truthy_str s then s else d
  | None => d
  end.

(** [String.prototype.startsWith]. *)
Fixpoint startsWith (p s : string) : bool :=
  match p, s with
  | EmptyString, _ => true
  | String a p', String b s' => if Ascii.eqb a b then startsWith p' s' else false
  | String _ _, EmptyString => false
  end.

(** [String.prototype.includes]: some suffix of [s] starts with [p]. *)
Fixpoint includes (s p : string) : bool :=
  startsWith p s ||
  match s with
  | EmptyString => false
  | String _ s' => includes s' p
  end.

(** [String.prototype.endsWith]. *)
Definition endsWith (s p : string) : bool :=
  let n := String.length s in
  let m := String.length p in
  (m <=? n)%nat && String.eqb (String.substring (n - m) m s) p.

(** [Array.prototype.join]. *)
Fixpoint join (sep : string) (xs : list string) : string :=
  match xs with
  | [] => EmptyString
  | [x] => x
  | x :: rest => x +:+ sep +:+ join sep rest
  end.

(** [String.prototype.split] on a one-character separator. *)
Fixpoint split_go (sep : ascii) (cur : string) (s : string) : list string :=
  match s with
  | EmptyString => [String.rev cur]
  | String c s' =>
      if Ascii.eqb c sep then String.rev cur :: split_go sep EmptyString s'
      else split_go sep (String c cur) s'
  end.

Definition split (sep : ascii) (s : string) : list string :=
  split_go sep EmptyString s.

(** [s.replace(p, r)] with a string pattern: the first occurrence only. *)
Fixpoint replace_first (p r s : string) : string :=
  if startsWith p s then r +:+ String.substring (String.length p) (String.length s) s
  else match s with
       | EmptyString => EmptyString
       | String c s' => String c (replace_first p r s')
       end.

(** ASCII lower-casing, for the [i] flag of the artifact patterns. *)
Definition lower (c : ascii) : ascii :=
  let n := nat_of_ascii c in
  if ((65 <=? n) && (n <=? 90))%nat then ascii_of_nat (n + 32) else c.

Fixpoint toLowerCase (s : string) : string :=
  match s with
  | EmptyString => EmptyString
  | String c s' => String (lower c) (toLowerCase s')
  end.

(** A JavaScript number.  Finite values are kept as exact rationals: the
    code only adds integers, compares them and divides a sum by a count,
    and the rounding of the last step is not modelled. *)
Inductive num : Type :=
| NaN
| NegInf
| PosInf
| Fin (q : Q).

Definition of_Z (z : Z) : num := Fin (inject_Z z).

(** Truthiness of a number: neither [NaN] nor zero. *)
Definition truthy_num (n : num) : bool :=
  match n with
  | NaN => false
  | Fin q => negb (Qeq_bool q 0)
  | _ => true
  end.

(** [a < b]; every comparison with [NaN] is false. *)
Definition lt (a b : num) : bool :=
  match a, b with
  | NaN, _ | _, NaN => false
  | _, NegInf => false
  | NegInf, _ => true
  | PosInf, _ => false
  | Fin _, PosInf => true
  | Fin x, Fin y => negb (Qle_bool y x)
  end.

Definition gt (a b : num) : bool := lt b a.

(** [a + b] for the values a sum of durations can take. *)
Definition add (a b : num) : num :=
  match a, b with
  | NaN, _ | _, NaN => NaN
  | PosInf, NegInf | NegInf, PosInf => NaN
  | PosInf, _ | _, PosInf => PosInf
  | NegInf, _ | _, NegInf => NegInf
  | Fin x, Fin y => Fin (Qred (x + y))
  end.

(** [a / n] for a positive array length [n]. *)
Definition div_len (a : num) (n : nat) : num :=
  match a with
  | Fin x => Fin (Qred (x / inject_Z (Z.of_nat n)))
  | other => other
  end.

(** [Math.max(a, b)] on two arguments. *)
Definition max2 (a b : num) : num :=
  match a, b with
  | NaN, _ | _, NaN => NaN
  | PosInf, _ | _, PosInf => PosInf
  | NegInf, x | x, NegInf => x
  | Fin x, Fin y => if Qle_bool x y then Fin y else Fin x
  end.

(** [Math.max(...xs)]: the fold starts from [-Infinity], which is also the
    value of [Math.max()] with no argument at all. *)
Definition Math_max (xs : list num) : num := fold_left max2 xs NegInf.

(** [x || 0] on a number. *)
Definition or_zero (x : num) : num := if truthy_num x then x else of_Z 0.

(** *** parseInt *)

(** White space skipped in front of the digits (the ASCII part of it). *)
Definition is_space (c : ascii) : bool :=
  let n := nat_of_ascii c in
  ((n =? 32) || ((9 <=? n) && (n <=? 13)))%nat.

Fixpoint trimStart (s : string) : string :=
  match s with
  | String c s' => if is_space c then trimStart s' else s
  | EmptyString => EmptyString
  end.

Definition digit (radix : Z) (c : ascii) : option Z :=
  let n := Z.of_nat (nat_of_ascii c) in
  let v :=
    if (48 <=? n) && (n <=? 57) then Some (n - 48)
    else if (97 <=? n) && (n <=? 122) then Some (n - 87)
    else if (65 <=? n) && (n <=? 90) then Some (n - 55)
    else None in
  match v with
  | Some d => if d <? radix then Some d else None
  | None => None
  end.

(** The longest prefix of digits, read in [radix]; [None] when it is empty. *)
Fixpoint digits (radix : Z) (acc : option Z) (s : string) : option Z :=
  match s with
  | EmptyString => acc
  | String c s' =>
      match digit radix c with
      | Some d => digits radix (Some (radix * default 0 acc + d)) s'
      | None => acc
      end
  end.

(** [parseInt(s)] with no radix argument: leading white space, a sign, an
    optional [0x] prefix, then digits; [NaN] when no digit follows. *)
Definition parseInt (s : string) : num :=
  let s1 := trimStart s in
  let '(neg, s2) :=
    match s1 with
    | String "-"%char r => (true, r)
    | String "+"%char r => (false, r)
    | _ => (false, s1)
    end in
  let '(radix, s3) :=
    match s2 with
    | String "0"%char (String "x"%char r)
    | String "0"%char (String "X"%char r) => (16, r)
    | _ => (10, s2)
    end in
  match digits radix None s3 with
  | Some n => of_Z (if neg then - n else n)
  | None => NaN
  end.

(** [`${n}`] for a natural number. *)
Definition show_nat (n : nat) : string := pretty n.

(** *** Parsed JSON *)

(** What [JSON.parse] returns.  An object keeps its members in source
    order, each key once. *)
Inductive json : Type :=
| JNull
| JBool (b : bool)
| JNum (n : num)
| JStr (s : string)
| JArr (items : list json)
| JObj (members : list (string * json)).

(** A value read from an expression: [None] is [undefined]. *)
Definition value : Type := option json.

Fixpoint assoc (k : string) (members : list (string * json)) : value :=
  match members with
  | [] => None
  | (k', v) :: rest => if String.eqb k k' then Some v else assoc k rest
  end.

(** [v.k] for a parsed value [v] and one of the member names the code
    reads ([action], [duration], [timestamp]): a [TypeError] on [null],
    [undefined] on anything that is not an object.  The outer [None] is
    the [TypeError]. *)
Definition member (v : json) (k : string) : option value :=
  match v with
  | JNull => None
  | JObj members => Some (assoc k members)
  | _ => Some None
  end.

Definition truthy (v : value) : bool :=
  match v with
  | None | Some JNull => false
  | Some (JBool b) => b
  | Some (JNum n) => truthy_num n
  | Some (JStr s) => truthy_str s
  | Some (JArr _) | Some (JObj _) => true
  end.

(** [v === s] for a string literal [s]. *)
Definition is_string (v : value) (s : string) : bool :=
  match v with
  | Some (JStr s') => String.eqb s' s
  | _ => false
  end.

(** [v.includes(s)] for a value that is not nullish: the string method on a
    string, the array method on an array, and a [TypeError] ([None]) on
    anything else, which has no such method. *)
Definition includes_method (v : json) (s : string) : option bool :=
  match v with
  | JStr label => Some (includes label s)
  | JArr items =>
      Some (existsb (fun x => match x with JStr e => String.eqb e s | _ => false end) items)
  | _ => None
  end.

(** [v.replace(p, r)]: only a string has the method. *)
Definition replace_method (v : json) (p r : string) : option string :=
  match v with
  | JStr s => Some (replace_first p r s)
  | _ => None
  end.

(** [String(v)], given how a number prints. *)
Fixpoint to_string (show_num : num -> string) (v : json) : string :=
  match v with
  | JNull => "null"
  | JBool true => "true"
  | JBool false => "false"
  | JNum n => show_num n
  | JStr s => s
  | JArr items =>
      join ","
        (List.map (fun x => match x with
                            | JNull => EmptyString
                            | _ => to_string show_num x
                            end) items)
  | JObj _ => "[object Object]"
  end.

Definition to_string_value (show_num : num -> string) (v : value) : string :=
  match v with
  | Some j => to_string show_num j
  | None => "undefined"
  end.

(** *** More string methods *)

(** [String.prototype.trim]: white space as [trimStart] has it, taken
    off both ends. *)
Definition trimEnd (s : string) : string := String.rev (trimStart (String.rev s)).

Definition trim (s : string) : string := trimEnd (trimStart s).

(** [s.split(sep)] for a separator of one character or more: the pieces
    between the occurrences of [sep], found from left to right.  [skip]
    counts the characters of a separator just found that are still to
    be passed over. *)
Fixpoint split_str_go (sep : string) (skip : nat) (s : string) : list string :=
  match s with
  | EmptyString => [EmptyString]
  | String c s' =>
      match skip with
      | S k => split_str_go sep k s'
      | O =>
          if startsWith sep s
          then EmptyString :: split_str_go sep (String.length sep - 1) s'
          else match split_str_go sep 0 s' with
               | piece :: rest => String c piece :: rest
               | [] => [String c EmptyString]
               end
      end
  end.

Definition split_str (sep : string) (s : string) : list string :=
  split_str_go sep 0 s.

(** A string of ASCII characters.  On such a string the white space and
    the capital letters of JavaScript are those of [is_space] and
    [lower]. *)
Definition ascii_only (s : string) : bool :=
  forallb (fun c => (nat_of_ascii c <? 128)%nat) (String.list_ascii_of_string s).

(** [s.replace(/\s+/g, '_')]: every run of white space becomes one
    underscore.  [inside] says that the character before was white
    space. *)
Fixpoint underscore_runs (inside : bool) (s : string) : string :=
  match s with
  | EmptyString => EmptyString
  | String c s' =>
      if is_space c then
        if inside then underscore_runs true s'
        else String "_"%char (underscore_runs true s')
      else String c (underscore_runs false s')
  end.

End Js.


(* ===================================================================== *)
(** ** Effects: the outside world, exceptions and the trace of a run *)
(* ===================================================================== *)

Module Eff.

(** A thrown value: the message of the [Error] and, for file-system
    errors, its [code] (empty when there is none). *)
Record Err : Type := mkErr { message : string; code : string }.

(** [new Error(msg)]. *)
Definition new_Error (msg : string) : Err := mkErr msg EmptyString.

(** The logger methods the code calls. *)
Inductive Level : Type := Debug | Info | Warn | Error.

(** What the code reads of a navigation response. *)
Record Response : Type := mkResponse { status : nat; statusText : string }.

(** [response.ok()]: a status in the 200 range. *)
Definition ok (r : Response) : bool :=
  ((200 <=? status r) && (status r <=? 299))%nat.

(** The requests the code sends outside itself, indexed by what they
    answer.  File contents written are not kept: only the path is. *)
Inductive Sys : Type -> Type :=
| Mkdir (dir : string) : Sys unit
| Rmdir (dir : string) : Sys unit
| Unlink (file : string) : Sys unit
| Readdir (dir : string) : Sys (list string)
| CopyFile (src dst : string) : Sys unit
| WriteFile (file : string) : Sys unit
| ReadFile (file : string) : Sys string
| Access (file : string) : Sys unit
| Stat (file : string) : Sys Z
| Exec (command : string) : Sys string
| Launch (browserType : string) : Sys unit
| NewContext : Sys unit
| NewPage : Sys unit
| Goto (url : option string) : Sys (option Response)
| Evaluate : Sys unit
| Title : Sys string
| ClosePage : Sys unit
| CloseContext : Sys unit
| CloseBrowser : Sys unit
| HttpGet (endpoint : string) : Sys nat.

(** The process and everything around it.  [sys] is how the outside
    answers a request from a given state: with a value or with a thrown
    error.  Nothing is assumed about it. *)
Record Platform : Type := mkPlatform {
  World : Type;
  sys : forall R : Type, Sys R -> World -> World * (Err + R);
  now : World -> Z;                (* Date.now() *)
  sleep : Z -> World -> World;     (* a setTimeout of that many ms, awaited *)
  env : gmap string string;        (* process.env *)
  valid_url : string -> bool;      (* whether new URL(s) returns *)
  JSON_parse : string -> option Js.json;  (* None: a SyntaxError *)
  Number_toString : Js.num -> string;     (* String(n) *)
  toISOString : Z -> string;       (* new Date(t).toISOString() *)
  platform : string;               (* process.platform *)
  root : string                    (* path.join(__dirname, '../..') *)
}.

(** One observable step of a run, in program order: entering a function
    of the module, a call of the logger, a request and whether it was
    answered ([true]) or threw ([false]).  The code keeps no such list;
    it is what an observer of the process would write down. *)
Inductive Event : Type :=
| EvCall (fn : string)
| EvLog (lvl : Level) (msg : string)
| EvSys {R : Type} (rq : Sys R) (answered : bool).

Inductive Res (A : Type) : Type :=
| Ok (a : A)
| Throw (e : Err).
Arguments Ok {A} a.
Arguments Throw {A} e.

Section Monad.
Context {P : Platform}.

Record Out (A : Type) : Type := mkOut {
  world : World P;
  events : list Event;
  result : Res A
}.
Arguments mkOut {A} _ _ _.
Arguments world {A} _.
Arguments events {A} _.
Arguments result {A} _.

(** An asynchronous computation: from a state of the world to the new
    state, the events it produced and its value or thrown error.  Every
    [await] is sequential, so promises need no more than this. *)
Definition M (A : Type) : Type := World P -> Out A.

Definition ret {A} (a : A) : M A := fun w => mkOut w [] (Ok a).

Definition bind {A B} (m : M A) (k : A -> M B) : M B := fun w =>
  let o := m w in
  match result o with
  | Ok a => let o' := k a (world o) in
            mkOut (world o') (events o ++ events o') (result o')
  | Throw e => mkOut (world o) (events o) (Throw e)
  end.

Definition throw {A} (e : Err) : M A := fun w => mkOut w [] (Throw e).

(** [try { m } catch (e) { h e }]. *)
Definition try_catch {A} (m : M A) (h : Err -> M A) : M A := fun w =>
  let o := m w in
  match result o with
  | Ok a => o
  | Throw e => let o' := h e (world o) in
               mkOut (world o') (events o ++ events o') (result o')
  end.

(** [m.catch(() => d)]. *)
Definition catch_value {A} (m : M A) (d : A) : M A :=
  try_catch m (fun _ => ret d).

(** A call of the logger.  The metadata object is not kept, and the
    logger is taken never to throw. *)
Definition log (lvl : Level) (msg : string) : M unit :=
  fun w => mkOut w [EvLog lvl msg] (Ok tt).

(** An awaited request to the outside. *)
Definition request {R} (rq : Sys R) : M R := fun w =>
  match sys P R rq w with
  | (w', inr r) => mkOut w' [EvSys rq true] (Ok r)
  | (w', inl e) => mkOut w' [EvSys rq false] (Throw e)
  end.

(** The body of a named function of the module: entering it is an event. *)
Definition fn {A} (name : string) (body : M A) : M A := fun w =>
  let o := body w in mkOut (world o) (EvCall name :: events o) (result o).

(** [Date.now()]. *)
Definition Date_now : M Z := fun w => mkOut w [] (Ok (now P w)).

(** [await new Promise(resolve => setTimeout(resolve, ms))]. *)
Definition delay (ms : Z) : M unit := fun w => mkOut (sleep P ms w) [] (Ok tt).

End Monad.

Arguments Out P A : clear implicits.
Arguments M P A : clear implicits.
Arguments mkOut {P A} _ _ _.
Arguments world {P A} _.
Arguments events {P A} _.
Arguments result {P A} _.

Global Instance M_ret {P} : MRet (M P) := @ret P.
Global Instance M_bind {P} : MBind (M P) := fun A B k m => bind m k.

(** [for (const x of xs) { body x }]. *)
Fixpoint for_of {P A} (xs : list A) (body : A -> M P unit) : M P unit :=
  match xs with
  | [] => mret tt
  | x :: rest => body x ;; for_of rest body
  end.

(** [if (c) { m }]. *)
Definition when {P} (c : bool) (m : M P unit) : M P unit :=
  if c then m else mret tt.

(** [path.join(__dirname, '../..', p)]. *)
Definition in_root (P : Platform) (p : string) : string := root P +:+ "/" +:+ p.

(** [path.join(a, b)] on two plain segments. *)
Definition path_join (a b : string) : string := a +:+ "/" +:+ b.

End Eff.

(* ===================================================================== *)
(** ** Reading a trace *)
(* ===================================================================== *)

Module Trace.
Import Eff.

(** The functions entered, in order. *)
Definition calls (evs : list Event) : list string :=
  omap (fun ev => match ev with EvCall name => Some name | _ => None end) evs.

Definition mem (names : list string) (name : string) : bool :=
  existsb (String.eqb name) names.

(** The functions entered among [names]. *)
Definition entered (names : list string) (evs : list Event) : list string :=
  List.filter (mem names) (calls evs).

(** How many times [name] was entered. *)
Definition count_call (name : string) (evs : list Event) : nat :=
  length (entered [name] evs).

(** The copies attempted, as (source, target), whether they succeeded or not. *)
Definition copies (evs : list Event) : list (string * string) :=
  omap (fun ev => match ev with
                  | @EvSys _ (CopyFile src dst) _ => Some (src, dst)
                  | _ => None
                  end) evs.

(** The copies that threw. *)
Definition failed_copies (evs : list Event) : list (string * string) :=
  omap (fun ev => match ev with
                  | @EvSys _ (CopyFile src dst) false => Some (src, dst)
                  | _ => None
                  end) evs.

(** The debug entries that report a copy that threw. *)
Definition copy_failure_logs (evs : list Event) : list string :=
  omap (fun ev => match ev with
                  | EvLog Debug msg =>
                      if Js.startsWith "Failed to copy " msg then Some msg else None
                  | _ => None
                  end) evs.

(** The messages logged at level error, in order. *)
Definition errors_logged (evs : list Event) : list string :=
  omap (fun ev => match ev with EvLog Error msg => Some msg | _ => None end) evs.

(** How many times the endpoint was asked. *)
Definition polls (evs : list Event) : nat :=
  length (omap (fun ev => match ev with
                          | @EvSys _ (HttpGet endpoint) _ => Some endpoint
                          | _ => None
                          end) evs).

(** The directories [mkdir] was asked for, in order, answered or not. *)
Definition mkdirs (evs : list Event) : list string :=
  omap (fun ev => match ev with @EvSys _ (Mkdir dir) _ => Some dir | _ => None end) evs.

(** The directories [rmdir] was asked for. *)
Definition rmdirs (evs : list Event) : list string :=
  omap (fun ev => match ev with @EvSys _ (Rmdir dir) _ => Some dir | _ => None end) evs.

(** The files [unlink] was asked for. *)
Definition unlinks (evs : list Event) : list string :=
  omap (fun ev => match ev with @EvSys _ (Unlink file) _ => Some file | _ => None end) evs.

(** The files [writeFile] was asked for. *)
Definition writes (evs : list Event) : list string :=
  omap (fun ev => match ev with @EvSys _ (WriteFile file) _ => Some file | _ => None end) evs.

(** The messages logged at level debug, and those at level warn. *)
Definition debugs (evs : list Event) : list string :=
  omap (fun ev => match ev with EvLog Debug msg => Some msg | _ => None end) evs.

Definition warnings (evs : list Event) : list string :=
  omap (fun ev => match ev with EvLog Warn msg => Some msg | _ => None end) evs.

Section WithPlatform.
Context {P : Platform}.

(** [p1 ;; p2 ;; ... ;; k], the shape of a [try] block that awaits its
    steps one after the other. *)
Fixpoint seq (ps : list (M P unit)) (k : M P unit) : M P unit :=
  match ps with
  | [] => k
  | p :: rest => p ;; seq rest k
  end.

(** The state reached after the steps [ps], each started where the one
    before it stopped. *)
Fixpoint after (ps : list (M P unit)) (w : World P) : World P :=
  match ps with
  | [] => w
  | p :: rest => after rest (world (p w))
  end.

(** What the steps [ps] emit when run one after the other. *)
Fixpoint events_of (ps : list (M P unit)) (w : World P) : list Event :=
  match ps with
  | [] => []
  | p :: rest => events (p w) ++ events_of rest (world (p w))
  end.

(** The index of the first step that throws, if one does. *)
Fixpoint failing (ps : list (M P unit)) (w : World P) : option nat :=
  match ps with
  | [] => None
  | p :: rest =>
      match result (p w) with
      | Throw _ => Some 0%nat
      | Ok _ => S <$> failing rest (world (p w))
      end
  end.

(** A computation that cannot throw. *)
Definition returns {A} (m : M P A) : Prop :=
  forall w, exists a, result (m w) = Ok a.

(** A computation that enters none of [names]. *)
Definition silent {A} (names : list string) (m : M P A) : Prop :=
  forall w, entered names (events (m w)) = [].



(** A computation that shows nothing to an observer of events. *)
Definition mute {A B} (obs : Event -> option B) (m : M P A) : Prop :=
  forall w, omap obs (events (m w)) = [].

(** A computation that logs an error exactly when it throws, and then
    the message it throws. *)
Definition reports {A} (m : M P A) : Prop :=
  forall w,
    errors_logged (events (m w)) =
    match result (m w) with
    | Ok _ => []
    | Throw e => [message e]
    end.

End WithPlatform.
End Trace.

(* ===================================================================== *)
(** ** src/setup/global-setup.ts (the OAuth variant, first in the file) *)
(* ===================================================================== *)

Module Setup.
Import Eff Trace.

Section WithPlatform.
Context (P : Platform).

(** [process.env[k]]. *)
Definition getenv (k : string) : option string := env P !! k.

(** [isValidUrl]: [new URL(url)] inside a try. *)
Definition isValidUrl (url : string) : bool := valid_url P url.

Definition directories : list string :=
  ["logs"; "test-results"; "test-results/reports"; "allure-results";
   "allure-report"; "screenshots"; "videos"; "traces"; "downloads";
   "test-data"; "config"].

Definition createDirectories : M P unit :=
  fn "createDirectories" (
    log Info "📁 Creating necessary directories" ;;
    for_of directories (fun dir =>
      try_catch
        (request (Mkdir dir) ;;
         log Debug ("Directory created: " +:+ dir))
        (fun error =>
           when (negb (String.eqb (code error) "EEXIST"))
                (log Warn ("Failed to create directory " +:+ dir)))) ;;
    log Info "✅ Directory structure created").

Definition requiredEnvVars : list string :=
  ["BASE_URL"; "API_BASE_URL"; "USERNAME"; "PASSWORD"].

(** The loop that pushes onto [missingVars]. *)
Definition missingVars : list string :=
  fold_left
    (fun missing envVar =>
       if negb (Js.truthy_opt (getenv envVar)) then missing ++ [envVar] else missing)
    requiredEnvVars [].

Definition urls : list (string * option string) :=
  [("BASE_URL", getenv "BASE_URL"); ("API_BASE_URL", getenv "API_BASE_URL")].

Definition numericVars : list (string * option string * Z) :=
  [("TIMEOUT", getenv "TIMEOUT", 1000);
   ("API_TIMEOUT", getenv "API_TIMEOUT", 1000);
   ("WORKERS", getenv "WORKERS", 1);
   ("VIEWPORT_WIDTH", getenv "VIEWPORT_WIDTH", 320);
   ("VIEWPORT_HEIGHT", getenv "VIEWPORT_HEIGHT", 240)].

(** [isNaN(numValue) || numValue < min]. *)
Definition below (numValue : Js.num) (min : Z) : bool :=
  match numValue with
  | Js.NaN => true
  | _ => Js.lt numValue (Js.of_Z min)
  end.

(** [configuredVars] only feeds the metadata of the last log call and is
    left out, with the loop over the optional variables that fills it. *)
Definition validateEnvironment : M P unit :=
  fn "validateEnvironment" (
    log Info "🔍 Validating environment configuration" ;;
    (if (0 <? length missingVars)%nat then
       let errorMessage :=
         "Missing required environment variables: " +:+ Js.join ", " missingVars in
       log Error errorMessage ;;
       throw (new_Error errorMessage)
     else mret tt) ;;
    for_of urls (fun '(name, value) =>
      match value with
      | Some v =>
          if Js.truthy_str v && negb (isValidUrl v) then
            let errorMessage := "Invalid URL format for " +:+ name +:+ ": " +:+ v in
            log Error errorMessage ;;
            throw (new_Error errorMessage)
          else mret tt
      | None => mret tt
      end) ;;
    for_of numericVars (fun '(name, value, min) =>
      match value with
      | Some v =>
          if Js.truthy_str v && below (Js.parseInt v) min then
            let errorMessage :=
              "Invalid " +:+ name +:+ " value: " +:+ v +:+
              " (minimum: " +:+ pretty min +:+ ")" in
            log Error errorMessage ;;
            throw (new_Error errorMessage)
          else mret tt
      | None => mret tt
      end) ;;
    log Info "✅ Environment validation passed").

(** The launch options and the viewport only shape the arguments of the
    requests and are not kept. *)
Definition setupBrowsers : M P unit :=
  fn "setupBrowsers" (
    log Info "🌐 Setting up browser instances" ;;
    let browserType := Js.or_default (getenv "BROWSER") "chromium" in
    try_catch
      ((if String.eqb browserType "firefox" then request (Launch "firefox")
        else if String.eqb browserType "webkit" then request (Launch "webkit")
        else request (Launch "chromium")) ;;
       request NewContext ;;
       request NewPage ;;
       request (Goto (Some "about:blank")) ;;
       request Evaluate ;;
       request ClosePage ;;
       request CloseContext ;;
       request CloseBrowser ;;
       log Info "✅ Browser setup completed")
      (fun error =>
         log Error "Failed to setup browser" ;;
         throw error)).

(** [!response || !response.ok()]. *)
Definition not_ok (response : option Response) : bool :=
  match response with
  | Some r => negb (ok r)
  | None => true
  end.

(** The two interpolations of [response?.status()] and
    [response?.statusText()]. *)
Definition status_text (response : option Response) : string :=
  match response with
  | Some r => pretty (status r) +:+ " " +:+ statusText r
  | None => "undefined undefined"
  end.

Definition verifyTestSiteAvailability : M P unit :=
  fn "verifyTestSiteAvailability" (
    log Info "🔗 Verifying test site availability" ;;
    try_catch
      (request (Launch "chromium") ;;
       request NewContext ;;
       request NewPage ;;
       response ← request (Goto (getenv "BASE_URL")) ;
       (if not_ok response then
          throw (new_Error ("Test site not available. Status: " +:+ status_text response))
        else mret tt) ;;
       request Title ;;
       request ClosePage ;;
       request CloseContext ;;
       request CloseBrowser ;;
       log Info "✅ Test site verification completed")
      (fun error =>
         log Error "Test site verification failed" ;;
         throw error)).

Record Endpoint : Type := mkEndpoint {
  path : string;
  description : string;
  expectAuth : bool
}.

Record EndpointResult : Type := mkEndpointResult {
  r_path : string;
  r_status : nat;
  accessible : bool;
  r_description : string
}.

Definition endpointsToCheck : list Endpoint :=
  [mkEndpoint "/web/index.php/auth/login" "Login page" false].

(** [`${process.env.BASE_URL}`]. *)
Definition show_env (o : option string) : string :=
  match o with Some s => s | None => "undefined" end.

(** One turn of the loop over [endpointsToCheck], with its own try. *)
Definition checkEndpoint (endpointResults : list EndpointResult) (endpoint : Endpoint)
  : M P (list EndpointResult) :=
  try_catch
    (let fullUrl := show_env (getenv "BASE_URL") +:+ path endpoint in
     response ← request (Goto (Some fullUrl)) ;
     let status := match response with Some r => status r | None => 0%nat end in
     let accessible :=
       if expectAuth endpoint then ((status =? 200) || (status =? 302))%nat
       else (status =? 200)%nat in
     log Debug (description endpoint +:+ " check") ;;
     mret (endpointResults ++
           [mkEndpointResult (path endpoint) status accessible (description endpoint)]))
    (fun error =>
       log Debug (description endpoint +:+ " check failed") ;;
       mret (endpointResults ++
             [mkEndpointResult (path endpoint) 0 false (description endpoint)])).

Fixpoint checkEndpoints (endpointResults : list EndpointResult) (es : list Endpoint)
  : M P (list EndpointResult) :=
  match es with
  | [] => mret endpointResults
  | endpoint :: rest =>
      endpointResults' ← checkEndpoint endpointResults endpoint ;
      checkEndpoints endpointResults' rest
  end.

(** [endpointResults.find(e => e.path.includes('/auth/login'))?.accessible]. *)
Definition loginPageAccessible (endpointResults : list EndpointResult) : bool :=
  match List.find (fun e => Js.includes (r_path e) "/auth/login") endpointResults with
  | Some e => accessible e
  | None => false
  end.

Definition verifyApplicationEndpoints : M P unit :=
  fn "verifyApplicationEndpoints" (
    log Info "🔗 Verifying application endpoints" ;;
    try_catch
      (request (Launch "chromium") ;;
       request NewContext ;;
       request NewPage ;;
       endpointResults ← checkEndpoints [] endpointsToCheck ;
       request ClosePage ;;
       request CloseContext ;;
       request CloseBrowser ;;
       log Info "✅ Application endpoints verification completed" ;;
       if negb (loginPageAccessible endpointResults) then
         throw (new_Error "Login page is not accessible - application may be down")
       else mret tt)
      (fun error =>
         log Error "Application endpoints verification failed" ;;
         throw error)).

Definition artifactDirs : list (string * list string) :=
  [("test-results", [".json"; ".xml"; ".html"]);
   ("allure-results", [".json"; ".txt"; ".properties"]);
   ("screenshots", [".png"; ".jpg"]);
   ("videos", [".webm"; ".mp4"]);
   ("traces", [".zip"]);
   ("downloads", [".*"])].

(** [patterns.some(pattern => pattern === '.*' || file.endsWith(pattern))]. *)
Definition shouldClean (patterns : list string) (file : string) : bool :=
  existsb (fun pattern => String.eqb pattern ".*" || Js.endsWith file pattern) patterns.

(** The loop over the files of one directory; the value is [cleanedInDir]. *)
Fixpoint cleanFiles (dir : string) (patterns : list string) (cleanedInDir : nat)
    (files : list string) : M P nat :=
  match files with
  | [] => mret cleanedInDir
  | file :: rest =>
      if shouldClean patterns file then
        request (Unlink (path_join dir file)) ;;
        cleanFiles dir patterns (S cleanedInDir) rest
      else cleanFiles dir patterns cleanedInDir rest
  end.

(** [totalCleaned] only feeds the metadata of the last log call and is
    left out. *)
Definition cleanPreviousArtifacts : M P unit :=
  fn "cleanPreviousArtifacts" (
    log Info "🧹 Cleaning previous test artifacts" ;;
    for_of artifactDirs (fun '(dir, patterns) =>
      try_catch
        (files ← catch_value (request (Readdir dir)) [] ;
         cleanedInDir ← cleanFiles dir patterns 0 files ;
         when (0 <? cleanedInDir)%nat
              (log Debug ("Cleaned " +:+ pretty cleanedInDir +:+ " files from: " +:+ dir)))
        (fun error =>
           log Warn ("Failed to clean artifacts in " +:+ dir))) ;;
    log Info "✅ Artifact cleanup completed").

Definition setupPerformanceMonitoring : M P unit :=
  fn "setupPerformanceMonitoring" (
    log Info "📈 Setting up performance monitoring" ;;
    let configDir := in_root P "config" in
    request (Mkdir configDir) ;;
    let performanceConfigFile := path_join configDir "performance.json" in
    request (WriteFile performanceConfigFile) ;;
    log Info "✅ Performance monitoring configured").

Definition setupTestEnvironmentInfo : M P unit :=
  fn "setupTestEnvironmentInfo" (
    log Info "ℹ️ Setting up test environment information" ;;
    let envInfoFile := in_root P "test-results/environment-info.json" in
    request (WriteFile envInfoFile) ;;
    log Info "✅ Test environment information saved").

Definition emergencyCleanup : M P unit :=
  fn "emergencyCleanup" (
    log Warn "⚠️ Performing emergency cleanup" ;;
    try_catch
      (let tempDirs := ["temp"; ".temp"; "tmp"] in
       for_of tempDirs (fun dir =>
         try_catch (request (Rmdir dir)) (fun _ => mret tt)) ;;
       let partialFiles :=
         ["test-results/environment-info.json"; "config/performance.json"] in
       for_of partialFiles (fun file =>
         try_catch (request (Unlink file)) (fun _ => mret tt)) ;;
       log Info "Emergency cleanup completed")
      (fun error =>
         log Error "Emergency cleanup failed")).

(** The start and end times only feed log metadata and are left out. *)
Definition globalSetup : M P unit :=
  fn "globalSetup" (
    log Info "🚀 Starting Global Setup" ;;
    try_catch
      (createDirectories ;;
       validateEnvironment ;;
       setupBrowsers ;;
       verifyTestSiteAvailability ;;
       verifyApplicationEndpoints ;;
       cleanPreviousArtifacts ;;
       setupPerformanceMonitoring ;;
       setupTestEnvironmentInfo ;;
       log Info "✅ Global Setup Completed Successfully")
      (fun error =>
         log Error "❌ Global Setup Failed" ;;
         emergencyCleanup ;;
         throw error)).

(** The phases of the pipeline, in the order the [try] block awaits them. *)
Definition phases : list (string * M P unit) :=
  [("createDirectories", createDirectories);
   ("validateEnvironment", validateEnvironment);
   ("setupBrowsers", setupBrowsers);
   ("verifyTestSiteAvailability", verifyTestSiteAvailability);
   ("verifyApplicationEndpoints", verifyApplicationEndpoints);
   ("cleanPreviousArtifacts", cleanPreviousArtifacts);
   ("setupPerformanceMonitoring", setupPerformanceMonitoring);
   ("setupTestEnvironmentInfo", setupTestEnvironmentInfo)].

Definition names : list string := map fst phases.
Definition steps : list (M P unit) := map snd phases.

(** The [try] block of [globalSetup]. *)
Definition block : M P unit :=
  seq steps (log Info "✅ Global Setup Completed Successfully").

(** The [catch] clause of [globalSetup]. *)
Definition handler (error : Err) : M P unit :=
  log Error "❌ Global Setup Failed" ;; emergencyCleanup ;; throw error.

(** [getCIProvider]: the first of the variables that is set and not
    empty decides. *)
Definition getCIProvider : string :=
  if Js.truthy_opt (getenv "GITHUB_ACTIONS") then "GitHub Actions"
  else if Js.truthy_opt (getenv "JENKINS_URL") then "Jenkins"
  else if Js.truthy_opt (getenv "BUILDKITE") then "Buildkite"
  else if Js.truthy_opt (getenv "CIRCLECI") then "CircleCI"
  else if Js.truthy_opt (getenv "TRAVIS") then "Travis CI"
  else if Js.truthy_opt (getenv "CI") then "Generic CI"
  else "Local".

End WithPlatform.
End Setup.

(* ===================================================================== *)
(** ** Functions the two teardown modules have in common *)
(* ===================================================================== *)

(** The first teardown module (nine steps) and the second (five steps,
    headed Focused on cleanup and essential post-test tasks) define the
    functions of this module word for word alike. *)
Module TeardownCommon.
Import Eff.

Section WithPlatform.
Context (P : Platform).

(** [path.basename]: what follows the last slash. *)
Fixpoint basename_go (cur : string) (s : string) : string :=
  match s with
  | EmptyString => String.rev cur
  | String c s' =>
      if Ascii.eqb c "/"%char then basename_go EmptyString s'
      else basename_go (String c cur) s'
  end.

Definition basename (p : string) : string := basename_go EmptyString p.

Definition copyImportantLogs : M P unit :=
  fn "copyImportantLogs" (
    try_catch
      (let logsDir := in_root P "test-artifacts/logs" in
       request (Mkdir logsDir) ;;
       let importantLogs :=
         ["logs/combined.log"; "logs/error.log"; "logs/test-execution.log"] in
       for_of importantLogs (fun logPath =>
         try_catch
           (let fileName := basename logPath in
            request (CopyFile logPath (path_join logsDir fileName)))
           (fun _ => mret tt)))
      (fun error =>
         log Warn "Failed to copy important logs")).

(** The loop of [cleanupOldLogFiles] over the directory listing. *)
Definition removeIfOld (logsDir : string) (sevenDaysAgo : Z) (file : string) : M P unit :=
  let filePath := path_join logsDir file in
  stats ← catch_value (mtime ← request (Stat filePath) ; mret (Some mtime)) None ;
  match stats with
  | Some mtime =>
      if mtime <? sevenDaysAgo then
        request (Unlink filePath) ;;
        log Debug ("Removed old log file: " +:+ file)
      else mret tt
  | None => mret tt
  end.

Definition cleanupOldLogFiles : M P unit :=
  fn "cleanupOldLogFiles" (
    try_catch
      (let logsDir := in_root P "logs" in
       files ← catch_value (request (Readdir logsDir)) [] ;
       now ← Date_now ;
       let sevenDaysAgo := now - (7 * 24 * 60 * 60 * 1000) in
       for_of files (removeIfOld logsDir sevenDaysAgo))
      (fun error =>
         log Warn "Failed to cleanup old log files")).

Definition cleanupTemporaryFiles : M P unit :=
  fn "cleanupTemporaryFiles" (
    log Info "🧹 Cleaning up temporary files" ;;
    try_catch
      (let tempDirs := ["temp"; ".temp"; "tmp"] in
       for_of tempDirs (fun dir =>
         try_catch
           (request (Rmdir dir) ;;
            log Debug ("Removed temporary directory: " +:+ dir))
           (fun _ => mret tt)) ;;
       cleanupOldLogFiles ;;
       log Info "✅ Temporary files cleaned up")
      (fun error =>
         log Error "Failed to cleanup temporary files")).

(** [s.replace(/[:.]/g, '-')]. *)
Fixpoint dashes (s : string) : string :=
  match s with
  | EmptyString => EmptyString
  | String c s' =>
      String (if Ascii.eqb c ":"%char || Ascii.eqb c "."%char then "-"%char else c)
             (dashes s')
  end.

Definition archiveLogs : M P unit :=
  fn "archiveLogs" (
    log Info "📦 Archiving logs" ;;
    try_catch
      (now ← Date_now ;
       let timestamp := dashes (toISOString P now) in
       let archiveDir := in_root P "logs/archive" in
       request (Mkdir archiveDir) ;;
       let logFiles := ["combined.log"; "error.log"; "test-execution.log"] in
       for_of logFiles (fun logFile =>
         let sourcePath := path_join (in_root P "logs") logFile in
         let archivePath := path_join archiveDir (timestamp +:+ "-" +:+ logFile) in
         try_catch
           (request (CopyFile sourcePath archivePath) ;;
            log Debug ("Archived log file: " +:+ logFile))
           (fun _ => mret tt)) ;;
       log Info "✅ Logs archived")
      (fun error =>
         log Error "Failed to archive logs")).

(** [execAsync(command).catch(() => {})]. *)
Definition exec_quietly (command : string) : M P unit :=
  try_catch (request (Exec command) ;; mret tt) (fun _ => mret tt).

Definition cleanupBrowserProcesses : M P unit :=
  fn "cleanupBrowserProcesses" (
    log Info "🌐 Cleaning up browser processes" ;;
    try_catch
      ((if String.eqb (platform P) "win32" then
          exec_quietly "taskkill /f /im chrome.exe /t" ;;
          exec_quietly "taskkill /f /im firefox.exe /t" ;;
          exec_quietly "taskkill /f /im msedge.exe /t"
        else
          exec_quietly ("pkill -f " +:+ Js.dq +:+ "chrome|chromium" +:+ Js.dq) ;;
          exec_quietly ("pkill -f " +:+ Js.dq +:+ "firefox" +:+ Js.dq) ;;
          exec_quietly ("pkill -f " +:+ Js.dq +:+ "webkit" +:+ Js.dq)) ;;
       log Info "✅ Browser processes cleaned up")
      (fun error =>
         log Warn "Browser process cleanup completed with warnings")).

Definition countFiles (directory extension : string) : M P nat :=
  fn "countFiles" (
    try_catch
      (files ← request (Readdir directory) ;
       mret (length (List.filter (fun file => Js.endsWith file extension) files)))
      (fun _ => mret 0%nat)).

(** The loop of [checkReportsGenerated]; the value is [reports]. *)
Fixpoint checkReports (reports : list string) (reportPaths : list string)
  : M P (list string) :=
  match reportPaths with
  | [] => mret reports
  | reportPath :: rest =>
      reports' ← try_catch
                   (request (Access reportPath) ;; mret (reports ++ [reportPath]))
                   (fun _ => mret reports) ;
      checkReports reports' rest
  end.

(** The line test of [collectPerformanceData]. *)
Definition performance_marker : string :=
  Js.dq +:+ "type" +:+ Js.dq +:+ ":" +:+ Js.dq +:+ "performance" +:+ Js.dq.

End WithPlatform.
End TeardownCommon.

(* ===================================================================== *)
(** ** The first teardown module: nine steps *)
(* ===================================================================== *)

Module TeardownFull.
Import Eff TeardownCommon.

(** *** The patterns of [organizeArtifacts]

    [file.match(s)] builds a regular expression from the string [s].  The
    strings the module passes are made of letters, dots and stars only, and
    the matcher below covers exactly that fragment. *)

Inductive atom : Type :=
| Lit (c : ascii)
| AnyChar.

Fixpoint compile (s : string) : list (atom * bool) :=
  match s with
  | EmptyString => []
  | String c s' =>
      let a := if Ascii.eqb c "."%char then AnyChar else Lit c in
      match s' with
      | String "*"%char s'' => (a, true) :: compile s''
      | _ => (a, false) :: compile s'
      end
  end.

(** A dot matches every character but a line terminator. *)
Definition atom_matches (a : atom) (c : ascii) : bool :=
  match a with
  | Lit x => Ascii.eqb x c
  | AnyChar => negb (Ascii.eqb c "010"%char || Ascii.eqb c "013"%char)
  end.

Fixpoint match_here (re : list (atom * bool)) (t : string) : bool :=
  match re with
  | [] => true
  | (a, false) :: re' =>
      match t with
      | String c t' => atom_matches a c && match_here re' t'
      | EmptyString => false
      end
  | (a, true) :: re' =>
      (fix star (t : string) : bool :=
         match_here re' t ||
         match t with
         | String c t' => atom_matches a c && star t'
         | EmptyString => false
         end) t
  end.

Fixpoint search (re : list (atom * bool)) (t : string) : bool :=
  match_here re t ||
  match t with
  | String _ t' => search re t'
  | EmptyString => false
  end.

(** [file.match(pattern.replace('**/', '').replace('*', '.*'))], as a
    condition. *)
Definition matches (pattern file : string) : bool :=
  search (compile (Js.replace_first "*" ".*" (Js.replace_first "**/" EmptyString pattern)))
         file.

(** The expression that asks for the characters of [w], one after the
    other. *)
Fixpoint letters (w : string) : list (atom * bool) :=
  match w with
  | EmptyString => []
  | String c w' => (Lit c, false) :: letters w'
  end.

(** *** Performance records *)

Record PerfRecord : Type := mkPerfRecord {
  testName : Js.json;
  pageLoad : option Js.num;
  apiResponse : option Js.num;
  timestamp : Js.value
}.

Section WithPlatform.
Context (P : Platform).

(** [parseInt(v)] on any value: the argument is turned into a string. *)
Definition parseInt_value (v : Js.value) : Js.num :=
  Js.parseInt (Js.to_string_value (Number_toString P) v).

(** [logEntry.action?.includes('API')], as a condition. *)
Definition action_includes_API (action : Js.value) : option bool :=
  match action with
  | None | Some Js.JNull => Some false
  | Some a => Js.includes_method a "API"
  end.

(** The body of the inner [try]: the record pushed for one line, or [None]
    when something in it throws and the entry is skipped. *)
Definition parseEntry (line : string) : option PerfRecord :=
  logEntry ← JSON_parse P line ;
  action ← Js.member logEntry "action" ;
  duration ← Js.member logEntry "duration" ;
  time ← Js.member logEntry "timestamp" ;
  api ← action_includes_API action ;
  Some {|
    testName := if Js.truthy action then default Js.JNull action else Js.JStr "unknown";
    pageLoad := if Js.is_string action "Page Navigation"
                then Some (parseInt_value duration) else None;
    apiResponse := if (api : bool) then Some (parseInt_value duration) else None;
    timestamp := time
  |}.

(** The loop over the lines of the log. *)
Definition collectLines (lines : list string) : list PerfRecord :=
  fold_left
    (fun performanceData line =>
       if Js.includes line performance_marker then
         match parseEntry line with
         | Some entry => performanceData ++ [entry]
         | None => performanceData
         end
       else performanceData)
    lines [].

Definition collectPerformanceData : M P (list PerfRecord) :=
  fn "collectPerformanceData" (
    try_catch
      (let logFile := in_root P "logs/test-execution.log" in
       logContent ← catch_value (request (ReadFile logFile)) EmptyString ;
       let lines := Js.split "010"%char logContent in
       mret (collectLines lines))
      (fun error =>
         log Warn "Failed to collect performance data" ;;
         mret [])).

(** The counts read from the results file only feed report text and log
    metadata, which are not kept; the function is modelled for its
    requests and log calls. *)
Definition collectTestResults : M P unit :=
  fn "collectTestResults" (
    try_catch
      (let playwrightResultsPath := "test-results/results.json" in
       catch_value
         (data ← request (ReadFile playwrightResultsPath) ;
          match JSON_parse P data with
          | Some playwrightResults => mret (Some playwrightResults)
          | None => throw (new_Error "Unexpected token in JSON")
          end)
         None ;;
       let junitResultsPath := "test-results/junit.xml" in
       try_catch
         (request (Access junitResultsPath) ;;
          log Debug "JUnit results file found")
         (fun _ => log Debug "No JUnit results file found"))
      (fun error =>
         log Warn "Failed to collect complete test results")).

Definition generateTestExecutionReport : M P unit :=
  fn "generateTestExecutionReport" (
    log Info "📊 Generating test execution report" ;;
    try_catch
      (collectTestResults ;;
       let reportsDir := in_root P "test-results/reports" in
       request (Mkdir reportsDir) ;;
       request (WriteFile (path_join reportsDir "execution-report.html")) ;;
       request (WriteFile (path_join reportsDir "execution-report.json")) ;;
       log Info "✅ Test execution report generated")
      (fun error =>
         log Error "Failed to generate test execution report")).

Definition organizeArtifacts (artifactType pattern : string) : M P unit :=
  fn "organizeArtifacts" (
    try_catch
      (let sourceDir := artifactType in
       let targetDir := path_join (in_root P "test-artifacts") artifactType in
       request (Mkdir targetDir) ;;
       files ← catch_value (request (Readdir sourceDir)) [] ;
       for_of files (fun file =>
         if matches pattern file then
           let sourcePath := path_join sourceDir file in
           let targetPath := path_join targetDir file in
           request (CopyFile sourcePath targetPath)
         else mret tt) ;;
       log Debug ("Organized " +:+ artifactType +:+ " artifacts"))
      (fun error =>
         log Warn ("Failed to organize " +:+ artifactType +:+ " artifacts"))).

Definition processTestArtifacts : M P unit :=
  fn "processTestArtifacts" (
    log Info "📁 Processing test artifacts" ;;
    try_catch
      (let artifactsDir := in_root P "test-artifacts" in
       request (Mkdir artifactsDir) ;;
       organizeArtifacts "screenshots" "**/*.png" ;;
       organizeArtifacts "videos" "**/*.webm" ;;
       organizeArtifacts "traces" "**/*.zip" ;;
       copyImportantLogs P ;;
       log Info "✅ Test artifacts processed")
      (fun error =>
         log Error "Failed to process test artifacts")).

Definition generateAllureTrends : M P unit :=
  fn "generateAllureTrends" (
    try_catch
      (let trendsDir := in_root P "allure-report/history" in
       request (Mkdir trendsDir) ;;
       let trendsFile := path_join trendsDir "trends.json" in
       request (WriteFile trendsFile))
      (fun error =>
         log Warn "Failed to generate Allure trends")).

Definition generateAllureReport : M P unit :=
  fn "generateAllureReport" (
    if negb (Js.truthy_opt (env P !! "ALLURE_RESULTS_DIR")) then
      log Info "⏭️ Allure report generation skipped (not configured)"
    else
      log Info "📊 Generating Allure report" ;;
      try_catch
        (let allureResultsDir := Js.or_default (env P !! "ALLURE_RESULTS_DIR") "allure-results" in
         let allureReportDir := Js.or_default (env P !! "ALLURE_REPORT_DIR") "allure-report" in
         resultFiles ← catch_value (request (Readdir allureResultsDir)) [] ;
         if (length resultFiles =? 0)%nat then
           log Warn "No Allure results found to generate report"
         else
           let command :=
             "npx allure generate " +:+ allureResultsDir +:+ " --clean -o " +:+ allureReportDir in
           stderr ← request (Exec command) ;
           when (Js.truthy_str stderr && negb (Js.includes stderr "WARNING"))
                (log Warn "Allure generation warnings") ;;
           generateAllureTrends ;;
           log Info "✅ Allure report generated")
        (fun error =>
           log Error "Failed to generate Allure report")).

(** The report object is computed from [performanceData] without any
    request and only feeds the file written and log metadata. *)
Definition generatePerformanceSummary : M P unit :=
  fn "generatePerformanceSummary" (
    log Info "⚡ Generating performance summary" ;;
    try_catch
      (collectPerformanceData ;;
       let reportsDir := in_root P "test-results/reports" in
       request (Mkdir reportsDir) ;;
       request (WriteFile (path_join reportsDir "performance-summary.json")) ;;
       log Info "✅ Performance summary generated")
      (fun error =>
         log Error "Failed to generate performance summary")).

Definition collectTestSummary : M P unit :=
  fn "collectTestSummary" collectTestResults.

Definition sendEmailNotification : M P unit :=
  fn "sendEmailNotification" (log Info "📧 Email notification would be sent here").

Definition sendSlackNotification : M P unit :=
  fn "sendSlackNotification" (log Info "📱 Slack notification would be sent here").

Definition sendTeamsNotification : M P unit :=
  fn "sendTeamsNotification" (log Info "👥 Teams notification would be sent here").

(** [process.env[k] === 'true']. *)
Definition env_true (k : string) : bool :=
  match env P !! k with
  | Some v => String.eqb v "true"
  | None => false
  end.

Definition sendNotifications : M P unit :=
  fn "sendNotifications" (
    log Info "📧 Processing notifications" ;;
    try_catch
      (let email := env_true "EMAIL_NOTIFICATIONS" in
       let slack := env_true "SLACK_NOTIFICATIONS" in
       let teams := env_true "TEAMS_NOTIFICATIONS" in
       if negb email && negb slack && negb teams then
         log Info "⏭️ No notifications configured"
       else
         collectTestSummary ;;
         when email sendEmailNotification ;;
         when slack sendSlackNotification ;;
         when teams sendTeamsNotification ;;
         log Info "✅ Notifications processed")
      (fun error =>
         log Error "Failed to send notifications")).

Definition checkReportsGenerated : M P (list string) :=
  fn "checkReportsGenerated" (
    let reportPaths :=
      ["test-results/reports/execution-report.html";
       "allure-report/index.html";
       "playwright-report/index.html"] in
    checkReports P [] reportPaths).

Definition generateFinalSummary : M P unit :=
  fn "generateFinalSummary" (
    log Info "📋 Generating final summary" ;;
    try_catch
      (collectTestResults ;;
       collectPerformanceData ;;
       checkReportsGenerated ;;
       countFiles P "screenshots" ".png" ;;
       countFiles P "videos" ".webm" ;;
       countFiles P "traces" ".zip" ;;
       let summaryFile := in_root P "test-results/final-summary.json" in
       request (WriteFile summaryFile) ;;
       log Info "🎯 Test Execution Complete")
      (fun error =>
         log Error "Failed to generate final summary")).

(** [fs.unlink(file).catch(() => {})]. *)
Definition unlink_quietly (file : string) : M P unit :=
  try_catch (request (Unlink file)) (fun _ => mret tt).

Definition basicCleanup : M P unit :=
  fn "basicCleanup" (
    log Info "⚠️ Performing basic cleanup" ;;
    try_catch
      (unlink_quietly "auth/state.json" ;;
       unlink_quietly "auth/cookies.json" ;;
       when (negb (String.eqb (platform P) "win32"))
            (exec_quietly P
               ("pkill -f " +:+ Js.dq +:+ "chrome|chromium|firefox|webkit" +:+ Js.dq)) ;;
       log Info "✅ Basic cleanup completed")
      (fun error =>
         log Error "Basic cleanup failed")).

(** The start and end times only feed log metadata and are left out. *)
Definition globalTeardown : M P unit :=
  fn "globalTeardown" (
    log Info "🏁 Starting Global Teardown" ;;
    try_catch
      (generateTestExecutionReport ;;
       processTestArtifacts ;;
       generateAllureReport ;;
       cleanupTemporaryFiles P ;;
       archiveLogs P ;;
       generatePerformanceSummary ;;
       sendNotifications ;;
       cleanupBrowserProcesses P ;;
       generateFinalSummary ;;
       log Info "✅ Global Teardown Completed Successfully")
      (fun error =>
         log Error "❌ Global Teardown Failed" ;;
         basicCleanup)).

(** The steps of the pipeline, in the order the [try] block awaits them. *)
Definition phases : list (string * M P unit) :=
  [("generateTestExecutionReport", generateTestExecutionReport);
   ("processTestArtifacts", processTestArtifacts);
   ("generateAllureReport", generateAllureReport);
   ("cleanupTemporaryFiles", cleanupTemporaryFiles P);
   ("archiveLogs", archiveLogs P);
   ("generatePerformanceSummary", generatePerformanceSummary);
   ("sendNotifications", sendNotifications);
   ("cleanupBrowserProcesses", cleanupBrowserProcesses P);
   ("generateFinalSummary", generateFinalSummary)].

Definition names : list string := map fst phases.
Definition steps : list (M P unit) := map snd phases.

End WithPlatform.
End TeardownFull.

(* ===================================================================== *)
(** ** The second teardown module: five steps *)
(* ===================================================================== *)

Module TeardownFocused.
Import Eff TeardownCommon.

(** The patterns passed to [organizeArtifacts] all have the shape
    [/\.(e1|e2|...)$/i]; such a pattern is kept as the list of its
    extensions. *)
Definition test (pattern : list string) (file : string) : bool :=
  existsb (fun ext => Js.endsWith (Js.toLowerCase file) ("." +:+ ext)) pattern.

Inductive Category : Type := pageLoad | apiResponse.

Definition Category_eqb (a b : Category) : bool :=
  match a, b with
  | pageLoad, pageLoad | apiResponse, apiResponse => true
  | _, _ => false
  end.

Record PerfRecord : Type := mkPerfRecord {
  testName : Js.json;
  type : Category;
  duration : Js.num;
  timestamp : Js.value
}.

Record PerformanceReport : Type := mkPerformanceReport {
  totalMeasurements : nat;
  averagePageLoad : Js.num;
  averageApiResponse : Js.num;
  slowestPageLoad : Js.num;
  slowestApiResponse : Js.num;
  pageLoadThreshold : Js.num;
  apiResponseThreshold : Js.num;
  violations : list PerfRecord
}.

Definition calculateAverage (data : list PerfRecord) : Js.num :=
  if (length data =? 0)%nat then Js.of_Z 0
  else
    let sum := fold_left (fun acc item => Js.add acc (duration item)) data (Js.of_Z 0) in
    Js.div_len sum (length data).

Section WithPlatform.
Context (P : Platform).

(** The body of the inner [try]: the record pushed for one line, or [None]
    when nothing is pushed, because the guard fails or something throws. *)
Definition parseEntry (line : string) : option PerfRecord :=
  logEntry ← JSON_parse P line ;
  action ← Js.member logEntry "action" ;
  rawDuration ← Js.member logEntry "duration" ;
  time ← Js.member logEntry "timestamp" ;
  if Js.truthy action && Js.truthy rawDuration then
    a ← action ;
    d ← rawDuration ;
    stripped ← Js.replace_method d "ms" EmptyString ;
    api ← Js.includes_method a "API" ;
    Some {|
      testName := a;
      type := if (api : bool) then apiResponse else pageLoad;
      duration := Js.parseInt stripped;
      timestamp := time
    |}
  else None.

(** The loop over the lines of the log. *)
Definition collectLines (lines : list string) : list PerfRecord :=
  fold_left
    (fun performanceData line =>
       if Js.includes line performance_marker then
         match parseEntry line with
         | Some entry => performanceData ++ [entry]
         | None => performanceData
         end
       else performanceData)
    lines [].

Definition collectPerformanceData : M P (list PerfRecord) :=
  fn "collectPerformanceData" (
    try_catch
      (let logFile := in_root P "logs/test-execution.log" in
       logContent ← catch_value (request (ReadFile logFile)) EmptyString ;
       let lines := Js.split "010"%char logContent in
       mret (collectLines lines))
      (fun error =>
         log Warn "Failed to collect performance data" ;;
         mret [])).

(** [parseInt(process.env.PAGE_LOAD_THRESHOLD || '5000')] and its twin. *)
Definition page_threshold : Js.num :=
  Js.parseInt (Js.or_default (env P !! "PAGE_LOAD_THRESHOLD") "5000").

Definition api_threshold : Js.num :=
  Js.parseInt (Js.or_default (env P !! "API_RESPONSE_THRESHOLD") "3000").

Definition of_type (t : Category) (data : list PerfRecord) : list PerfRecord :=
  List.filter (fun d => Category_eqb (type d) t) data.

(** The object literal [performanceReport], less its time stamp. *)
Definition performanceReport (performanceData : list PerfRecord) : PerformanceReport :=
  {| totalMeasurements := length performanceData;
     averagePageLoad := calculateAverage (of_type pageLoad performanceData);
     averageApiResponse := calculateAverage (of_type apiResponse performanceData);
     slowestPageLoad :=
       Js.Math_max (List.map (fun d => Js.or_zero (duration d))
                             (of_type pageLoad performanceData));
     slowestApiResponse :=
       Js.Math_max (List.map (fun d => Js.or_zero (duration d))
                             (of_type apiResponse performanceData));
     pageLoadThreshold := page_threshold;
     apiResponseThreshold := api_threshold;
     violations :=
       List.filter
         (fun d =>
            (Category_eqb (type d) pageLoad && Js.gt (duration d) page_threshold) ||
            (Category_eqb (type d) apiResponse && Js.gt (duration d) api_threshold))
         performanceData |}.

(** Defined in the module, though the call in [globalTeardown] is
    commented out.  The report only reaches the file written. *)
Definition generatePerformanceSummary : M P unit :=
  fn "generatePerformanceSummary" (
    log Info "⚡ Generating performance summary" ;;
    try_catch
      (performanceData ← collectPerformanceData ;
       let report := performanceReport performanceData in
       let reportsDir := in_root P "test-results" in
       request (Mkdir reportsDir) ;;
       request (WriteFile (path_join reportsDir "performance-summary.json")) ;;
       log Info "✅ Performance summary generated")
      (fun error =>
         log Error "Failed to generate performance summary")).

Definition organizeArtifacts (artifactType : string) (pattern : list string) : M P unit :=
  fn "organizeArtifacts" (
    try_catch
      (let sourceDir := artifactType in
       let targetDir := path_join (in_root P "test-artifacts") artifactType in
       request (Mkdir targetDir) ;;
       files ← catch_value (request (Readdir sourceDir)) [] ;
       for_of files (fun file =>
         if test pattern file then
           let sourcePath := path_join sourceDir file in
           let targetPath := path_join targetDir file in
           try_catch
             (request (CopyFile sourcePath targetPath))
             (fun error => log Debug ("Failed to copy " +:+ file))
         else mret tt) ;;
       log Debug ("Organized " +:+ artifactType +:+ " artifacts"))
      (fun error =>
         log Warn ("Failed to organize " +:+ artifactType +:+ " artifacts"))).

Definition processTestArtifacts : M P unit :=
  fn "processTestArtifacts" (
    log Info "📁 Processing test artifacts" ;;
    try_catch
      (let artifactsDir := in_root P "test-artifacts" in
       request (Mkdir artifactsDir) ;;
       organizeArtifacts "screenshots" ["png"; "jpg"; "jpeg"] ;;
       organizeArtifacts "videos" ["webm"; "mp4"] ;;
       organizeArtifacts "traces" ["zip"] ;;
       copyImportantLogs P ;;
       log Info "✅ Test artifacts processed")
      (fun error =>
         log Error "Failed to process test artifacts")).

Definition checkReportsGenerated : M P (list string) :=
  fn "checkReportsGenerated" (
    let reportPaths := ["allure-report/index.html"; "playwright-report/index.html"] in
    checkReports P [] reportPaths).

Definition fileExists (filePath : string) : M P bool :=
  fn "fileExists" (
    try_catch (request (Access filePath) ;; mret true) (fun _ => mret false)).

Definition generateFinalSummary : M P unit :=
  fn "generateFinalSummary" (
    log Info "📋 Generating final summary" ;;
    try_catch
      (checkReportsGenerated ;;
       countFiles P "screenshots" ".png" ;;
       countFiles P "videos" ".webm" ;;
       countFiles P "traces" ".zip" ;;
       fileExists "test-results/performance-summary.json" ;;
       let summaryFile := in_root P "test-results/final-summary.json" in
       request (WriteFile summaryFile) ;;
       log Info "🎯 Test Execution Complete")
      (fun error =>
         log Error "Failed to generate final summary")).

Definition basicCleanup : M P unit :=
  fn "basicCleanup" (
    log Info "⚠️ Performing basic cleanup" ;;
    try_catch
      (when (negb (String.eqb (platform P) "win32"))
            (exec_quietly P
               ("pkill -f " +:+ Js.dq +:+ "chrome|chromium|firefox|webkit" +:+ Js.dq)) ;;
       log Info "✅ Basic cleanup completed")
      (fun error =>
         log Error "Basic cleanup failed")).

(** The start and end times only feed log metadata and are left out. *)
Definition globalTeardown : M P unit :=
  fn "globalTeardown" (
    log Info "🏁 Starting Global Teardown" ;;
    try_catch
      (processTestArtifacts ;;
       cleanupTemporaryFiles P ;;
       archiveLogs P ;;
       cleanupBrowserProcesses P ;;
       generateFinalSummary ;;
       log Info "✅ Global Teardown Completed Successfully")
      (fun error =>
         log Error "❌ Global Teardown Failed" ;;
         basicCleanup)).

(** The steps of the pipeline, in the order the [try] block awaits them. *)
Definition phases : list (string * M P unit) :=
  [("processTestArtifacts", processTestArtifacts);
   ("cleanupTemporaryFiles", cleanupTemporaryFiles P);
   ("archiveLogs", archiveLogs P);
   ("cleanupBrowserProcesses", cleanupBrowserProcesses P);
   ("generateFinalSummary", generateFinalSummary)].

Definition names : list string := map fst phases.
Definition steps : list (M P unit) := map snd phases.

(** One turn of the loop of [organizeArtifacts]. *)
Definition copy_or_log (pattern : list string) (sourceDir targetDir file : string)
  : M P unit :=
  if test pattern file then
    try_catch
      (request (CopyFile (path_join sourceDir file) (path_join targetDir file)))
      (fun error => log Debug ("Failed to copy " +:+ file))
  else mret tt.

(** The listing [fs.readdir(dir).catch(() => [])] yields from [w]. *)
Definition listing (dir : string) (w : World P) : list string :=
  match sys P _ (Readdir dir) w with
  | (_, inr files) => files
  | (_, inl _) => []
  end.

End WithPlatform.
End TeardownFocused.

(* ===================================================================== *)
(** ** The API helper: waiting for an endpoint *)
(* ===================================================================== *)

Module ApiHelper.
Import Eff.

Section WithPlatform.
Context (P : Platform).

(** One turn of the [try] inside the loop: [true] when the function
    returns [true] from there.  [this.get(endpoint)] is the request
    [HttpGet]; it answers with the status or throws. *)
Definition probe (endpoint : string) : M P bool :=
  try_catch
    (status ← request (HttpGet endpoint) ;
     if (status <? 500)%nat then
       log Info "Endpoint is available" ;;
       mret true
     else mret false)
    (fun error => mret false).

(** The [while] loop, unrolled at most [fuel] times; [None] when the fuel
    runs out before the loop ends. *)
Fixpoint poll (fuel : nat) (endpoint : string) (startTime timeout interval : Z)
  : M P (option bool) :=
  match fuel with
  | O => mret None
  | S fuel' =>
      t ← Date_now ;
      if t - startTime <? timeout then
        available ← probe endpoint ;
        if (available : bool) then mret (Some true)
        else
          delay interval ;;
          poll fuel' endpoint startTime timeout interval
      else
        log Warn "Endpoint did not become available within timeout" ;;
        mret (Some false)
  end.

Definition waitForEndpoint (fuel : nat) (endpoint : string) (timeout interval : Z)
  : M P (option bool) :=
  fn "waitForEndpoint" (
    startTime ← Date_now ;
    log Info "Waiting for endpoint to become available" ;;
    poll fuel endpoint startTime timeout interval).

End WithPlatform.


(** A timer never fires early. *)
Definition punctual (P : Platform) : Prop :=
  forall ms w, now P w + ms <= now P (sleep P ms w).


(** Asking the endpoint does not turn the clock back, whatever it
    answers. *)
Definition steady (P : Platform) (endpoint : string) : Prop :=
  forall w w' r,
    sys P nat (HttpGet endpoint) w = (w', r) -> now P w <= now P w'.

End ApiHelper.

(* ===================================================================== *)
(** ** src/config/configManager.ts *)
(* ===================================================================== *)

Module ConfigManager.
Import Eff.

(** The [Environment] interface of the types module. *)
Record Environment : Type := mkEnvironment {
  BROWSER : string;
  BASE_URL : string;
  API_BASE_URL : string;
  USERNAME : string;
  PASSWORD : string;
  HEADLESS : bool;
  VIEWPORT_WIDTH : Js.num;
  VIEWPORT_HEIGHT : Js.num;
  TIMEOUT : Js.num;
  API_TIMEOUT : Js.num;
  WORKERS : Js.num;
  ALLURE_RESULTS_DIR : string;
  ALLURE_REPORT_DIR : string;
  LOG_LEVEL : string;
  LOG_TO_FILE : bool;
  LOG_TO_CONSOLE : bool;
  PAGE_LOAD_THRESHOLD : Js.num;
  API_RESPONSE_THRESHOLD : Js.num;
  TEST_SUITE : string
}.

Record Viewport : Type := mkViewport { width : Js.num; height : Js.num }.

(** Of [FrameworkConfig], the parts the methods below read. *)
Record FrameworkConfig : Type := mkFrameworkConfig {
  environment : Environment;
  browser_viewport : Viewport
}.

(** A value of one of the field types of [Environment]. *)
Inductive Value : Type :=
| VStr (s : string)
| VNum (n : Js.num)
| VBool (b : bool).

(** [environment[key]]: [None] is [undefined], for a key that is no field. *)
Definition field (e : Environment) (key : string) : option Value :=
  if String.eqb key "BROWSER" then Some (VStr (BROWSER e))
  else if String.eqb key "BASE_URL" then Some (VStr (BASE_URL e))
  else if String.eqb key "API_BASE_URL" then Some (VStr (API_BASE_URL e))
  else if String.eqb key "USERNAME" then Some (VStr (USERNAME e))
  else if String.eqb key "PASSWORD" then Some (VStr (PASSWORD e))
  else if String.eqb key "HEADLESS" then Some (VBool (HEADLESS e))
  else if String.eqb key "VIEWPORT_WIDTH" then Some (VNum (VIEWPORT_WIDTH e))
  else if String.eqb key "VIEWPORT_HEIGHT" then Some (VNum (VIEWPORT_HEIGHT e))
  else if String.eqb key "TIMEOUT" then Some (VNum (TIMEOUT e))
  else if String.eqb key "API_TIMEOUT" then Some (VNum (API_TIMEOUT e))
  else if String.eqb key "WORKERS" then Some (VNum (WORKERS e))
  else if String.eqb key "ALLURE_RESULTS_DIR" then Some (VStr (ALLURE_RESULTS_DIR e))
  else if String.eqb key "ALLURE_REPORT_DIR" then Some (VStr (ALLURE_REPORT_DIR e))
  else if String.eqb key "LOG_LEVEL" then Some (VStr (LOG_LEVEL e))
  else if String.eqb key "LOG_TO_FILE" then Some (VBool (LOG_TO_FILE e))
  else if String.eqb key "LOG_TO_CONSOLE" then Some (VBool (LOG_TO_CONSOLE e))
  else if String.eqb key "PAGE_LOAD_THRESHOLD" then Some (VNum (PAGE_LOAD_THRESHOLD e))
  else if String.eqb key "API_RESPONSE_THRESHOLD" then Some (VNum (API_RESPONSE_THRESHOLD e))
  else if String.eqb key "TEST_SUITE" then Some (VStr (TEST_SUITE e))
  else None.

Definition truthy (v : option Value) : bool :=
  match v with
  | Some (VStr s) => Js.truthy_str s
  | Some (VNum n) => Js.truthy_num n
  | Some (VBool b) => b
  | None => false
  end.

(** The instance: the loaded configuration and the overrides, an object
    used as a map from key to value. *)
Record State : Type := mkState {
  config : FrameworkConfig;
  environmentOverrides : gmap string Value
}.

Definition get (this : State) (key : string) : Res Value :=
  match environmentOverrides this !! key with
  | Some overrideValue => Ok overrideValue
  | None =>
      match field (environment (config this)) key with
      | Some configValue => Ok configValue
      | None =>
          Throw (new_Error ("Configuration value for '" +:+ key +:+ "' is not defined"))
      end
  end.

Definition set (this : State) (key : string) (value : Value) : State :=
  mkState (config this) (<[key := value]> (environmentOverrides this)).

Definition clearOverrides (this : State) : State :=
  mkState (config this) ∅.

Section WithPlatform.
Context (P : Platform).

(** [process.env[k] === 'true']. *)
Definition env_true (k : string) : bool :=
  match env P !! k with
  | Some v => String.eqb v "true"
  | None => false
  end.

Definition env_or (k d : string) : string := Js.or_default (env P !! k) d.

(** [loadConfiguration], for the parts of the result kept here. *)
Definition loadConfiguration : FrameworkConfig :=
  {| environment :=
       {| BROWSER := env_or "BROWSER" "chromium";
          BASE_URL := env_or "BASE_URL" "https://opensource-demo.orangehrmlive.com";
          API_BASE_URL :=
            env_or "API_BASE_URL" "https://opensource-demo.orangehrmlive.com/web/api/v1";
          USERNAME := env_or "USERNAME" "Admin";
          PASSWORD := env_or "PASSWORD" "admin123";
          HEADLESS := env_true "HEADLESS";
          VIEWPORT_WIDTH := Js.parseInt (env_or "VIEWPORT_WIDTH" "1280");
          VIEWPORT_HEIGHT := Js.parseInt (env_or "VIEWPORT_HEIGHT" "720");
          TIMEOUT := Js.parseInt (env_or "TIMEOUT" "30000");
          API_TIMEOUT := Js.parseInt (env_or "API_TIMEOUT" "10000");
          WORKERS := Js.parseInt (env_or "WORKERS" "4");
          ALLURE_RESULTS_DIR := env_or "ALLURE_RESULTS_DIR" "allure-results";
          ALLURE_REPORT_DIR := env_or "ALLURE_REPORT_DIR" "allure-report";
          LOG_LEVEL := env_or "LOG_LEVEL" "info";
          LOG_TO_FILE := env_true "LOG_TO_FILE";
          LOG_TO_CONSOLE := env_true "LOG_TO_CONSOLE";
          PAGE_LOAD_THRESHOLD := Js.parseInt (env_or "PAGE_LOAD_THRESHOLD" "5000");
          API_RESPONSE_THRESHOLD := Js.parseInt (env_or "API_RESPONSE_THRESHOLD" "3000");
          TEST_SUITE := env_or "TEST_SUITE" "all" |};
     browser_viewport :=
       {| width := Js.parseInt (env_or "VIEWPORT_WIDTH" "1280");
          height := Js.parseInt (env_or "VIEWPORT_HEIGHT" "720") |} |}.

Definition isValidUrl (url : string) : bool := valid_url P url.

Definition requiredVars : list string :=
  ["BASE_URL"; "API_BASE_URL"; "USERNAME"; "PASSWORD"].

(** The array [errors] when the checks are over, push after push. *)
Definition errors (c : FrameworkConfig) : list string :=
  let e := environment c in
  let errors0 :=
    fold_left
      (fun errs envVar =>
         if negb (truthy (field e envVar))
         then errs ++ ["Missing required environment variable: " +:+ envVar]
         else errs)
      requiredVars [] in
  let errors1 :=
    if Js.truthy_str (BASE_URL e) && negb (isValidUrl (BASE_URL e))
    then errors0 ++ ["Invalid BASE_URL: " +:+ BASE_URL e] else errors0 in
  let errors2 :=
    if Js.truthy_str (API_BASE_URL e) && negb (isValidUrl (API_BASE_URL e))
    then errors1 ++ ["Invalid API_BASE_URL: " +:+ API_BASE_URL e] else errors1 in
  let errors3 :=
    if Js.truthy_num (TIMEOUT e) && Js.lt (TIMEOUT e) (Js.of_Z 1000)
    then errors2 ++ ["TIMEOUT must be at least 1000ms"] else errors2 in
  let errors4 :=
    if Js.truthy_num (WORKERS e) && Js.lt (WORKERS e) (Js.of_Z 1)
    then errors3 ++ ["WORKERS must be at least 1"] else errors3 in
  if Js.lt (width (browser_viewport c)) (Js.of_Z 320) ||
     Js.lt (height (browser_viewport c)) (Js.of_Z 240)
  then errors4 ++ ["Viewport dimensions must be at least 320x240"] else errors4.

(** The whole method: the logger calls are left out, the method being
    synchronous and outside the traced pipelines. *)
Definition validateConfiguration (c : FrameworkConfig) : Res unit :=
  if (0 <? length (errors c))%nat then
    Throw (new_Error ("Configuration validation failed:" +:+ String "010"%char
                        (Js.join (String "010"%char EmptyString) (errors c))))
  else Ok tt.

(** The constructor. *)
Definition new : Res State :=
  let config := loadConfiguration in
  match validateConfiguration config with
  | Ok _ => Ok (mkState config ∅)
  | Throw e => Throw e
  end.

(** *** The findings, described check by check

    The four definitions below do not follow the method: they say what
    each check finds on its own, to be compared with [errors]. *)

(** The required keys whose value is falsy in a loaded configuration. *)
Definition missing (c : FrameworkConfig) : list string :=
  List.filter
    (fun k => negb (truthy (field (environment c) k)))
    requiredVars.

Definition missing_message (k : string) : string :=
  "Missing required environment variable: " +:+ k.

(** The URL findings, each evaluated on its own. *)
Definition url_faults (c : FrameworkConfig) : list string :=
  let e := environment c in
  (if Js.truthy_str (BASE_URL e) &&
      negb (isValidUrl (BASE_URL e))
   then ["Invalid BASE_URL: " +:+ BASE_URL e] else []) ++
  (if Js.truthy_str (API_BASE_URL e) &&
      negb (isValidUrl (API_BASE_URL e))
   then ["Invalid API_BASE_URL: " +:+ API_BASE_URL e] else []).

(** The numeric findings, each evaluated on its own, with the tests the
    method applies. *)
Definition numeric_faults (c : FrameworkConfig) : list string :=
  let e := environment c in
  (if Js.truthy_num (TIMEOUT e) &&
      Js.lt (TIMEOUT e) (Js.of_Z 1000)
   then ["TIMEOUT must be at least 1000ms"] else []) ++
  (if Js.truthy_num (WORKERS e) &&
      Js.lt (WORKERS e) (Js.of_Z 1)
   then ["WORKERS must be at least 1"] else []) ++
  (if Js.lt (width (browser_viewport c)) (Js.of_Z 320) ||
      Js.lt (height (browser_viewport c)) (Js.of_Z 240)
   then ["Viewport dimensions must be at least 320x240"] else []).

(** *** The getters derived from the configuration *)

(** [getEnvironmentName].  [baseUrl.includes] exists on a string only:
    with an override of another type the call is a [TypeError]. *)
Definition getEnvironmentName (this : State) : Res string :=
  match get this "BASE_URL" with
  | Ok (VStr baseUrl) =>
      Ok (if Js.includes baseUrl "localhost" || Js.includes baseUrl "127.0.0.1"
          then "local"
          else if Js.includes baseUrl "staging" || Js.includes baseUrl "stg"
          then "staging"
          else if Js.includes baseUrl "demo" || Js.includes baseUrl "opensource-demo"
          then "demo"
          else if Js.includes baseUrl "prod" || Js.includes baseUrl "production"
          then "production"
          else "unknown")
  | Ok _ => Throw (new_Error "baseUrl.includes is not a function")
  | Throw e => Throw e
  end.

(** [isCI]: one of the five variables is set and not empty. *)
Definition isCI : bool :=
  Js.truthy_opt (env P !! "CI") ||
  Js.truthy_opt (env P !! "GITHUB_ACTIONS") ||
  Js.truthy_opt (env P !! "JENKINS_URL") ||
  Js.truthy_opt (env P !! "BUILDKITE") ||
  Js.truthy_opt (env P !! "CIRCLECI").

(** [getWorkersConfig]. *)
Definition getWorkersConfig (this : State) : Res Value :=
  if isCI then Ok (VNum (Js.of_Z 1)) else get this "WORKERS".

End WithPlatform.
End ConfigManager.

(* ===================================================================== *)
(** ** The API helper: the cookie header *)
(* ===================================================================== *)

Module ApiHeaders.
Import Eff.

(** Of [Cookie], the two fields [setCookies] reads and [getCookies]
    fills; the optional ones are read by neither. *)
Record Cookie : Type := mkCookie { name : string; value : string }.

(** The instance: [defaultHeaders], an object used as a map from header
    name to value, and whether [init] has set [context]. *)
Record State : Type := mkState {
  defaultHeaders : gmap string string;
  context : bool
}.

Definition not_initialized : Err :=
  new_Error "API context not initialized. Call init() first.".

(** [setCookies]; the logger and the report step are left out, here and
    below. *)
Definition setCookies (this : State) (cookies : list Cookie) : Res State :=
  if negb (context this) then Throw not_initialized
  else
    let cookieHeader :=
      Js.join "; " (map (fun cookie => name cookie +:+ "=" +:+ value cookie) cookies) in
    Ok (mkState (<["Cookie" := cookieHeader]> (defaultHeaders this)) (context this)).

Definition clearCookies (this : State) : Res State :=
  if negb (context this) then Throw not_initialized
  else Ok (mkState (delete "Cookie" (defaultHeaders this)) (context this)).

(** The arrow function mapped over the pieces of the header.  A split
    has one piece at least, so [name] is always a string; [value] is
    [undefined] when the piece holds no equals sign. *)
Definition parseCookie (cookieStr : string) : Cookie :=
  let parts := Js.split_str "=" cookieStr in
  {| name := Js.trim (default EmptyString (parts !! 0%nat));
     value := match parts !! 1%nat with
              | Some value => Js.or_default (Some (Js.trim value)) EmptyString
              | None => EmptyString
              end |}.

Definition getCookies (this : State) : Res (list Cookie) :=
  if negb (context this) then Throw not_initialized
  else
    match defaultHeaders this !! "Cookie" with
    | Some cookieHeader =>
        if negb (Js.truthy_str cookieHeader) then Ok []
        else Ok (map parseCookie (Js.split_str "; " cookieHeader))
    | None => Ok []
    end.

(** A name or a value that the cookie header carries unchanged: ASCII,
    with no semicolon, no equals sign, no white space at either end. *)
Definition plain (s : string) : bool :=
  Js.ascii_only s &&
  negb (Js.includes s ";") && negb (Js.includes s "=") && String.eqb (Js.trim s) s.

End ApiHeaders.

(* ===================================================================== *)
(** ** The utility class of the setup file *)
(* ===================================================================== *)

(** The static methods of [TestUtils] that work on numbers, strings and
    the file system.  Durations, delays and retry counts are taken as
    integers. *)
Module TestUtils.
Import Eff.

(** [formatDuration], for a whole number of milliseconds.  [/] on [Z]
    rounds down, as [Math.floor] does; [%] keeps the sign of the
    dividend, as [Z.rem] does. *)
Definition formatDuration (milliseconds : Z) : string :=
  let seconds := milliseconds / 1000 in
  let minutes := seconds / 60 in
  let hours := minutes / 60 in
  if 0 <? hours then
    pretty hours +:+ "h " +:+ pretty (Z.rem minutes 60) +:+ "m " +:+
    pretty (Z.rem seconds 60) +:+ "s"
  else if 0 <? minutes then
    pretty minutes +:+ "m " +:+ pretty (Z.rem seconds 60) +:+ "s"
  else pretty seconds +:+ "s".

(** The nine characters of the class the first [replace] of
    [sanitizeFilename] looks for: the angle brackets, the colon, the
    double quote, the two slashes, the bar, the question mark and the
    star. *)
Definition unsafe (c : ascii) : bool :=
  existsb (Ascii.eqb c)
    ["<"; ">"; ":"; "034"; "/"; "092"; "|"; "?"; "*"]%char.

Fixpoint replace_unsafe (s : string) : string :=
  match s with
  | EmptyString => EmptyString
  | String c s' => String (if unsafe c then "_"%char else c) (replace_unsafe s')
  end.

(** [sanitizeFilename], on ASCII names. *)
Definition sanitizeFilename (filename : string) : string :=
  Js.toLowerCase (Js.underscore_runs false (replace_unsafe filename)).

(** A character that [sanitizeFilename] leaves as it is: none of the
    nine, no white space, no capital letter. *)
Definition settled (c : ascii) : Prop :=
  unsafe c = false /\ Js.is_space c = false /\ Js.lower c = c.

Section WithPlatform.
Context (P : Platform).

Definition ensureDirectory (dirPath : string) : M P unit :=
  fn "ensureDirectory" (
    try_catch
      (request (Mkdir dirPath))
      (fun error => log Warn "Failed to create directory")).

(** [filePattern && !filePattern.test(file)], with the optional pattern
    given by its test. *)
Definition skipped (filePattern : option (string -> bool)) (file : string) : bool :=
  match filePattern with
  | Some test => negb (test file)
  | None => false
  end.

(** [cleanupOldFiles]; [maxAge] defaults to seven days at the call. *)
Definition cleanupOldFiles (dirPath : string) (maxAge : Z)
    (filePattern : option (string -> bool)) : M P unit :=
  fn "cleanupOldFiles" (
    try_catch
      (files ← request (Readdir dirPath) ;
       now ← Date_now ;
       let cutoffTime := now - maxAge in
       for_of files (fun file =>
         if skipped filePattern file then mret tt
         else
           let filePath := path_join dirPath file in
           mtime ← request (Stat filePath) ;
           if mtime <? cutoffTime then
             request (Unlink filePath) ;;
             log Debug "Cleaned up old file"
           else mret tt))
      (fun error => log Warn "Failed to cleanup old files")).

(** The entry logged between two attempts of [retryWithBackoff]. *)
Definition retry_message (attempt maxRetries : nat) (delay : Z) : string :=
  "Retry attempt " +:+ pretty attempt +:+ "/" +:+ pretty maxRetries +:+
  " failed, waiting " +:+ pretty delay +:+ "ms".

(** The [for] loop of [retryWithBackoff] from attempt number [attempt]
    on, with [more] attempts to follow it: [more] is
    [maxRetries - attempt], so that [attempt === maxRetries] reads
    [more = 0].  What is thrown after the [break] is [lastError], the
    error just caught. *)
Fixpoint attempts {A} (fn : M P A) (maxRetries : nat) (baseDelay : Z)
    (attempt more : nat) : M P A :=
  try_catch fn (fun error =>
    match more with
    | O => throw error
    | S more' =>
        let delay := baseDelay * 2 ^ Z.of_nat (attempt - 1) in
        log Debug (retry_message attempt maxRetries delay) ;;
        Eff.delay delay ;;
        attempts fn maxRetries baseDelay (S attempt) more'
    end).

(** The data [loadTestData] falls back on. *)
Definition defaultTestData : Js.json :=
  Js.JObj
    [("users",
      Js.JArr
        [Js.JObj
           [("username", Js.JStr (Js.or_default (env P !! "USERNAME") "Admin"));
            ("password", Js.JStr (Js.or_default (env P !! "PASSWORD") "admin123"));
            ("role", Js.JStr "Admin")]]);
     ("employees", Js.JArr []);
     ("testUrls",
      Js.JObj [("login", Js.JStr "/web/index.php/auth/login");
               ("dashboard", Js.JStr "/web/index.php/dashboard/index")]);
     ("apiEndpoints",
      Js.JObj [("employees", Js.JStr "/pim/employees");
               ("users", Js.JStr "/admin/users")])].

(** [loadTestData] of the first copy of the class.  What [JSON.parse]
    throws is caught at once, and only its message, which goes to the
    log, depends on the engine. *)
Definition loadTestData (testDataFile : string) : M P Js.json :=
  fn "loadTestData" (
    try_catch
      (testDataContent ← request (ReadFile testDataFile) ;
       match JSON_parse P testDataContent with
       | Some testData => mret testData
       | None => throw (new_Error "SyntaxError")
       end)
      (fun error =>
         log Warn "Failed to load test data" ;;
         mret defaultTestData)).

(** [v[k]] for a value [v] that is neither null nor undefined, and one
    of the member names read here. *)
Definition prop (v : Js.json) (k : string) : Js.value :=
  default None (Js.member v k).

(** [Object.entries(v)] for such a value: the members of an object
    (whose names are no array indices, which would come first), the
    items of an array under their indices, the characters of a string
    under theirs, and nothing for a number or a boolean. *)
Definition entries (v : Js.json) : list (string * Js.json) :=
  match v with
  | Js.JObj members => members
  | Js.JArr items => imap (fun i item => (pretty i, item)) items
  | Js.JStr s =>
      imap (fun i c => (pretty i, Js.JStr (String c EmptyString)))
           (String.list_ascii_of_string s)
  | _ => []
  end.

Definition isValidUrl (url : string) : bool := valid_url P url.

(** The check of the required properties, one turn of its loop. *)
Definition checkProperty (data : Js.json) (errors : list string) (p : string)
  : list string :=
  if negb (Js.truthy (prop data p))
  then errors ++ ["Missing required property: " +:+ p]
  else errors.

(** The loop over [testData.users] from index [i] on: [None] is the
    [TypeError] of reading a member of [null]. *)
Fixpoint checkUsers (i : nat) (users : list Js.json) (errors : list string)
  : option (list string) :=
  match users with
  | [] => Some errors
  | user :: rest =>
      username ← Js.member user "username" ;
      password ← Js.member user "password" ;
      checkUsers (S i) rest
        (if negb (Js.truthy username) || negb (Js.truthy password)
         then errors ++ ["User at index " +:+ pretty i +:+ " missing username or password"]
         else errors)
  end.

(** One turn of the loop over the entries of [testData.testUrls]. *)
Definition checkUrl (errors : list string) (entry : string * Js.json) : list string :=
  match entry with
  | (key, Js.JStr url) =>
      if Js.startsWith "http" url && negb (isValidUrl url)
      then errors ++ ["Invalid URL for " +:+ key +:+ ": " +:+ url]
      else errors
  | _ => errors
  end.

(** [validateTestData] on what [JSON.parse] can return, or on
    [undefined]: [isValid] and [errors], or [None] for a [TypeError]. *)
Definition validateTestData (testData : Js.value) : option (bool * list string) :=
  match testData with
  | Some data =>
      if negb (Js.truthy testData) then Some (false, ["Test data is null or undefined"])
      else
        let errors0 :=
          fold_left (checkProperty data) ["users"; "testUrls"; "apiEndpoints"] [] in
        errors1 ← match prop data "users" with
                  | Some (Js.JArr users) => checkUsers 0 users errors0
                  | _ => Some errors0
                  end ;
        let errors2 :=
          match prop data "testUrls" with
          | Some testUrls =>
              if Js.truthy (Some testUrls)
              then fold_left checkUrl (entries testUrls) errors1
              else errors1
          | None => errors1
          end in
        Some ((length errors2 =? 0)%nat, errors2)
  | None => Some (false, ["Test data is null or undefined"])
  end.

(** [retryWithBackoff], for [maxRetries] of one or more.  (With zero the
    loop is never entered and what is thrown is [undefined], which is no
    [Error].) *)
Definition retryWithBackoff {A} (fn : M P A) (maxRetries : positive) (baseDelay : Z)
  : M P A :=
  attempts fn (Pos.to_nat maxRetries) baseDelay 1 (Pos.to_nat maxRetries - 1).

End WithPlatform.
End TestUtils.

(* ===================================================================== *)
(** ** Concrete platforms, to run the model on *)
(* ===================================================================== *)

Module Lab.
Import Eff.

(** Every request is answered, with nothing found on disk. *)
Definition calm (R : Type) (rq : Sys R) : Err + R :=
  match rq in Sys R return Err + R with
  | Mkdir _ | Rmdir _ | Unlink _ | CopyFile _ _ | WriteFile _ | Access _ => inr tt
  | Readdir _ => inr []
  | ReadFile _ => inr EmptyString
  | Stat _ => inr 0
  | Exec _ => inr EmptyString
  | Launch _ | NewContext | NewPage | Evaluate => inr tt
  | Goto _ => inr (Some (mkResponse 200 "OK"))
  | Title => inr "OrangeHRM"
  | ClosePage | CloseContext | CloseBrowser => inr tt
  | HttpGet _ => inr 200%nat
  end.

(** A URL is taken as well formed when it starts with a scheme the
    framework uses. *)
Definition url_like (s : string) : bool :=
  Js.startsWith "http://" s || Js.startsWith "https://" s.

Definition quoted (s : string) : string := Js.dq +:+ s +:+ Js.dq.

(** A log line as the logger writes it:
    [{"type":"performance","action":A,"duration":D,"timestamp":"t"}],
    with [A] and [D] quoted. *)
Definition perf_line (action duration : string) : string :=
  "{" +:+ quoted "type" +:+ ":" +:+ quoted "performance" +:+ "," +:+
  quoted "action" +:+ ":" +:+ quoted action +:+ "," +:+
  quoted "duration" +:+ ":" +:+ quoted duration +:+ "," +:+
  quoted "timestamp" +:+ ":" +:+ quoted "t" +:+ "}".

Definition perf_json (action duration : string) : Js.json :=
  Js.JObj [("type", Js.JStr "performance"); ("action", Js.JStr action);
           ("duration", Js.JStr duration); ("timestamp", Js.JStr "t")].

(** [JSON.parse] on the few lines used below; anything else is taken as
    a syntax error. *)
Definition parse (line : string) : option Js.json :=
  if String.eqb line (perf_line "Login" "120ms") then Some (perf_json "Login" "120ms")
  else if String.eqb line (perf_line "Page Navigation" "800ms")
       then Some (perf_json "Page Navigation" "800ms")
  else if String.eqb line (perf_line "API GET /users" "95ms")
       then Some (perf_json "API GET /users" "95ms")
  else None.

(** [String(n)] for the integers. *)
Definition show_num (n : Js.num) : string :=
  match n with
  | Js.NaN => "NaN"
  | Js.PosInf => "Infinity"
  | Js.NegInf => "-Infinity"
  | Js.Fin q => pretty (Qnum q / Zpos (Qden q))
  end.

(** A platform whose answers do not depend on what happened before. *)
Definition still (answers : forall R : Type, Sys R -> Err + R) (e : gmap string string)
  : Platform :=
  {| World := unit;
     sys := fun R rq w => (w, answers R rq);
     now := fun _ => 0;
     sleep := fun _ w => w;
     env := e;
     valid_url := url_like;
     JSON_parse := parse;
     Number_toString := show_num;
     toISOString := fun _ => "2025-01-01T00:00:00.000Z";
     platform := "linux";
     root := "/repo" |}.

(** A complete environment. *)
Definition env_ok : gmap string string :=
  <["BASE_URL" := "https://opensource-demo.orangehrmlive.com"]>
  (<["API_BASE_URL" := "https://opensource-demo.orangehrmlive.com/web/api/v1"]>
  (<["USERNAME" := "Admin"]>
  (<["PASSWORD" := "admin123"]> ∅))).

(** Only the base URL is set. *)
Definition env_missing : gmap string string :=
  <["BASE_URL" := "https://opensource-demo.orangehrmlive.com"]> ∅.


(** Three screenshots on disk; copying the second one is refused. *)
Definition refuse_second (R : Type) (rq : Sys R) : Err + R :=
  match rq in Sys R return Err + R with
  | Readdir dir =>
      if String.eqb dir "screenshots" then inr ["a.png"; "b.png"; "c.png"] else inr []
  | CopyFile src dst =>
      if String.eqb src "screenshots/b.png"
      then inl (mkErr "EACCES: permission denied" "EACCES") else inr tt
  | other => calm _ other
  end.

(** A server that answers 503 after [latency] ms, on a clock that only
    moves when the process waits. *)
Definition slow_server (latency : Z) : Platform :=
  {| World := Z;
     sys := fun R rq w =>
              match rq in Sys R return Z * (Err + R) with
              | HttpGet _ => (w + latency, inr 503%nat)
              | other => (w, calm _ other)
              end;
     now := fun w => w;
     sleep := fun ms w => w + ms;
     env := ∅;
     valid_url := url_like;
     JSON_parse := parse;
     Number_toString := show_num;
     toISOString := fun _ => "2025-01-01T00:00:00.000Z";
     platform := "linux";
     root := "/repo" |}.

(** The calm platform with three of the four required variables unset. *)
Definition missing_platform : Platform := still calm env_missing.

(** The error [validateEnvironment] throws there. *)
Definition missing_error : Err :=
  new_Error "Missing required environment variables: API_BASE_URL, USERNAME, PASSWORD".

(** The calm platform with an empty environment. *)
Definition plain_platform : Platform := still calm ∅.

(** Three lines of a log, and the record the second module makes of the
    last one. *)
Definition sample_lines : list string :=
  [perf_line "Login" "120ms";
   perf_line "Page Navigation" "800ms";
   perf_line "API GET /users" "95ms"].

Definition sample_record : TeardownFocused.PerfRecord :=
  {| TeardownFocused.testName := Js.JStr "API GET /users";
     TeardownFocused.type := TeardownFocused.apiResponse;
     TeardownFocused.duration := Js.of_Z 95;
     TeardownFocused.timestamp := Some (Js.JStr "t") |}.

(** Three screenshots on disk, the copy of the second one refused. *)
Definition refusing_platform : Platform := still refuse_second ∅.


(** A complete environment on the calm platform. *)
Definition ready_platform : Platform := still calm env_ok.

(** Every request answered but the reading of files, which finds none. *)
Definition unreadable (R : Type) (rq : Sys R) : Err + R :=
  match rq in Sys R return Err + R with
  | ReadFile _ => inl (mkErr "ENOENT: no such file or directory" "ENOENT")
  | other => calm _ other
  end.

Definition blank_platform : Platform := still unreadable ∅.

(** An initialised API helper with no header set, and two cookies. *)
Definition fresh_api : ApiHeaders.State := ApiHeaders.mkState ∅ true.

Definition session_cookies : list ApiHeaders.Cookie :=
  [ApiHeaders.mkCookie "orangehrm" "abc123"; ApiHeaders.mkCookie "theme" "dark"].

(** A record whose duration did not parse. *)
Definition unparsed_record : TeardownFocused.PerfRecord :=
  {| TeardownFocused.testName := Js.JStr "Login";
     TeardownFocused.type := TeardownFocused.pageLoad;
     TeardownFocused.duration := Js.NaN;
     TeardownFocused.timestamp := Some (Js.JStr "t") |}.

(** A complete environment with a timeout of zero. *)
Definition zero_timeout_platform : Platform :=
  still calm (<["TIMEOUT" := "0"]> env_ok).

(** The manager as its constructor leaves it with nothing set in the
    environment. *)
Definition default_state : ConfigManager.State :=
  ConfigManager.mkState (ConfigManager.loadConfiguration plain_platform) ∅.

End Lab.


(* ===================================================================== *)
(** ** The JavaScript primitives on small inputs *)
(* ===================================================================== *)

Example parseInt_plain : Js.parseInt "5000" = Js.of_Z 5000.
Proof. reflexivity. Qed.

Example parseInt_suffix : Js.parseInt " 42ms" = Js.of_Z 42.
Proof. reflexivity. Qed.

Example parseInt_hex : Js.parseInt "0x1f" = Js.of_Z 31.
Proof. reflexivity. Qed.

Example parseInt_none : Js.parseInt "fast" = Js.NaN.
Proof. reflexivity. Qed.

Example split_lines : Js.split "010"%char ("a" +:+ String "010"%char "b") = ["a"; "b"].
Proof. reflexivity. Qed.

Example join_names : Js.join ", " ["BASE_URL"; "PASSWORD"] = "BASE_URL, PASSWORD".
Proof. reflexivity. Qed.

(* ===================================================================== *)
(** ** Laws of the effect model *)
(* ===================================================================== *)

Module Laws.
Import Eff Trace.

Section WithPlatform.
Context {P : Platform}.

Lemma result_bind {A B} (m : M P A) (k : A -> M P B) w :
  result ((m ≫= k) w) =
  match result (m w) with
  | Ok a => result (k a (world (m w)))
  | Throw e => Throw e
  end.
Proof.
  unfold mbind, M_bind, bind. destruct (result (m w)); reflexivity.
Qed.

Lemma events_bind {A B} (m : M P A) (k : A -> M P B) w :
  events ((m ≫= k) w) =
  match result (m w) with
  | Ok a => events (m w) ++ events (k a (world (m w)))
  | Throw e => events (m w)
  end.
Proof.
  unfold mbind, M_bind, bind. destruct (result (m w)); reflexivity.
Qed.

Lemma world_bind {A B} (m : M P A) (k : A -> M P B) w :
  world ((m ≫= k) w) =
  match result (m w) with
  | Ok a => world (k a (world (m w)))
  | Throw e => world (m w)
  end.
Proof.
  unfold mbind, M_bind, bind. destruct (result (m w)); reflexivity.
Qed.

Lemma result_try {A} (m : M P A) (h : Err -> M P A) w :
  result (try_catch m h w) =
  match result (m w) with
  | Ok a => Ok a
  | Throw e => result (h e (world (m w)))
  end.
Proof.
  unfold try_catch. destruct (result (m w)) eqn:E; simpl; congruence.
Qed.

Lemma events_try {A} (m : M P A) (h : Err -> M P A) w :
  events (try_catch m h w) =
  match result (m w) with
  | Ok a => events (m w)
  | Throw e => events (m w) ++ events (h e (world (m w)))
  end.
Proof.
  unfold try_catch. destruct (result (m w)); reflexivity.
Qed.

Lemma world_try {A} (m : M P A) (h : Err -> M P A) w :
  world (try_catch m h w) =
  match result (m w) with
  | Ok a => world (m w)
  | Throw e => world (h e (world (m w)))
  end.
Proof.
  unfold try_catch. destruct (result (m w)); reflexivity.
Qed.

Lemma result_fn {A} name (m : M P A) w : result (fn name m w) = result (m w).
Proof. reflexivity. Qed.

Lemma events_fn {A} name (m : M P A) w :
  events (fn name m w) = EvCall name :: events (m w).
Proof. reflexivity. Qed.

Lemma world_fn {A} name (m : M P A) w : world (fn name m w) = world (m w).
Proof. reflexivity. Qed.

Lemma result_log_then {B} lvl msg (k : M P B) w :
  result ((log lvl msg ;; k) w) = result (k w).
Proof. reflexivity. Qed.

Lemma events_log_then {B} lvl msg (k : M P B) w :
  events ((log lvl msg ;; k) w) = EvLog lvl msg :: events (k w).
Proof. reflexivity. Qed.

Lemma world_log_then {B} lvl msg (k : M P B) w :
  world ((log lvl msg ;; k) w) = world (k w).
Proof. reflexivity. Qed.

(** What a catch clause that only logs does with an exception: the entry
    is appended and the computation returns. *)
Lemma caught_then_logged (body : M P unit) (lvl : Level) (msg : string) w e :
  result (body w) = Throw e ->
  result (try_catch body (fun _ => log lvl msg) w) = Ok tt /\
  events (try_catch body (fun _ => log lvl msg) w) = events (body w) ++ [EvLog lvl msg].
Proof.
  intros H. rewrite result_try, events_try, H. split; reflexivity.
Qed.

(** *** Computations that cannot throw *)

Lemma returns_ret {A} (a : A) : returns (mret a : M P A).
Proof. intros w. exists a. reflexivity. Qed.

Lemma returns_log lvl msg : returns (log lvl msg : M P unit).
Proof. intros w. exists tt. reflexivity. Qed.

Lemma returns_now : returns (Date_now : M P Z).
Proof. intros w. eexists. reflexivity. Qed.

Lemma returns_delay ms : returns (delay ms : M P unit).
Proof. intros w. exists tt. reflexivity. Qed.

Lemma returns_bind {A B} (m : M P A) (k : A -> M P B) :
  returns m -> (forall a, returns (k a)) -> returns (m ≫= k).
Proof.
  intros Hm Hk w. rewrite result_bind.
  destruct (Hm w) as [a ->]. apply Hk.
Qed.

Lemma returns_try {A} (m : M P A) (h : Err -> M P A) :
  (forall e, returns (h e)) -> returns (try_catch m h).
Proof.
  intros Hh w. rewrite result_try.
  destruct (result (m w)) as [a|e]; [exists a; reflexivity | apply Hh].
Qed.

Lemma returns_catch_value {A} (m : M P A) (d : A) : returns (catch_value m d).
Proof. apply returns_try. intros e. apply returns_ret. Qed.

Lemma returns_fn {A} name (m : M P A) : returns m -> returns (fn name m).
Proof. intros Hm w. destruct (Hm w) as [a Ha]. exists a. exact Ha. Qed.

Lemma returns_when (c : bool) (m : M P unit) : returns m -> returns (when c m).
Proof. intros Hm. destruct c; [exact Hm | apply returns_ret]. Qed.

Lemma returns_for_of {A} (xs : list A) (body : A -> M P unit) :
  (forall x, returns (body x)) -> returns (for_of xs body).
Proof.
  intros Hb. induction xs as [|x xs IH]; simpl.
  - apply returns_ret.
  - apply returns_bind; [apply Hb | intros _; exact IH].
Qed.

Lemma returns_unit (m : M P unit) w : returns m -> result (m w) = Ok tt.
Proof. intros Hm. destruct (Hm w) as [[] H]. exact H. Qed.

(** *** Which functions a computation enters *)

Lemma calls_app evs1 evs2 : calls (evs1 ++ evs2) = calls evs1 ++ calls evs2.
Proof. apply omap_app. Qed.

Lemma entered_app names evs1 evs2 :
  entered names (evs1 ++ evs2) = entered names evs1 ++ entered names evs2.
Proof. unfold entered. rewrite calls_app. apply List.filter_app. Qed.

Lemma entered_call names name evs :
  entered names (EvCall name :: evs) =
  if mem names name then name :: entered names evs else entered names evs.
Proof. reflexivity. Qed.

Lemma entered_log names lvl msg evs :
  entered names (EvLog lvl msg :: evs) = entered names evs.
Proof. reflexivity. Qed.

Lemma entered_fn {A} names name (m : M P A) w :
  entered names (events (fn name m w)) =
  if mem names name then name :: entered names (events (m w))
  else entered names (events (m w)).
Proof. reflexivity. Qed.

Lemma silent_ret {A} names (a : A) : silent names (mret a : M P A).
Proof. intros w. reflexivity. Qed.

Lemma silent_throw {A} names e : silent names (throw e : M P A).
Proof. intros w. reflexivity. Qed.

Lemma silent_log names lvl msg : silent names (log lvl msg : M P unit).
Proof. intros w. reflexivity. Qed.

Lemma silent_now names : silent names (Date_now : M P Z).
Proof. intros w. reflexivity. Qed.

Lemma silent_delay names ms : silent names (delay ms : M P unit).
Proof. intros w. reflexivity. Qed.

Lemma silent_request {R} names (rq : Sys R) : silent names (request rq : M P R).
Proof.
  intros w. unfold request. destruct (sys P R rq w) as [w' [e|r]]; reflexivity.
Qed.

Lemma silent_bind {A B} names (m : M P A) (k : A -> M P B) :
  silent names m -> (forall a, silent names (k a)) -> silent names (m ≫= k).
Proof.
  intros Hm Hk w. rewrite events_bind.
  destruct (result (m w)) as [a|e]; [| apply Hm].
  rewrite entered_app, Hm, Hk. reflexivity.
Qed.

Lemma silent_try {A} names (m : M P A) (h : Err -> M P A) :
  silent names m -> (forall e, silent names (h e)) -> silent names (try_catch m h).
Proof.
  intros Hm Hh w. rewrite events_try.
  destruct (result (m w)) as [a|e]; [apply Hm |].
  rewrite entered_app, Hm, Hh. reflexivity.
Qed.

Lemma silent_catch_value {A} names (m : M P A) (d : A) :
  silent names m -> silent names (catch_value m d).
Proof. intros Hm. apply silent_try; [exact Hm | intros e; apply silent_ret]. Qed.

Lemma silent_fn {A} names name (m : M P A) :
  mem names name = false -> silent names m -> silent names (fn name m).
Proof. intros Hn Hm w. rewrite entered_fn, Hn. apply Hm. Qed.

Lemma silent_when names (c : bool) (m : M P unit) :
  silent names m -> silent names (when c m).
Proof. intros Hm. destruct c; [exact Hm | apply silent_ret]. Qed.

Lemma silent_for_of {A} names (xs : list A) (body : A -> M P unit) :
  (forall x, silent names (body x)) -> silent names (for_of xs body).
Proof.
  intros Hb. induction xs as [|x xs IH]; simpl.
  - apply silent_ret.
  - apply silent_bind; [apply Hb | intros _; exact IH].
Qed.

(** A named function whose body enters nothing of interest is entered
    once. *)
Lemma entered_once {A} names name (m : M P A) w :
  mem names name = true -> silent names m ->
  entered names (events (fn name m w)) = [name].
Proof. intros Hn Hm. rewrite entered_fn, Hn, Hm. reflexivity. Qed.

End WithPlatform.

Create HintDb silent discriminated.
Create HintDb returns discriminated.

Ltac quiet_step :=
  lazymatch goal with
  | |- silent _ (mret _) => apply silent_ret
  | |- silent _ (throw _) => apply silent_throw
  | |- silent _ (log _ _) => apply silent_log
  | |- silent _ Date_now => apply silent_now
  | |- silent _ (delay _) => apply silent_delay
  | |- silent _ (request _) => apply silent_request
  | |- silent _ (catch_value _ _) => apply silent_catch_value
  | |- silent _ (mbind _ _) => apply silent_bind; [| intros ?]
  | |- silent _ (try_catch _ _) => apply silent_try; [| intros ?]
  | |- silent _ (for_of _ _) => apply silent_for_of; intros ?
  | |- silent _ (when _ _) => apply silent_when
  | |- silent _ (fn _ _) => apply silent_fn; [reflexivity |]
  | |- silent _ (if ?c then _ else _) => destruct c
  | |- silent _ (match ?x with _ => _ end) => destruct x
  | |- silent _ _ => solve [auto with silent]
  end.

(** Settles [silent names m] for a body built from the combinators. *)
Ltac quiet := cbv zeta; repeat quiet_step.

Ltac returns_step :=
  lazymatch goal with
  | |- returns (mret _) => apply returns_ret
  | |- returns (log _ _) => apply returns_log
  | |- returns Date_now => apply returns_now
  | |- returns (delay _) => apply returns_delay
  | |- returns (catch_value _ _) => apply returns_catch_value
  | |- returns (try_catch _ _) => apply returns_try; intros ?
  | |- returns (mbind _ _) => apply returns_bind; [| intros ?]
  | |- returns (for_of _ _) => apply returns_for_of; intros ?
  | |- returns (when _ _) => apply returns_when
  | |- returns (fn _ _) => apply returns_fn
  | |- returns (if ?c then _ else _) => destruct c
  | |- returns (match ?x with _ => _ end) => destruct x
  | |- returns _ => solve [auto with returns]
  end.

(** Settles [returns m] for a body whose exceptions are all caught. *)
Ltac total := cbv zeta; repeat returns_step.

End Laws.

(* ===================================================================== *)
(** ** Steps awaited one after the other *)
(* ===================================================================== *)

Module Pipeline.
Import Eff Trace Laws.

Section WithPlatform.
Context {P : Platform}.

Lemma failing_bound (ps : list (M P unit)) w n :
  failing ps w = Some n -> (n < length ps)%nat.
Proof.
  revert w n. induction ps as [|p ps IH]; intros w n; simpl; [discriminate |].
  destruct (result (p w)).
  - destruct (failing ps (world (p w))) as [m|] eqn:E; simpl; [| discriminate].
    intros [= <-]. apply IH in E. lia.
  - intros [= <-]. lia.
Qed.

(** When no step throws, the block runs every step and then its tail. *)
Lemma seq_completes (ps : list (M P unit)) (k : M P unit) w :
  failing ps w = None ->
  result (seq ps k w) = result (k (after ps w)) /\
  events (seq ps k w) = events_of ps w ++ events (k (after ps w)) /\
  world (seq ps k w) = world (k (after ps w)).
Proof.
  revert w. induction ps as [|p ps IH]; intros w; simpl.
  - intros _. repeat split; reflexivity.
  - rewrite result_bind, events_bind, world_bind.
    destruct (result (p w)) as [[]|e]; [| discriminate].
    destruct (failing ps (world (p w))) eqn:E; simpl; [discriminate |].
    intros _. destruct (IH _ E) as (Hr & He & Hw).
    rewrite Hr, He, Hw, app_assoc. repeat split; reflexivity.
Qed.

(** When step [n] is the first to throw, the block stops there: it
    throws the same error, and nothing after step [n] leaves an event. *)
Lemma seq_aborts (ps : list (M P unit)) (k : M P unit) w n :
  failing ps w = Some n ->
  exists p e,
    ps !! n = Some p /\
    failing (take n ps) w = None /\
    result (p (after (take n ps) w)) = Throw e /\
    result (seq ps k w) = Throw e /\
    events (seq ps k w) = events_of (take (S n) ps) w /\
    world (seq ps k w) = after (take (S n) ps) w.
Proof.
  revert w n. induction ps as [|p ps IH]; intros w n; simpl; [discriminate |].
  rewrite result_bind, events_bind, world_bind.
  destruct (result (p w)) as [[]|e] eqn:Ep.
  - destruct (failing ps (world (p w))) as [m|] eqn:E; simpl; [| discriminate].
    intros [= <-]. destruct (IH _ _ E) as (q & e & Hq & Hn & Hthrow & Hr & He & Hw).
    exists q, e. simpl. rewrite Ep, Hn. simpl.
    rewrite Hr, He, Hw. repeat split; try reflexivity; assumption.
  - intros [= <-]. exists p, e. simpl. rewrite app_nil_r.
    repeat split; try reflexivity; assumption.
Qed.

(** A block throws only if one of its steps or its tail does. *)
Lemma seq_throws (ps : list (M P unit)) (k : M P unit) w e :
  returns k -> result (seq ps k w) = Throw e -> exists n, failing ps w = Some n.
Proof.
  intros Hk H. destruct (failing ps w) as [n|] eqn:E; [exists n; reflexivity |].
  destruct (seq_completes ps k w E) as (Hr & _).
  rewrite Hr, (returns_unit k _ Hk) in H. discriminate.
Qed.

Lemma failing_none_returns (ps : list (M P unit)) w :
  Forall returns ps -> failing ps w = None.
Proof.
  intros H. revert w. induction H as [|p ps Hp _ IH]; intros w; simpl; [reflexivity |].
  rewrite (returns_unit p w Hp), IH. reflexivity.
Qed.

(** Steps that are each entered once are entered in order. *)
Lemma entered_events_of names (nps : list (string * M P unit)) w :
  Forall (fun np => forall w, entered names (events (np.2 w)) = [np.1]) nps ->
  entered names (events_of (map snd nps) w) = map fst nps.
Proof.
  intros H. revert w. induction H as [|[n p] nps Hp _ IH]; intros w; simpl; [reflexivity |].
  rewrite entered_app, IH. simpl in Hp. rewrite Hp. reflexivity.
Qed.

Lemma silent_events_of names (ps : list (M P unit)) w :
  Forall (silent names) ps -> entered names (events_of ps w) = [].
Proof.
  intros H. revert w. induction H as [|p ps Hp _ IH]; intros w; simpl; [reflexivity |].
  rewrite entered_app, IH, Hp. reflexivity.
Qed.

End WithPlatform.
End Pipeline.

(* ===================================================================== *)
(** ** The setup pipeline *)
(* ===================================================================== *)

Module SetupFacts.
Import Eff Trace Laws Pipeline Setup.

Section WithPlatform.
Context (P : Platform).

Lemma silent_cleanFiles ns dir patterns n files :
  silent ns (cleanFiles P dir patterns n files).
Proof.
  revert n. induction files as [|file rest IH]; intros n; simpl.
  - apply silent_ret.
  - destruct (shouldClean patterns file); [| apply IH].
    apply silent_bind; [apply silent_request | intros _; apply IH].
Qed.

Lemma silent_checkEndpoints ns acc es : silent ns (checkEndpoints P acc es).
Proof.
  revert acc. induction es as [|endpoint rest IH]; intros acc; simpl.
  - apply silent_ret.
  - apply silent_bind; [| intros a; apply IH].
    unfold checkEndpoint. quiet.
Qed.

Hint Resolve silent_cleanFiles silent_checkEndpoints : silent.

Ltac open_phases :=
  unfold createDirectories, validateEnvironment, setupBrowsers,
    verifyTestSiteAvailability, verifyApplicationEndpoints, cleanPreviousArtifacts,
    setupPerformanceMonitoring, setupTestEnvironmentInfo, emergencyCleanup.

(** Each phase is entered once when it runs and enters no other phase. *)
Lemma setup_phases_entered_once :
  Forall (fun np => forall w, entered (names P) (events (np.2 w)) = [np.1]) (phases P).
Proof.
  unfold phases.
  repeat (apply Forall_cons; split;
          [intros w; cbn [fst snd]; open_phases; apply entered_once; [reflexivity | quiet] |]).
  constructor.
Qed.

(** No phase calls the emergency cleanup. *)
Lemma setup_phases_no_cleanup : Forall (silent ["emergencyCleanup"]) (steps P).
Proof.
  unfold steps, phases. cbn [map fst snd].
  repeat (apply Forall_cons; split; [open_phases; quiet |]).
  constructor.
Qed.

Lemma cleanup_no_phase : silent (names P) (emergencyCleanup P).
Proof. open_phases. quiet. Qed.

Lemma emergencyCleanup_returns : returns (emergencyCleanup P).
Proof. open_phases. total. Qed.

Lemma cleanup_entered_once w :
  entered ["emergencyCleanup"] (events (emergencyCleanup P w)) = ["emergencyCleanup"].
Proof. open_phases. apply entered_once; [reflexivity | quiet]. Qed.

Lemma setup_globalSetup_shape :
  globalSetup P =
  fn "globalSetup" (log Info "🚀 Starting Global Setup" ;; try_catch (block P) (handler P)).
Proof. unfold block, steps, phases. cbn [map snd seq]. reflexivity. Qed.

Lemma handler_rethrows error w : result (handler P error w) = Throw error.
Proof.
  unfold handler. rewrite result_log_then, result_bind.
  rewrite (returns_unit _ _ emergencyCleanup_returns). reflexivity.
Qed.

Lemma handler_events error w :
  events (handler P error w) =
  EvLog Error "❌ Global Setup Failed" :: events (emergencyCleanup P w).
Proof.
  unfold handler. rewrite events_log_then, events_bind.
  rewrite (returns_unit _ _ emergencyCleanup_returns). simpl.
  rewrite app_nil_r. reflexivity.
Qed.

(** A run in which no phase throws. *)
Lemma setup_run_completes w :
  failing (steps P) w = None ->
  result (globalSetup P w) = Ok tt /\
  events (globalSetup P w) =
    EvCall "globalSetup" :: EvLog Info "🚀 Starting Global Setup" ::
    events_of (steps P) w ++ [EvLog Info "✅ Global Setup Completed Successfully"].
Proof.
  intros H. destruct (seq_completes (steps P) (log Info "✅ Global Setup Completed Successfully") w H)
    as (Hr & He & _).
  rewrite setup_globalSetup_shape, result_fn, events_fn.
  rewrite result_log_then, events_log_then.
  rewrite result_try, events_try. unfold block. rewrite Hr, He.
  split; reflexivity.
Qed.

(** A run in which phase [n] is the first to throw. *)
Lemma setup_run_aborts w n :
  failing (steps P) w = Some n ->
  exists p e,
    steps P !! n = Some p /\
    result (p (after (take n (steps P)) w)) = Throw e /\
    result (globalSetup P w) = Throw e /\
    events (globalSetup P w) =
      EvCall "globalSetup" :: EvLog Info "🚀 Starting Global Setup" ::
      events_of (take (S n) (steps P)) w ++
      EvLog Error "❌ Global Setup Failed" ::
      events (emergencyCleanup P (after (take (S n) (steps P)) w)).
Proof.
  intros H.
  destruct (seq_aborts (steps P) (log Info "✅ Global Setup Completed Successfully") w n H)
    as (p & e & Hp & _ & Hthrow & Hr & He & Hw).
  exists p, e. split; [exact Hp |]. split; [exact Hthrow |].
  rewrite setup_globalSetup_shape, result_fn, events_fn.
  rewrite result_log_then, events_log_then.
  rewrite result_try, events_try. unfold block. rewrite Hr, He, Hw.
  rewrite handler_rethrows, handler_events. split; reflexivity.
Qed.

Lemma entered_prefix w n :
  entered (names P) (events_of (take n (steps P)) w) = take n (names P).
Proof.
  unfold steps, names. rewrite <- !fmap_take.
  apply entered_events_of. apply Forall_take. apply setup_phases_entered_once.
Qed.

Lemma no_cleanup_prefix w n :
  entered ["emergencyCleanup"] (events_of (take n (steps P)) w) = [].
Proof. apply silent_events_of. apply Forall_take. apply setup_phases_no_cleanup. Qed.

End WithPlatform.
End SetupFacts.

(* ===================================================================== *)
(** ** Steps that end with a log entry *)
(* ===================================================================== *)

Module LogLaws.
Import Eff Trace Laws.

Section WithPlatform.
Context {P : Platform}.








End WithPlatform.



End LogLaws.

(* ===================================================================== *)
(** ** The teardown pipelines *)
(* ===================================================================== *)

Module TeardownFullFacts.
Import Eff Trace Laws LogLaws Pipeline TeardownCommon TeardownFull.

Section WithPlatform.
Context (P : Platform).

Lemma silent_checkReports ns reports paths : silent ns (checkReports P reports paths).
Proof.
  revert reports. induction paths as [|reportPath rest IH]; intros reports; simpl.
  - apply silent_ret.
  - apply silent_bind; [quiet | intros a; apply IH].
Qed.

Hint Resolve silent_checkReports : silent.

Ltac open_phases :=
  unfold generateTestExecutionReport, processTestArtifacts, generateAllureReport,
    cleanupTemporaryFiles, archiveLogs, generatePerformanceSummary,
    sendNotifications, cleanupBrowserProcesses, generateFinalSummary, basicCleanup,
    collectTestResults, organizeArtifacts, copyImportantLogs, generateAllureTrends,
    cleanupOldLogFiles, removeIfOld, collectPerformanceData, collectTestSummary,
    sendEmailNotification, sendSlackNotification, sendTeamsNotification,
    checkReportsGenerated, countFiles, exec_quietly, unlink_quietly,
    collectTestResults.


(** Each step catches whatever its body throws. *)
Lemma full_phases_return : Forall returns (steps P).
Proof.
  unfold steps, phases. cbn [map fst snd].
  repeat (apply Forall_cons; split; [open_phases; total |]).
  constructor.
Qed.


Lemma full_phases_no_cleanup : Forall (silent ["basicCleanup"]) (steps P).
Proof.
  unfold steps, phases. cbn [map fst snd].
  repeat (apply Forall_cons; split; [open_phases; quiet |]).
  constructor.
Qed.

Lemma full_globalTeardown_shape :
  globalTeardown P =
  fn "globalTeardown" (
    log Info "🏁 Starting Global Teardown" ;;
    try_catch
      (seq (steps P) (log Info "✅ Global Teardown Completed Successfully"))
      (fun error => log Error "❌ Global Teardown Failed" ;; basicCleanup P)).
Proof. unfold steps, phases. cbn [map snd seq]. reflexivity. Qed.

(** Every run goes through all the steps and reaches the final entry. *)
Lemma full_run_completes w :
  result (globalTeardown P w) = Ok tt /\
  events (globalTeardown P w) =
    EvCall "globalTeardown" :: EvLog Info "🏁 Starting Global Teardown" ::
    events_of (steps P) w ++ [EvLog Info "✅ Global Teardown Completed Successfully"].
Proof.
  pose proof (failing_none_returns (steps P) w full_phases_return) as H.
  destruct (seq_completes (steps P) (log Info "✅ Global Teardown Completed Successfully") w H)
    as (Hr & He & _).
  rewrite full_globalTeardown_shape, result_fn, events_fn.
  rewrite result_log_then, events_log_then.
  rewrite result_try, events_try, Hr, He.
  split; reflexivity.
Qed.


End WithPlatform.
End TeardownFullFacts.

Module TeardownFocusedFacts.
Import Eff Trace Laws LogLaws Pipeline TeardownCommon TeardownFocused.

Section WithPlatform.
Context (P : Platform).

Hint Resolve TeardownFullFacts.silent_checkReports : silent.

Ltac open_phases :=
  unfold processTestArtifacts, cleanupTemporaryFiles, archiveLogs,
    cleanupBrowserProcesses, generateFinalSummary, basicCleanup,
    organizeArtifacts, copyImportantLogs, cleanupOldLogFiles, removeIfOld,
    checkReportsGenerated, countFiles, fileExists, exec_quietly.


(** Each step catches whatever its body throws. *)
Lemma focused_phases_return : Forall returns (steps P).
Proof.
  unfold steps, phases. cbn [map fst snd].
  repeat (apply Forall_cons; split; [open_phases; total |]).
  constructor.
Qed.


Lemma focused_globalTeardown_shape :
  globalTeardown P =
  fn "globalTeardown" (
    log Info "🏁 Starting Global Teardown" ;;
    try_catch
      (seq (steps P) (log Info "✅ Global Teardown Completed Successfully"))
      (fun error => log Error "❌ Global Teardown Failed" ;; basicCleanup P)).
Proof. unfold steps, phases. cbn [map snd seq]. reflexivity. Qed.

(** Every run goes through all the steps and reaches the final entry. *)
Lemma focused_run_completes w :
  result (globalTeardown P w) = Ok tt /\
  events (globalTeardown P w) =
    EvCall "globalTeardown" :: EvLog Info "🏁 Starting Global Teardown" ::
    events_of (steps P) w ++ [EvLog Info "✅ Global Teardown Completed Successfully"].
Proof.
  pose proof (failing_none_returns (steps P) w focused_phases_return) as H.
  destruct (seq_completes (steps P) (log Info "✅ Global Teardown Completed Successfully") w H)
    as (Hr & He & _).
  rewrite focused_globalTeardown_shape, result_fn, events_fn.
  rewrite result_log_then, events_log_then.
  rewrite result_try, events_try, Hr, He.
  split; reflexivity.
Qed.


End WithPlatform.
End TeardownFocusedFacts.

(* ===================================================================== *)
(** ** Claims about the pipelines *)
(* ===================================================================== *)

Section PipelineClaims.
Import Eff Trace Laws Pipeline.

(** C2.  When a phase of the setup pipeline throws, phase [n] being the
    first to do so, the phases after it are not entered, the emergency
    cleanup is entered exactly once, and [globalSetup] throws the very
    error that phase threw. *)
Theorem setup_fail_fast (P : Platform) (w : World P) (n : nat) :
  failing (Setup.steps P) w = Some n ->
  exists name p e,
    Setup.phases P !! n = Some (name, p) /\
    result (p (after (take n (Setup.steps P)) w)) = Throw e /\
    result (Setup.globalSetup P w) = Throw e /\
    entered (Setup.names P) (events (Setup.globalSetup P w)) =
      take (S n) (Setup.names P) /\
    count_call "emergencyCleanup" (events (Setup.globalSetup P w)) = 1%nat.
Proof.
  intros Hf.
  destruct (SetupFacts.setup_run_aborts P w n Hf) as (p & e & Hp & Hpe & Hr & He).
  unfold Setup.steps in Hp. rewrite list_lookup_fmap in Hp.
  destruct (Setup.phases P !! n) as [[name q]|] eqn:Hq; [| discriminate].
  simpl in Hp. injection Hp as ->.
  exists name, p, e. repeat split; try assumption; try reflexivity.
  - rewrite He, entered_call.
    change (mem (Setup.names P) "globalSetup") with false. cbv iota.
    rewrite entered_log, entered_app, entered_log.
    rewrite SetupFacts.entered_prefix, SetupFacts.cleanup_no_phase.
    apply app_nil_r.
  - unfold count_call. rewrite He, entered_call.
    change (mem ["emergencyCleanup"] "globalSetup") with false. cbv iota.
    rewrite entered_log, entered_app, entered_log.
    rewrite SetupFacts.no_cleanup_prefix, SetupFacts.cleanup_entered_once.
    reflexivity.
Qed.

(** C9.  The emergency cleanup returns whatever the file system does, and
    so [globalSetup] ends as its [try] block ends: when a phase throws,
    the error raised is that one. *)
Theorem emergency_cleanup_never_throws (P : Platform) :
  (forall w, result (Setup.emergencyCleanup P w) = Ok tt) /\
  (forall w, result (Setup.globalSetup P w) = result (Setup.block P w)).
Proof.
  split.
  - intros w. apply returns_unit. apply SetupFacts.emergencyCleanup_returns.
  - intros w.
    rewrite SetupFacts.setup_globalSetup_shape, result_fn, result_log_then, result_try.
    destruct (result (Setup.block P w)) as [[]|e]; [reflexivity |].
    apply SetupFacts.handler_rethrows.
Qed.


End PipelineClaims.

Section LedgerClaims.
Import Eff Trace Laws Pipeline.

(** Witness of C2: a setup run whose second phase is the first to
    throw. *)
Lemma setup_fail_fast_witness :
  failing (Setup.steps Lab.missing_platform) tt = Some 1%nat /\
  exists name p e,
    Setup.phases Lab.missing_platform !! 1%nat = Some (name, p) /\
    result (p (after (take 1 (Setup.steps Lab.missing_platform)) tt)) = Throw e /\
    result (Setup.globalSetup Lab.missing_platform tt) = Throw e /\
    entered (Setup.names Lab.missing_platform)
            (events (Setup.globalSetup Lab.missing_platform tt)) =
      take 2 (Setup.names Lab.missing_platform) /\
    count_call "emergencyCleanup" (events (Setup.globalSetup Lab.missing_platform tt)) = 1%nat.
Proof.
  split.
  - vm_compute. reflexivity.
  - apply (setup_fail_fast Lab.missing_platform tt 1).
    vm_compute. reflexivity.
Defined.



End LedgerClaims.

(* ===================================================================== *)
(** ** The configuration manager: overrides *)
(* ===================================================================== *)

Section OverrideClaims.
Import Eff ConfigManager.

(** C10.  After [set(K, v)], [get(K)] returns [v]; after
    [clearOverrides()], [get(K)] is again what the loaded configuration
    holds for [K]; and neither call changes the loaded configuration. *)
Theorem override_then_clear (this : State) (key : string) (value : Value) :
  get (set this key value) key = Ok value /\
  get (clearOverrides (set this key value)) key =
    match field (environment (config this)) key with
    | Some configValue => Ok configValue
    | None => Throw (new_Error ("Configuration value for '" +:+ key +:+ "' is not defined"))
    end /\
  config (set this key value) = config this /\
  config (clearOverrides (set this key value)) = config this.
Proof.
  split; [| split; [| split; reflexivity]].
  - unfold get, set. simpl. rewrite lookup_insert_eq. reflexivity.
  - unfold get, clearOverrides. simpl. rewrite lookup_empty. reflexivity.
Qed.

(** X10.  An override of one key leaves the other keys as they were. *)
Lemma override_other_key (this : State) (key other : string) (value : Value) :
  key <> other -> get (set this key value) other = get this other.
Proof.
  intros Hne. unfold get, set. simpl. rewrite lookup_insert_ne by exact Hne. reflexivity.
Qed.

End OverrideClaims.

(* ===================================================================== *)
(** ** Performance records *)
(* ===================================================================== *)

Module PerfFacts.
Import Eff.

(** [startsWith] and [includes] say what their names say. *)
Lemma startsWith_spec (p s : string) :
  Js.startsWith p s = true <-> exists post, s = p +:+ post.
Proof.
  revert s. induction p as [|a p IH]; intros s; simpl.
  - split; [intros _; exists s; reflexivity | reflexivity].
  - destruct s as [|b s].
    + split; [discriminate | intros [post H]; discriminate].
    + destruct (Ascii.eqb_spec a b) as [->|Hne].
      * rewrite IH. split; intros [post H]; exists post.
        -- rewrite H. reflexivity.
        -- simpl in H. injection H as H. exact H.
      * split; [discriminate |].
        intros [post H]. simpl in H. injection H as H _. congruence.
Qed.

Lemma includes_spec (s p : string) :
  Js.includes s p = true <-> exists pre post, s = pre +:+ p +:+ post.
Proof.
  induction s as [|c s IH]; simpl.
  - rewrite orb_false_r, startsWith_spec. split.
    + intros [post H]. exists EmptyString, post. exact H.
    + intros (pre & post & H). destruct pre; simpl in H; [exists post; exact H | discriminate].
  - rewrite orb_true_iff, startsWith_spec, IH. split.
    + intros [[post H] | (pre & post & H)].
      * exists EmptyString, post. exact H.
      * exists (String c pre), post. simpl. rewrite H. reflexivity.
    + intros (pre & post & H). destruct pre as [|c' pre]; simpl in H.
      * left. exists post. exact H.
      * right. injection H as _ H. exists pre, post. exact H.
Qed.

Lemma is_Some_if {A} (b : bool) (x : A) :
  is_Some (if b then Some x else None) <-> b = true.
Proof.
  destruct b; split; intros H; try reflexivity; try discriminate H.
  - eexists; reflexivity.
  - destruct H as [y Hy]; discriminate Hy.
Qed.

Lemma is_Some_none {A} : is_Some (@None A) <-> False.
Proof. split; [intros [y Hy]; discriminate Hy | contradiction]. Qed.

Section WithPlatform.
Context (P : Platform).

(** Every record of the list comes from one line of the log. *)
Lemma focused_collected (lines : list string) (r : TeardownFocused.PerfRecord) :
  In r (TeardownFocused.collectLines P lines) ->
  exists line, In line lines /\ TeardownFocused.parseEntry P line = Some r.
Proof.
  unfold TeardownFocused.collectLines.
  assert (G : forall acc,
             In r (fold_left
                     (fun performanceData line =>
                        if Js.includes line TeardownCommon.performance_marker then
                          match TeardownFocused.parseEntry P line with
                          | Some entry => performanceData ++ [entry]
                          | None => performanceData
                          end
                        else performanceData) lines acc) ->
             In r acc \/
             exists line, In line lines /\ TeardownFocused.parseEntry P line = Some r).
  { induction lines as [|line rest IH]; intros acc; simpl; [tauto |].
    intros H. apply IH in H. destruct H as [H | (l & Hl & Hp)].
    - destruct (Js.includes line TeardownCommon.performance_marker); [| tauto].
      destruct (TeardownFocused.parseEntry P line) as [entry|] eqn:E; [| tauto].
      apply in_app_or in H. destruct H as [H | [<- | []]]; [tauto |].
      right. exists line. tauto.
    - right. exists l. tauto. }
  intros H. destruct (G [] H) as [[] | H']. exact H'.
Qed.

Lemma full_collected (lines : list string) (r : TeardownFull.PerfRecord) :
  In r (TeardownFull.collectLines P lines) ->
  exists line, In line lines /\ TeardownFull.parseEntry P line = Some r.
Proof.
  unfold TeardownFull.collectLines.
  assert (G : forall acc,
             In r (fold_left
                     (fun performanceData line =>
                        if Js.includes line TeardownCommon.performance_marker then
                          match TeardownFull.parseEntry P line with
                          | Some entry => performanceData ++ [entry]
                          | None => performanceData
                          end
                        else performanceData) lines acc) ->
             In r acc \/
             exists line, In line lines /\ TeardownFull.parseEntry P line = Some r).
  { induction lines as [|line rest IH]; intros acc; simpl; [tauto |].
    intros H. apply IH in H. destruct H as [H | (l & Hl & Hp)].
    - destruct (Js.includes line TeardownCommon.performance_marker); [| tauto].
      destruct (TeardownFull.parseEntry P line) as [entry|] eqn:E; [| tauto].
      apply in_app_or in H. destruct H as [H | [<- | []]]; [tauto |].
      right. exists line. tauto.
    - right. exists l. tauto. }
  intros H. destruct (G [] H) as [[] | H']. exact H'.
Qed.

(** The second module tags a record by its label alone. *)
Lemma focused_entry_type (line : string) (r : TeardownFocused.PerfRecord) (label : string) :
  TeardownFocused.parseEntry P line = Some r ->
  TeardownFocused.testName r = Js.JStr label ->
  TeardownFocused.type r =
    if Js.includes label "API" then TeardownFocused.apiResponse else TeardownFocused.pageLoad.
Proof.
  unfold TeardownFocused.parseEntry. intros H Hl.
  destruct (JSON_parse P line) as [logEntry|]; [| discriminate]. simpl in H.
  destruct (Js.member logEntry "action") as [action|]; [| discriminate]. simpl in H.
  destruct (Js.member logEntry "duration") as [rawDuration|]; [| discriminate]. simpl in H.
  destruct (Js.member logEntry "timestamp") as [time|]; [| discriminate]. simpl in H.
  destruct (Js.truthy action && Js.truthy rawDuration); [| discriminate].
  destruct action as [a|]; [| discriminate]. simpl in H.
  destruct rawDuration as [d|]; [| discriminate]. simpl in H.
  destruct (Js.replace_method d "ms" EmptyString) as [stripped|]; [| discriminate]. simpl in H.
  destruct (Js.includes_method a "API") as [api|] eqn:Ea; [| discriminate]. simpl in H.
  injection H as <-. simpl in Hl. subst a. simpl in Ea. injection Ea as <-.
  reflexivity.
Qed.

(** The first module gives a record an API timing by the same test, and a
    page-load timing only under the one label [Page Navigation]. *)
Lemma full_entry_timings (line : string) (r : TeardownFull.PerfRecord) (label : string) :
  TeardownFull.parseEntry P line = Some r ->
  TeardownFull.testName r = Js.JStr label ->
  (is_Some (TeardownFull.apiResponse r) <-> Js.includes label "API" = true) /\
  (is_Some (TeardownFull.pageLoad r) <-> label = "Page Navigation").
Proof.
  unfold TeardownFull.parseEntry. intros H Hl.
  destruct (JSON_parse P line) as [logEntry|]; [| discriminate]. simpl in H.
  destruct (Js.member logEntry "action") as [action|]; [| discriminate]. simpl in H.
  destruct (Js.member logEntry "duration") as [duration|]; [| discriminate]. simpl in H.
  destruct (Js.member logEntry "timestamp") as [time|]; [| discriminate]. simpl in H.
  destruct (TeardownFull.action_includes_API action) as [api|] eqn:Ea; [| discriminate].
  simpl in H. injection H as <-. simpl in *.
  destruct action as [[| b | n | s | items | members]|]; simpl in *;
    try discriminate.
  - (* null *)
    injection Ea as <-. injection Hl as <-.
    rewrite is_Some_none. split; split; intros H; try discriminate H; contradiction.
  - (* a string *)
    injection Ea as <-. rewrite !is_Some_if, String.eqb_eq.
    destruct s as [|c s]; simpl in Hl; injection Hl as <-.
    + split; split; intros H; discriminate H.
    + split; reflexivity.
  - (* undefined *)
    injection Ea as <-. injection Hl as <-.
    rewrite is_Some_none. split; split; intros H; try discriminate H; contradiction.
Qed.

End WithPlatform.
End PerfFacts.

Section PerformanceClaims.
Import Eff.

(** C5, at the failing input.  With no record at all, the report has
    count 0, both averages 0 and no violation, whatever the thresholds;
    but both maxima are [-Infinity]: [Math.max] of no argument.  An empty
    log file gives no record. *)
Theorem empty_window_report (P : Platform) :
  TeardownFocused.collectLines P (Js.split "010"%char EmptyString) = [] /\
  let report := TeardownFocused.performanceReport P [] in
  TeardownFocused.totalMeasurements report = 0%nat /\
  TeardownFocused.averagePageLoad report = Js.of_Z 0 /\
  TeardownFocused.averageApiResponse report = Js.of_Z 0 /\
  TeardownFocused.violations report = [] /\
  TeardownFocused.slowestPageLoad report = Js.NegInf /\
  TeardownFocused.slowestApiResponse report = Js.NegInf.
Proof. repeat split. Qed.

(** C7, as stated, fails on the first teardown module: a record labelled
    [Login], which does not contain [API], gets no page-load timing
    there, so it counts in neither category. *)
Lemma full_label_in_no_category :
  Js.includes "Login" "API" = false /\
  TeardownFull.collectLines Lab.plain_platform [Lab.perf_line "Login" "120ms"] =
    [ {| TeardownFull.testName := Js.JStr "Login";
         TeardownFull.pageLoad := None;
         TeardownFull.apiResponse := None;
         TeardownFull.timestamp := Some (Js.JStr "t") |} ].
Proof. split; vm_compute; reflexivity. Qed.

(** C7, amended.  In the second teardown module a record with a string
    label is [apiResponse] when the label contains [API] and [pageLoad]
    otherwise.  In the first module a record with a string label carries
    an API timing exactly when the label contains [API], and a page-load
    timing exactly when the label is [Page Navigation]. *)
Theorem category_by_label (P : Platform) (lines : list string) :
  (forall r label,
     In r (TeardownFocused.collectLines P lines) ->
     TeardownFocused.testName r = Js.JStr label ->
     TeardownFocused.type r =
       if Js.includes label "API"
       then TeardownFocused.apiResponse else TeardownFocused.pageLoad) /\
  (forall r label,
     In r (TeardownFull.collectLines P lines) ->
     TeardownFull.testName r = Js.JStr label ->
     (is_Some (TeardownFull.apiResponse r) <-> Js.includes label "API" = true) /\
     (is_Some (TeardownFull.pageLoad r) <-> label = "Page Navigation")).
Proof.
  split.
  - intros r label Hin Hl.
    destruct (PerfFacts.focused_collected P lines r Hin) as (line & _ & Hp).
    exact (PerfFacts.focused_entry_type P line r label Hp Hl).
  - intros r label Hin Hl.
    destruct (PerfFacts.full_collected P lines r Hin) as (line & _ & Hp).
    exact (PerfFacts.full_entry_timings P line r label Hp Hl).
Qed.

(** Witness of C7: the record of an API line. *)
Lemma category_by_label_witness :
  In Lab.sample_record (TeardownFocused.collectLines Lab.plain_platform Lab.sample_lines) /\
  TeardownFocused.testName Lab.sample_record = Js.JStr "API GET /users" /\
  TeardownFocused.type Lab.sample_record =
    if Js.includes "API GET /users" "API"
    then TeardownFocused.apiResponse else TeardownFocused.pageLoad.
Proof.
  assert (Hin : In Lab.sample_record
                   (TeardownFocused.collectLines Lab.plain_platform Lab.sample_lines)).
  { vm_compute. right. right. left. reflexivity. }
  split; [exact Hin |]. split; [reflexivity |].
  exact (proj1 (category_by_label Lab.plain_platform Lab.sample_lines)
               Lab.sample_record "API GET /users" Hin eq_refl).
Defined.

End PerformanceClaims.

(* ===================================================================== *)
(** ** Collecting artifacts *)
(* ===================================================================== *)

Module ArtifactFacts.
Import Eff Trace Laws.

Section WithPlatform.
Context (P : Platform).

Lemma copies_app evs1 evs2 : copies (evs1 ++ evs2) = copies evs1 ++ copies evs2.
Proof. apply omap_app. Qed.

Lemma failed_copies_app evs1 evs2 :
  failed_copies (evs1 ++ evs2) = failed_copies evs1 ++ failed_copies evs2.
Proof. apply omap_app. Qed.

Lemma copy_failure_logs_app evs1 evs2 :
  copy_failure_logs (evs1 ++ evs2) = copy_failure_logs evs1 ++ copy_failure_logs evs2.
Proof. apply omap_app. Qed.

(** A turn of the loop returns; it attempts the copy when the file
    matches; a copy that throws is followed by its debug entry. *)
Lemma copy_or_log_turn pattern sourceDir targetDir file w :
  let o := TeardownFocused.copy_or_log P pattern sourceDir targetDir file w in
  result o = Ok tt /\
  copies (events o) =
    (if TeardownFocused.test pattern file
     then [(path_join sourceDir file, path_join targetDir file)] else []) /\
  length (failed_copies (events o)) = length (copy_failure_logs (events o)).
Proof.
  unfold TeardownFocused.copy_or_log. destruct (TeardownFocused.test pattern file); [| repeat split].
  unfold try_catch, request.
  destruct (sys P unit (CopyFile (path_join sourceDir file) (path_join targetDir file)) w)
    as [w' [e|[]]]; repeat split.
Qed.

(** The whole loop: every matched file is attempted, in order, whichever
    copies throw. *)
Lemma copy_loop pattern sourceDir targetDir files w :
  let o := for_of files (TeardownFocused.copy_or_log P pattern sourceDir targetDir) w in
  result o = Ok tt /\
  copies (events o) =
    map (fun file => (path_join sourceDir file, path_join targetDir file))
        (List.filter (TeardownFocused.test pattern) files) /\
  length (failed_copies (events o)) = length (copy_failure_logs (events o)).
Proof.
  revert w. induction files as [|file rest IH]; intros w; [repeat split |].
  cbn [for_of]. cbv zeta.
  rewrite result_bind, events_bind.
  destruct (copy_or_log_turn pattern sourceDir targetDir file w) as (Hr & Hc & Hf).
  rewrite Hr.
  destruct (IH (world (TeardownFocused.copy_or_log P pattern sourceDir targetDir file w)))
    as (Hr' & Hc' & Hf').
  split; [exact Hr' |].
  rewrite copies_app, failed_copies_app, copy_failure_logs_app, !length_app, Hc, Hc', Hf, Hf'.
  split; [| reflexivity].
  cbn [List.filter]. destruct (TeardownFocused.test pattern file); reflexivity.
Qed.

(** X7.  The second module: once the target directory is there, every
    file of the listing that matches the pattern is attempted, in order,
    and each copy that throws is logged, without ending the batch. *)
Lemma focused_copies_every_match (artifactType : string) (pattern : list string) w w1 :
  sys P unit (Mkdir (path_join (in_root P "test-artifacts") artifactType)) w = (w1, inr tt) ->
  let o := TeardownFocused.organizeArtifacts P artifactType pattern w in
  result o = Ok tt /\
  copies (events o) =
    map (fun file => (path_join artifactType file,
                      path_join (path_join (in_root P "test-artifacts") artifactType) file))
        (List.filter (TeardownFocused.test pattern) (TeardownFocused.listing P artifactType w1)) /\
  length (failed_copies (events o)) = length (copy_failure_logs (events o)).
Proof.
  intros Hmk. cbv zeta.
  set (targetDir := path_join (in_root P "test-artifacts") artifactType) in *.
  assert (Hshape :
    TeardownFocused.organizeArtifacts P artifactType pattern =
    fn "organizeArtifacts" (
      try_catch
        (request (Mkdir targetDir) ;;
         files ← catch_value (request (Readdir artifactType)) [] ;
         for_of files (TeardownFocused.copy_or_log P pattern artifactType targetDir) ;;
         log Debug ("Organized " +:+ artifactType +:+ " artifacts"))
        (fun error => log Warn ("Failed to organize " +:+ artifactType +:+ " artifacts"))))
    by reflexivity.
  rewrite Hshape, result_fn, events_fn, result_try, events_try.
  rewrite result_bind, events_bind, world_bind.
  assert (Hm : request (Mkdir targetDir) w = mkOut w1 [EvSys (Mkdir targetDir) true] (Ok tt)).
  { unfold request. rewrite Hmk. reflexivity. }
  rewrite Hm. cbn [result events world].
  rewrite result_bind, events_bind, world_bind.
  assert (Hl : exists w2 ok,
             catch_value (request (Readdir artifactType)) [] w1 =
             mkOut w2 [EvSys (Readdir artifactType) ok]
                   (Ok (TeardownFocused.listing P artifactType w1))).
  { unfold catch_value, try_catch, request, TeardownFocused.listing.
    destruct (sys P _ (Readdir artifactType) w1) as [w2 [e|files]];
      eexists _, _; reflexivity. }
  destruct Hl as (w2 & ok & ->). cbn [result events world].
  rewrite result_bind, events_bind.
  destruct (copy_loop pattern artifactType targetDir (TeardownFocused.listing P artifactType w1) w2)
    as (Hr & Hc & Hf).
  rewrite Hr. cbn [result events log].
  split; [reflexivity |].
  cbn [app].
  assert (E : forall l,
             EvCall "organizeArtifacts" :: EvSys (Mkdir targetDir) true ::
             EvSys (Readdir artifactType) ok :: l =
             [EvCall "organizeArtifacts"; EvSys (Mkdir targetDir) true;
              EvSys (Readdir artifactType) ok] ++ l) by reflexivity.
  rewrite E.
  rewrite !copies_app, !failed_copies_app, !copy_failure_logs_app, !length_app, Hc, Hf.
  split.
  - cbn [copies omap app]. apply app_nil_r.
  - cbn [failed_copies omap length].
    replace (copy_failure_logs
               [EvLog Debug ("Organized " +:+ artifactType +:+ " artifacts")])
      with (@nil string) by reflexivity.
    reflexivity.
Qed.

End WithPlatform.
End ArtifactFacts.

Section ArtifactClaims.
Import Eff Trace.

(** C8, at the failing input.  All three files match the pattern of the
    first module.  Its [organizeArtifacts] attempts the first two copies
    and, the second having thrown, never attempts the third: the batch
    ends in the outer catch clause.  On the same disk the second module
    attempts all three and logs the one that threw. *)
Theorem first_module_copy_failure_ends_batch :
  List.filter (TeardownFull.matches "**/*.png") ["a.png"; "b.png"; "c.png"] =
    ["a.png"; "b.png"; "c.png"] /\
  copies (events (TeardownFull.organizeArtifacts Lab.refusing_platform
                    "screenshots" "**/*.png" tt)) =
    [("screenshots/a.png", "/repo/test-artifacts/screenshots/a.png");
     ("screenshots/b.png", "/repo/test-artifacts/screenshots/b.png")] /\
  last (events (TeardownFull.organizeArtifacts Lab.refusing_platform
                  "screenshots" "**/*.png" tt)) =
    Some (EvLog Warn "Failed to organize screenshots artifacts") /\
  copies (events (TeardownFocused.organizeArtifacts Lab.refusing_platform
                    "screenshots" ["png"; "jpg"; "jpeg"] tt)) =
    [("screenshots/a.png", "/repo/test-artifacts/screenshots/a.png");
     ("screenshots/b.png", "/repo/test-artifacts/screenshots/b.png");
     ("screenshots/c.png", "/repo/test-artifacts/screenshots/c.png")] /\
  copy_failure_logs (events (TeardownFocused.organizeArtifacts Lab.refusing_platform
                               "screenshots" ["png"; "jpg"; "jpeg"] tt)) =
    ["Failed to copy b.png"].
Proof. repeat split; vm_compute; reflexivity. Qed.

End ArtifactClaims.

(* ===================================================================== *)
(** ** Validation of the environment *)
(* ===================================================================== *)

Module ValidationFacts.
Import Eff Trace Laws.

(** A loop that pushes one message per element that fails a test. *)
Lemma fold_push {A B} (p : A -> bool) (f : A -> B) (xs : list A) (acc : list B) :
  fold_left (fun out x => if p x then out ++ [f x] else out) xs acc =
  acc ++ map f (List.filter p xs).
Proof.
  revert acc. induction xs as [|x xs IH]; intros acc; simpl.
  - symmetry. apply app_nil_r.
  - rewrite IH. destruct (p x); simpl; [rewrite <- app_assoc |]; reflexivity.
Qed.

Lemma push_if {B} (c : bool) (acc : list B) (m : B) :
  (if c then acc ++ [m] else acc) = acc ++ (if c then [m] else []).
Proof. destruct c; [reflexivity | symmetry; apply app_nil_r]. Qed.

Section WithPlatform.
Context (P : Platform).

(** [validateConfiguration] runs every check: its list of errors is the
    missing keys, then the URL findings, then the numeric findings. *)
Lemma errors_described (c : ConfigManager.FrameworkConfig) :
  ConfigManager.errors P c =
  map ConfigManager.missing_message (ConfigManager.missing c) ++
  ConfigManager.url_faults P c ++ ConfigManager.numeric_faults c.
Proof.
  unfold ConfigManager.errors, ConfigManager.url_faults, ConfigManager.numeric_faults,
    ConfigManager.missing.
  cbv zeta.
  rewrite (fold_push
             (fun k => negb (ConfigManager.truthy
                               (ConfigManager.field (ConfigManager.environment c) k)))
             ConfigManager.missing_message).
  rewrite !push_if, <- !app_assoc. reflexivity.
Qed.

Lemma append_cancel (p a b : string) : p +:+ a = p +:+ b -> a = b.
Proof.
  induction p as [|c p IH]; simpl; intros H; [exact H |].
  injection H as H. apply IH. exact H.
Qed.

Lemma missing_message_inj : Inj (=) (=) ConfigManager.missing_message.
Proof. intros a b H. exact (append_cancel _ a b H). Qed.


(** [missingVars] holds the required variables that are unset or empty. *)
Lemma missingVars_described :
  Setup.missingVars P =
  List.filter (fun k => negb (Js.truthy_opt (env P !! k))) Setup.requiredEnvVars.
Proof.
  unfold Setup.missingVars.
  rewrite (fold_push (fun k => negb (Js.truthy_opt (Setup.getenv P k))) id).
  rewrite map_id. reflexivity.
Qed.










End WithPlatform.
End ValidationFacts.

Section ValidationClaims.
Import Eff Trace ValidationFacts.



End ValidationClaims.

(* ===================================================================== *)
(** ** Waiting for an endpoint *)
(* ===================================================================== *)

Module ProbeFacts.
Import Eff Trace Laws ApiHelper.

Section WithPlatform.
Context (P : Platform) (endpoint : string).


Lemma bind_now {A} (k : Z -> M P A) w : (Date_now ≫= k) w = k (now P w) w.
Proof.
  unfold mbind, M_bind, bind, Date_now. cbn [result world events].
  destruct (k (now P w) w). reflexivity.
Qed.

Lemma bind_delay {A} ms (k : unit -> M P A) w :
  (delay ms ≫= k) w = k tt (sleep P ms w).
Proof.
  unfold mbind, M_bind, bind, delay. cbn [result world events].
  destruct (k tt (sleep P ms w)). reflexivity.
Qed.

Lemma bind_out {A B} (m : M P A) (k : A -> M P B) w w1 evs a :
  m w = mkOut w1 evs (Ok a) ->
  (m ≫= k) w =
  mkOut (world (k a w1)) (evs ++ events (k a w1)) (result (k a w1)).
Proof.
  intros H. unfold mbind, M_bind, bind. rewrite H. reflexivity.
Qed.





Lemma waitForEndpoint_run fuel timeout interval w :
  result (waitForEndpoint P fuel endpoint timeout interval w) =
    result (poll P fuel endpoint (now P w) timeout interval w) /\
  polls (events (waitForEndpoint P fuel endpoint timeout interval w)) =
    polls (events (poll P fuel endpoint (now P w) timeout interval w)).
Proof.
  unfold waitForEndpoint. rewrite result_fn, events_fn, bind_now.
  rewrite result_log_then, events_log_then. split; reflexivity.
Qed.

End WithPlatform.
End ProbeFacts.

Section ProbeClaims.
Import Eff Trace ProbeFacts ApiHelper.




End ProbeClaims.

(* ===================================================================== *)
(** ** Reading requests off a run *)
(* ===================================================================== *)

Module TraceLaws.
Import Eff Trace Laws.

Section WithPlatform.
Context {P : Platform}.

Lemma for_of_seen {A B} (obs : Event -> option B) (g : A -> list B)
    (xs : list A) (body : A -> M P unit) :
  (forall x w, result (body x w) = Ok tt /\ omap obs (events (body x w)) = g x) ->
  forall w,
    result (for_of xs body w) = Ok tt /\
    omap obs (events (for_of xs body w)) = flat_map g xs.
Proof.
  intros Hb. induction xs as [|x xs IH]; intros w; [split; reflexivity |].
  cbn [for_of flat_map]. rewrite result_bind, events_bind.
  destruct (Hb x w) as [-> Hx]. destruct (IH (world (body x w))) as [Hr Hs].
  split; [exact Hr |]. rewrite omap_app, Hx, Hs. reflexivity.
Qed.

(** A loop, whether it runs to its end or not: what holds of all that an
    observer reads off each turn holds of all it reads off the loop. *)
Lemma for_of_all {A B} (obs : Event -> option B) (good : B -> Prop)
    (xs : list A) (body : A -> M P unit) :
  (forall x w, In x xs -> Forall good (omap obs (events (body x w)))) ->
  forall w, Forall good (omap obs (events (for_of xs body w))).
Proof.
  induction xs as [|x xs IH]; intros Hb w; [constructor |].
  cbn [for_of]. rewrite events_bind.
  destruct (result (body x w)); [| apply Hb; left; reflexivity].
  rewrite omap_app. apply Forall_app. split.
  - apply Hb. left. reflexivity.
  - apply IH. intros y w' Hy. apply Hb. right. exact Hy.
Qed.

Lemma seen_skip {B} (obs : Event -> option B) ev evs :
  obs ev = None -> omap obs (ev :: evs) = omap obs evs.
Proof. intros H. simpl. rewrite H. reflexivity. Qed.

Lemma seen_keep {B} (obs : Event -> option B) ev evs b :
  obs ev = Some b -> omap obs (ev :: evs) = b :: omap obs evs.
Proof. intros H. simpl. rewrite H. reflexivity. Qed.

Lemma seen_log {B} (obs : Event -> option B) lvl msg (w : World P) :
  omap obs (events (log lvl msg w)) = omap obs [EvLog lvl msg].
Proof. reflexivity. Qed.

Lemma flat_map_singleton {A B} (h : A -> B) (xs : list A) :
  flat_map (fun x => [h x]) xs = map h xs.
Proof. induction xs as [|x xs IH]; simpl; [| rewrite IH]; reflexivity. Qed.

(** A request leaves one event, whatever the answer. *)
Lemma request_out {R} (rq : Sys R) (w : World P) :
  exists w' b r, request rq w = mkOut w' [EvSys rq b] r.
Proof.
  unfold request. destruct (sys P R rq w) as [w' [e|r]]; eexists _, _, _; reflexivity.
Qed.

(** [request.catch(() => {})]: one event, and no exception. *)
Lemma request_quietly (rq : Sys unit) (w : World P) :
  exists b,
    events (try_catch (request rq) (fun _ => mret tt) w) = [EvSys rq b] /\
    result (try_catch (request rq) (fun _ => mret tt) w) = Ok tt.
Proof.
  unfold try_catch, request.
  destruct (sys P unit rq w) as [w' [e|[]]]; eexists; split; reflexivity.
Qed.

(** *** Computations that show nothing to an observer *)

Lemma mute_ret {A B} (obs : Event -> option B) (a : A) : mute obs (mret a : M P A).
Proof. intros w. reflexivity. Qed.

Lemma mute_throw {A B} (obs : Event -> option B) e : mute obs (throw e : M P A).
Proof. intros w. reflexivity. Qed.

Lemma mute_now {B} (obs : Event -> option B) : mute obs (Date_now : M P Z).
Proof. intros w. reflexivity. Qed.

Lemma mute_log {B} (obs : Event -> option B) lvl msg :
  obs (EvLog lvl msg) = None -> mute obs (log lvl msg : M P unit).
Proof. intros H w. cbn. rewrite H. reflexivity. Qed.

Lemma mute_request {R B} (obs : Event -> option B) (rq : Sys R) :
  (forall b, obs (EvSys rq b) = None) -> mute obs (request rq : M P R).
Proof.
  intros H w. unfold request.
  destruct (sys P R rq w) as [w' [e|r]]; cbn; rewrite H; reflexivity.
Qed.

Lemma mute_bind {A C B} (obs : Event -> option B) (m : M P A) (k : A -> M P C) :
  mute obs m -> (forall a, mute obs (k a)) -> mute obs (m ≫= k).
Proof.
  intros Hm Hk w. rewrite events_bind.
  destruct (result (m w)) as [a|e]; [| apply Hm].
  rewrite omap_app, Hm, Hk. reflexivity.
Qed.

Lemma mute_try {A B} (obs : Event -> option B) (m : M P A) (h : Err -> M P A) :
  mute obs m -> (forall e, mute obs (h e)) -> mute obs (try_catch m h).
Proof.
  intros Hm Hh w. rewrite events_try.
  destruct (result (m w)) as [a|e]; [apply Hm |].
  rewrite omap_app, Hm, Hh. reflexivity.
Qed.

Lemma mute_catch_value {A B} (obs : Event -> option B) (m : M P A) (d : A) :
  mute obs m -> mute obs (catch_value m d).
Proof. intros Hm. apply mute_try; [exact Hm | intros e; apply mute_ret]. Qed.

Lemma mute_fn {A B} (obs : Event -> option B) name (m : M P A) :
  obs (EvCall name) = None -> mute obs m -> mute obs (fn name m).
Proof. intros Hn Hm w. rewrite events_fn, seen_skip by exact Hn. apply Hm. Qed.

Lemma mute_when {B} (obs : Event -> option B) (c : bool) (m : M P unit) :
  mute obs m -> mute obs (when c m).
Proof. intros Hm. destruct c; [exact Hm | apply mute_ret]. Qed.

Lemma mute_for_of {A B} (obs : Event -> option B) (xs : list A) (body : A -> M P unit) :
  (forall x, mute obs (body x)) -> mute obs (for_of xs body).
Proof.
  intros Hb. induction xs as [|x xs IH]; simpl.
  - apply mute_ret.
  - apply mute_bind; [apply Hb | intros _; exact IH].
Qed.

(** After a step that returns and shows nothing, the observer reads what
    the rest shows. *)
Lemma seen_after {A C B} (obs : Event -> option B) (m : M P A) (k : A -> M P C) l :
  returns m -> mute obs m ->
  (forall a w', omap obs (events (k a w')) = l) ->
  forall w, omap obs (events ((m ≫= k) w)) = l.
Proof.
  intros Hr Hm Hk w. rewrite events_bind.
  destruct (Hr w) as [a ->]. rewrite omap_app, Hm, Hk. reflexivity.
Qed.

(** A catch clause that only logs adds nothing an observer of requests
    reads. *)
Lemma seen_try_log {B} (obs : Event -> option B) (m : M P unit) lvl msg w :
  obs (EvLog lvl msg) = None ->
  omap obs (events (try_catch m (fun _ => log lvl msg) w)) = omap obs (events (m w)).
Proof.
  intros H. rewrite events_try. destruct (result (m w)); [reflexivity |].
  rewrite omap_app, seen_log, seen_skip by exact H. apply app_nil_r.
Qed.

End WithPlatform.

Create HintDb mute discriminated.

Ltac hush_step :=
  lazymatch goal with
  | |- mute _ (mret _) => apply mute_ret
  | |- mute _ (throw _) => apply mute_throw
  | |- mute _ (log _ _) => apply mute_log; reflexivity
  | |- mute _ Date_now => apply mute_now
  | |- mute _ (request _) => apply mute_request; intros ?; reflexivity
  | |- mute _ (catch_value _ _) => apply mute_catch_value
  | |- mute _ (mbind _ _) => apply mute_bind; [| intros ?]
  | |- mute _ (try_catch _ _) => apply mute_try; [| intros ?]
  | |- mute _ (for_of _ _) => apply mute_for_of; intros ?
  | |- mute _ (when _ _) => apply mute_when
  | |- mute _ (fn _ _) => apply mute_fn; [reflexivity |]
  | |- mute _ (if ?c then _ else _) => destruct c
  | |- mute _ (match ?x with _ => _ end) => destruct x
  | |- mute _ _ => solve [auto with mute]
  end.

(** Settles [mute obs m] for a body built from the combinators. *)
Ltac hush := cbv zeta; repeat hush_step.

End TraceLaws.

(* ===================================================================== *)
(** ** What the setup touches on disk *)
(* ===================================================================== *)

Module DiskFacts.
Import Eff Trace Laws TraceLaws Setup.

Section WithPlatform.
Context (P : Platform).

(** One turn of the loop of [createDirectories]. *)
Lemma mkdir_turn (dir : string) (w : World P) :
  let o := try_catch
             (request (Mkdir dir) ;; log Debug ("Directory created: " +:+ dir))
             (fun error =>
                when (negb (String.eqb (code error) "EEXIST"))
                     (log Warn ("Failed to create directory " +:+ dir))) w in
  result o = Ok tt /\ mkdirs (events o) = [dir].
Proof.
  unfold try_catch, mbind, M_bind, bind, request.
  destruct (sys P unit (Mkdir dir) w) as [w' [e|[]]]; cbn.
  - destruct (negb (String.eqb (code e) "EEXIST")); split; reflexivity.
  - split; reflexivity.
Qed.

(** One turn of each loop of [emergencyCleanup]. *)
Lemma rmdir_turn (dir : string) (w : World P) :
  let o := try_catch (request (Rmdir dir)) (fun _ => mret tt) w in
  (result o = Ok tt /\ rmdirs (events o) = [dir]) /\
  (result o = Ok tt /\ unlinks (events o) = []).
Proof.
  cbv zeta. destruct (request_quietly (Rmdir dir) w) as (b & -> & ->).
  repeat split; reflexivity.
Qed.

Lemma unlink_turn (file : string) (w : World P) :
  let o := try_catch (request (Unlink file)) (fun _ => mret tt) w in
  (result o = Ok tt /\ rmdirs (events o) = []) /\
  (result o = Ok tt /\ unlinks (events o) = [file]).
Proof.
  cbv zeta. destruct (request_quietly (Unlink file) w) as (b & -> & ->).
  repeat split; reflexivity.
Qed.

(** The files one directory of [artifactDirs] may lose. *)
Lemma cleanFiles_scope dir patterns n files (w : World P) :
  Forall (fun p => exists file, p = path_join dir file /\ shouldClean patterns file = true)
         (unlinks (events (cleanFiles P dir patterns n files w))).
Proof.
  revert n w. induction files as [|file rest IH]; intros n w; cbn [cleanFiles].
  - constructor.
  - destruct (shouldClean patterns file) eqn:E; [| apply IH].
    rewrite events_bind.
    destruct (request_out (Unlink (path_join dir file)) w) as (w' & b & r & ->).
    cbn [result events world].
    destruct r as [[]|e].
    + constructor; [exists file; split; [reflexivity | exact E] |]. apply IH.
    + constructor; [| constructor]. exists file. split; [reflexivity | exact E].
Qed.

End WithPlatform.
End DiskFacts.

Section DiskClaims.
Import Eff Trace Laws Pipeline TraceLaws Setup DiskFacts.

(** X1.  [createDirectories] never throws, and asks for each of the
    eleven directories, in the order of the list, whichever of the
    [mkdir] calls fail. *)
Theorem createDirectories_attempts_all (P : Platform) (w : World P) :
  result (createDirectories P w) = Ok tt /\
  mkdirs (events (createDirectories P w)) = directories.
Proof.
  unfold createDirectories.
  rewrite result_fn, events_fn, result_log_then, events_log_then.
  rewrite result_bind, events_bind.
  lazymatch goal with
  | |- context [for_of directories ?body] =>
      destruct (for_of_seen
                  (fun ev => match ev with @EvSys _ (Mkdir dir) _ => Some dir | _ => None end)
                  (fun dir => [dir]) directories body
                  (fun dir w => mkdir_turn P dir w) w) as [Hr Hs]
  end.
  rewrite Hr. split; [reflexivity |].
  unfold mkdirs in *. rewrite !seen_skip by reflexivity.
  rewrite omap_app, Hs, seen_log, seen_skip by reflexivity.
  rewrite flat_map_singleton, map_id. apply app_nil_r.
Qed.

(** X2.  Whatever the file system answers, [emergencyCleanup] asks to
    remove the three temporary directories and the two partial files,
    each once and in that order, and nothing else. *)
Theorem emergencyCleanup_scope (P : Platform) (w : World P) :
  rmdirs (events (emergencyCleanup P w)) = ["temp"; ".temp"; "tmp"] /\
  unlinks (events (emergencyCleanup P w)) =
    ["test-results/environment-info.json"; "config/performance.json"].
Proof.
  unfold emergencyCleanup. cbv zeta.
  rewrite events_fn, events_log_then, events_try.
  rewrite result_bind, events_bind.
  set (dirs := ["temp"; ".temp"; "tmp"]).
  set (files := ["test-results/environment-info.json"; "config/performance.json"]).
  set (loop1 := for_of dirs _).
  set (loop2 := for_of files _).
  assert (H1 : forall w, result (loop1 w) = Ok tt /\ rmdirs (events (loop1 w)) = dirs).
  { intros w0. unfold loop1, rmdirs.
    rewrite <- (map_id dirs) at 3. rewrite <- flat_map_singleton.
    apply for_of_seen. intros dir w1. apply rmdir_turn. }
  assert (H1' : forall w, unlinks (events (loop1 w)) = []).
  { intros w0. unfold loop1, unlinks.
    apply (for_of_seen _ (fun _ => []) dirs). intros dir w1. apply rmdir_turn. }
  assert (H2 : forall w, result (loop2 w) = Ok tt /\ unlinks (events (loop2 w)) = files).
  { intros w0. unfold loop2, unlinks.
    rewrite <- (map_id files) at 3. rewrite <- flat_map_singleton.
    apply for_of_seen. intros file w1. apply unlink_turn. }
  assert (H2' : forall w, rmdirs (events (loop2 w)) = []).
  { intros w0. unfold loop2, rmdirs.
    apply (for_of_seen _ (fun _ => []) files). intros file w1. apply unlink_turn. }
  destruct (H1 w) as [Hr1 Hs1]. rewrite Hr1.
  rewrite result_bind, events_bind.
  destruct (H2 (world (loop1 w))) as [Hr2 Hs2]. rewrite Hr2.
  cbn [result events log].
  unfold rmdirs, unlinks in *.
  rewrite !seen_skip by reflexivity.
  rewrite !omap_app, Hs1, Hs2, H1', H2'.
  split; reflexivity.
Qed.

(** X3.  The emergency cleanup is entered once when [globalSetup] throws
    and not at all when it returns. *)
Theorem emergency_cleanup_iff_failure (P : Platform) (w : World P) :
  count_call "emergencyCleanup" (events (globalSetup P w)) =
  match result (globalSetup P w) with
  | Ok _ => 0%nat
  | Throw _ => 1%nat
  end.
Proof.
  unfold count_call.
  destruct (failing (steps P) w) as [n|] eqn:Hf.
  - destruct (SetupFacts.setup_run_aborts P w n Hf) as (p & e & _ & _ & -> & ->).
    rewrite entered_call.
    change (mem ["emergencyCleanup"] "globalSetup") with false. cbv iota.
    rewrite entered_log, entered_app, entered_log.
    rewrite SetupFacts.no_cleanup_prefix, SetupFacts.cleanup_entered_once.
    reflexivity.
  - destruct (SetupFacts.setup_run_completes P w Hf) as [-> ->].
    rewrite entered_call.
    change (mem ["emergencyCleanup"] "globalSetup") with false. cbv iota.
    rewrite entered_log, entered_app.
    rewrite (silent_events_of _ _ _ (SetupFacts.setup_phases_no_cleanup P)).
    reflexivity.
Qed.

(** X5.  [cleanPreviousArtifacts] never throws, and every file it asks
    to delete lies in one of the six artifact directories and matches
    one of the patterns listed for that directory. *)
Theorem cleanPreviousArtifacts_scope (P : Platform) (w : World P) :
  result (cleanPreviousArtifacts P w) = Ok tt /\
  Forall (fun p => exists dir patterns file,
                     In (dir, patterns) artifactDirs /\
                     p = path_join dir file /\
                     shouldClean patterns file = true)
         (unlinks (events (cleanPreviousArtifacts P w))).
Proof.
  split.
  - apply returns_unit. unfold cleanPreviousArtifacts. total.
  - unfold cleanPreviousArtifacts.
    rewrite events_fn, events_log_then. unfold unlinks.
    rewrite !seen_skip by reflexivity. rewrite events_bind.
    assert (Hloop : forall w0,
      Forall (fun p => exists dir patterns file,
                         In (dir, patterns) artifactDirs /\
                         p = path_join dir file /\
                         shouldClean patterns file = true)
             (omap (fun ev => match ev with
                              | @EvSys _ (Unlink file) _ => Some file
                              | _ => None
                              end)
                   (events (for_of artifactDirs (fun '(dir, patterns) =>
                      try_catch
                        (files ← catch_value (request (Readdir dir)) [] ;
                         cleanedInDir ← cleanFiles P dir patterns 0 files ;
                         when (0 <? cleanedInDir)%nat
                              (log Debug ("Cleaned " +:+ pretty cleanedInDir +:+
                                          " files from: " +:+ dir)))
                        (fun error =>
                           log Warn ("Failed to clean artifacts in " +:+ dir))) w0)))).
    { apply for_of_all. intros [dir patterns] w1 Hin.
      rewrite seen_try_log by reflexivity.
      rewrite events_bind.
      assert (Hd : exists w2 files ok,
                 catch_value (request (Readdir dir)) [] w1 =
                 mkOut w2 [EvSys (Readdir dir) ok] (Ok files)).
      { unfold catch_value, try_catch, request.
        destruct (sys P _ (Readdir dir) w1) as [w2 [e|files]]; eexists _, _, _; reflexivity. }
      destruct Hd as (w2 & files & ok & ->). cbn [result events world].
      rewrite omap_app, seen_skip by reflexivity.
      change (omap _ (@nil Event)) with (@nil string). cbn [app].
      rewrite events_bind.
      pose proof (cleanFiles_scope P dir patterns 0 files w2) as Hc. unfold unlinks in Hc.
      assert (Hc' : Forall (fun p => exists dir0 patterns0 file,
                                In (dir0, patterns0) artifactDirs /\
                                p = path_join dir0 file /\
                                shouldClean patterns0 file = true)
                      (omap (fun ev => match ev with
                                       | @EvSys _ (Unlink file) _ => Some file
                                       | _ => None
                                       end)
                            (events (cleanFiles P dir patterns 0 files w2)))).
      { eapply Forall_impl; [exact Hc |]. intros p (file & Hp & Hs).
        exists dir, patterns, file. repeat split; assumption. }
      destruct (result (cleanFiles P dir patterns 0 files w2)) as [n|e]; [| exact Hc'].
      rewrite omap_app. apply Forall_app. split; [exact Hc' |].
      destruct (0 <? n)%nat; constructor. }
    destruct (result (for_of artifactDirs _ w)); [| apply Hloop].
    rewrite omap_app. apply Forall_app. split; [apply Hloop | constructor].
Qed.

End DiskClaims.

(* ===================================================================== *)
(** ** What the teardown leaves undone, and what it always does *)
(* ===================================================================== *)

Module SummaryFacts.
Import Eff Trace Laws Pipeline TraceLaws TeardownCommon.

Section WithPlatform.
Context (P : Platform).

Lemma focused_phases_no_cleanup :
  Forall (silent ["basicCleanup"]) (TeardownFocused.steps P).
Proof.
  unfold TeardownFocused.steps, TeardownFocused.phases. cbn [map fst snd].
  repeat (apply Forall_cons; split;
          [unfold TeardownFocused.processTestArtifacts, cleanupTemporaryFiles, archiveLogs,
             cleanupBrowserProcesses, TeardownFocused.generateFinalSummary,
             TeardownFocused.organizeArtifacts, copyImportantLogs, cleanupOldLogFiles,
             removeIfOld, TeardownFocused.checkReportsGenerated, countFiles,
             TeardownFocused.fileExists, exec_quietly;
           pose proof (TeardownFullFacts.silent_checkReports P) as Hc;
           quiet |]).
  constructor.
Qed.

Lemma mute_checkReports reports paths :
  mute (fun ev => match ev with @EvSys _ (WriteFile file) _ => Some file | _ => None end)
       (checkReports P reports paths).
Proof.
  revert reports. induction paths as [|reportPath rest IH]; intros reports; simpl.
  - apply mute_ret.
  - apply mute_bind; [hush | intros a; apply IH].
Qed.

Lemma returns_checkReports reports paths : returns (checkReports P reports paths).
Proof.
  revert reports. induction paths as [|reportPath rest IH]; intros reports; simpl.
  - apply returns_ret.
  - apply returns_bind; [total | intros a; apply IH].
Qed.

Lemma write_then_log file lvl msg (w : World P) :
  writes (events ((request (WriteFile file) ;; log lvl msg) w)) = [file].
Proof.
  unfold mbind, M_bind, bind, request.
  destruct (sys P unit (WriteFile file) w) as [w' [e|[]]]; reflexivity.
Qed.

End WithPlatform.
End SummaryFacts.

Section SummaryClaims.
Import Eff Trace Laws Pipeline TraceLaws TeardownCommon SummaryFacts.

(** X4.  No run of either teardown enters [basicCleanup]: every step
    catches what it throws, so the catch clause of [globalTeardown] is
    never reached. *)
Theorem teardown_never_falls_back (P : Platform) (w : World P) :
  count_call "basicCleanup" (events (TeardownFull.globalTeardown P w)) = 0%nat /\
  count_call "basicCleanup" (events (TeardownFocused.globalTeardown P w)) = 0%nat.
Proof.
  unfold count_call. split.
  - destruct (TeardownFullFacts.full_run_completes P w) as [_ ->].
    rewrite entered_call.
    change (mem ["basicCleanup"] "globalTeardown") with false. cbv iota.
    rewrite entered_log, entered_app.
    rewrite (silent_events_of _ _ _ (TeardownFullFacts.full_phases_no_cleanup P)).
    reflexivity.
  - destruct (TeardownFocusedFacts.focused_run_completes P w) as [_ ->].
    rewrite entered_call.
    change (mem ["basicCleanup"] "globalTeardown") with false. cbv iota.
    rewrite entered_log, entered_app.
    rewrite (silent_events_of _ _ _ (focused_phases_no_cleanup P)).
    reflexivity.
Qed.

(** X6.  In both teardown modules [generateFinalSummary] asks to write
    the final summary file, once, and writes nothing else: none of the
    probes before the write (results, performance data, reports, file
    counts) can keep it from being tried. *)
Theorem final_summary_always_written (P : Platform) (w : World P) :
  writes (events (TeardownFull.generateFinalSummary P w)) =
    [in_root P "test-results/final-summary.json"] /\
  writes (events (TeardownFocused.generateFinalSummary P w)) =
    [in_root P "test-results/final-summary.json"].
Proof.
  pose proof (mute_checkReports P) as Hm.
  pose proof (returns_checkReports P) as Hr.
  split.
  - unfold TeardownFull.generateFinalSummary. cbv zeta.
    rewrite events_fn, events_log_then. unfold writes.
    rewrite !seen_skip by reflexivity.
    rewrite seen_try_log by reflexivity.
    repeat (apply seen_after;
            [unfold TeardownFull.collectTestResults, TeardownFull.collectPerformanceData,
               TeardownFull.checkReportsGenerated, countFiles; total; apply Hr
            |unfold TeardownFull.collectTestResults, TeardownFull.collectPerformanceData,
               TeardownFull.checkReportsGenerated, countFiles; hush; apply Hm
            |intros ? ?]).
    apply write_then_log.
  - unfold TeardownFocused.generateFinalSummary. cbv zeta.
    rewrite events_fn, events_log_then. unfold writes.
    rewrite !seen_skip by reflexivity.
    rewrite seen_try_log by reflexivity.
    repeat (apply seen_after;
            [unfold TeardownFocused.checkReportsGenerated, countFiles,
               TeardownFocused.fileExists; total; apply Hr
            |unfold TeardownFocused.checkReportsGenerated, countFiles,
               TeardownFocused.fileExists; hush; apply Hm
            |intros ? ?]).
    apply write_then_log.
Qed.

(** Witness of X7: the disk with three screenshots, the copy of the
    second one refused. *)
Lemma focused_copies_every_match_witness :
  let o := TeardownFocused.organizeArtifacts Lab.refusing_platform
             "screenshots" ["png"; "jpg"; "jpeg"] tt in
  result o = Ok tt /\
  copies (events o) =
    map (fun file => (path_join "screenshots" file,
                      path_join (path_join (in_root Lab.refusing_platform "test-artifacts")
                                           "screenshots") file))
        (List.filter (TeardownFocused.test ["png"; "jpg"; "jpeg"])
                     (TeardownFocused.listing Lab.refusing_platform "screenshots" tt)) /\
  length (failed_copies (events o)) = length (copy_failure_logs (events o)).
Proof.
  apply (ArtifactFacts.focused_copies_every_match
           Lab.refusing_platform "screenshots" ["png"; "jpg"; "jpeg"] tt tt).
  reflexivity.
Defined.

End SummaryClaims.

(* ===================================================================== *)
(** ** What the two validations accept *)
(* ===================================================================== *)

Module AcceptFacts.
Import Eff Trace Laws.

Lemma truthy_str_spec (s : string) : Js.truthy_str s = true <-> s <> EmptyString.
Proof. destruct s; simpl; split; congruence. Qed.

(** [parseInt] yields an integer or [NaN]. *)
Lemma parseInt_cases (s : string) :
  Js.parseInt s = Js.NaN \/ exists n, Js.parseInt s = Js.of_Z n.
Proof.
  unfold Js.parseInt.
  destruct (match Js.trimStart s with
            | String "-"%char r => (true, r)
            | String "+"%char r => (false, r)
            | _ => (false, Js.trimStart s)
            end) as [neg s2].
  destruct (match s2 with
            | String "0"%char (String "x"%char r)
            | String "0"%char (String "X"%char r) => (16, r)
            | _ => (10, s2)
            end) as [radix s3].
  destruct (Js.digits radix None s3) as [n|]; [right; eexists; reflexivity | left; reflexivity].
Qed.

Lemma lt_of_Z (a b : Z) : Js.lt (Js.of_Z a) (Js.of_Z b) = (a <? b).
Proof.
  unfold Js.lt, Js.of_Z.
  destruct (Z.ltb_spec a b) as [H|H].
  - apply negb_true_iff. apply not_true_is_false. rewrite Qle_bool_iff, <- Zle_Qle. lia.
  - apply negb_false_iff. rewrite Qle_bool_iff, <- Zle_Qle. exact H.
Qed.

(** The test of the numeric loop passes exactly on an integer that is
    not below the minimum. *)
Lemma below_spec (v : string) (min : Z) :
  Setup.below (Js.parseInt v) min = false <->
  exists n, Js.parseInt v = Js.of_Z n /\ min <= n.
Proof.
  destruct (parseInt_cases v) as [-> | [n ->]].
  - split; [discriminate | intros (n & H & _); discriminate H].
  - change (Setup.below (Js.of_Z n) min) with (Js.lt (Js.of_Z n) (Js.of_Z min)).
    rewrite lt_of_Z. split.
    + intros H. exists n. split; [reflexivity |]. apply Z.ltb_ge. exact H.
    + intros (m & Hm & Hle). unfold Js.of_Z in Hm. injection Hm as Hm.
      apply Z.ltb_ge. lia.
Qed.

Section WithPlatform.
Context {P : Platform}.

(** A loop of checks accepts when every check does. *)
Lemma for_of_accepts {A} (ok : A -> Prop) (xs : list A) (body : A -> M P unit) :
  (forall x w, result (body x w) = Ok tt <-> ok x) ->
  forall w, result (for_of xs body w) = Ok tt <-> Forall ok xs.
Proof.
  intros Hb. induction xs as [|x xs IH]; intros w; cbn [for_of].
  - split; [constructor | reflexivity].
  - rewrite result_bind, Forall_cons. specialize (Hb x w).
    destruct (result (body x w)) as [[]|e].
    + rewrite IH. split; [intros H; split; [apply Hb; reflexivity | exact H] | intros [_ H]; exact H].
    + split; [discriminate | intros [H _]; apply Hb in H; discriminate H].
Qed.

Lemma result_then (m k : M P unit) w :
  result ((m ;; k) w) = Ok tt <->
  result (m w) = Ok tt /\ result (k (world (m w))) = Ok tt.
Proof.
  rewrite result_bind. destruct (result (m w)) as [[]|e].
  - split; [intros H; split; [reflexivity | exact H] | intros [_ H]; exact H].
  - split; [discriminate | intros [H _]; discriminate H].
Qed.

Lemma result_check (c : bool) (msg : string) (w : World P) :
  result ((if c then log Error msg ;; throw (new_Error msg) else mret tt) w) = Ok tt <->
  c = false.
Proof. destruct c; split; intros H; try reflexivity; discriminate H. Qed.

End WithPlatform.
(** What [validateEnvironment] accepts, variable by variable. *)
Lemma accepts_iff (P : Platform) (w : World P) :
  result (Setup.validateEnvironment P w) = Ok tt <->
  Forall (fun k => Js.truthy_opt (env P !! k) = true) Setup.requiredEnvVars /\
  Forall (fun k => forall v, env P !! k = Some v -> v <> EmptyString -> valid_url P v = true)
         ["BASE_URL"; "API_BASE_URL"] /\
  Forall (fun '(k, min) =>
            forall v, env P !! k = Some v -> v <> EmptyString ->
                      exists n, Js.parseInt v = Js.of_Z n /\ min <= n)
         [("TIMEOUT", 1000); ("API_TIMEOUT", 1000); ("WORKERS", 1);
          ("VIEWPORT_WIDTH", 320); ("VIEWPORT_HEIGHT", 240)].
Proof.
  unfold Setup.validateEnvironment.
  rewrite result_fn, result_log_then. cbv zeta.
  rewrite result_then, result_then, result_then.
  rewrite result_check.
  rewrite (for_of_accepts
             (fun '(name, value) =>
                forall v, value = Some v -> v <> EmptyString -> valid_url P v = true)).
  2:{ intros [name [v|]] w0.
      - rewrite result_check. unfold Setup.isValidUrl. split.
        + intros H v' [= <-] Hv. apply truthy_str_spec in Hv. rewrite Hv in H.
          simpl in H. apply negb_false_iff in H. exact H.
        + intros H. destruct (Js.truthy_str v) eqn:Hv; [| reflexivity].
          apply truthy_str_spec in Hv. rewrite (H v eq_refl Hv). reflexivity.
      - split; [intros _ v' H; discriminate H | reflexivity]. }
  rewrite (for_of_accepts
             (fun '(name, value, min) =>
                forall v, value = Some v -> v <> EmptyString ->
                          exists n, Js.parseInt v = Js.of_Z n /\ min <= n)).
  2:{ intros [[name [v|]] min] w0.
      - rewrite result_check. split.
        + intros H v' [= <-] Hv. apply truthy_str_spec in Hv. rewrite Hv in H.
          simpl in H. apply below_spec. exact H.
        + intros H. destruct (Js.truthy_str v) eqn:Hv; [| reflexivity].
          apply truthy_str_spec in Hv. apply below_spec. apply (H v eq_refl Hv).
      - split; [intros _ v' H; discriminate H | reflexivity]. }
  assert (Hmiss : (0 <? length (Setup.missingVars P))%nat = false <->
                  Forall (fun k => Js.truthy_opt (env P !! k) = true) Setup.requiredEnvVars).
  { rewrite ValidationFacts.missingVars_described.
    induction Setup.requiredEnvVars as [|k ks IH]; simpl.
    - split; [constructor | reflexivity].
    - rewrite Forall_cons. destruct (Js.truthy_opt (env P !! k)); simpl.
      + rewrite IH. tauto.
      + split; [discriminate | intros [H _]; discriminate H]. }
  rewrite Hmiss.
  assert (Hlog : forall w0, result (log Info "✅ Environment validation passed" w0 : Out P unit) = Ok tt)
    by reflexivity.
  unfold Setup.urls, Setup.numericVars, Setup.getenv.
  rewrite !Forall_cons, !Forall_nil.
  split.
  - intros (H1 & H2 & H3 & _). repeat split; tauto.
  - intros (H1 & H2 & H3). repeat split; try tauto; apply Hlog.
Qed.

End AcceptFacts.

Module ConfigFacts.
Import Eff ConfigManager.

Lemma append_assoc (a b c : string) : (a +:+ b) +:+ c = a +:+ b +:+ c.
Proof.
  induction a as [|x a IH]; [reflexivity |].
  change (String x ((a +:+ b) +:+ c) = String x (a +:+ b +:+ c)). rewrite IH. reflexivity.
Qed.

(** Containment is transitive. *)
Lemma includes_trans (s big small : string) :
  Js.includes big small = true -> Js.includes s big = true -> Js.includes s small = true.
Proof.
  rewrite !PerfFacts.includes_spec.
  intros (pre' & post' & ->) (pre & post & ->).
  exists (pre +:+ pre'), (post' +:+ post).
  rewrite !append_assoc. reflexivity.
Qed.

Lemma or_absorbs (s big small : string) :
  Js.includes big small = true ->
  Js.includes s small || Js.includes s big = Js.includes s small.
Proof.
  intros H. destruct (Js.includes s small) eqn:E; [reflexivity |].
  destruct (Js.includes s big) eqn:E'; [| reflexivity].
  rewrite (includes_trans s big small H E') in E. discriminate E.
Qed.

Lemma or_default_truthy (o : option string) (d : string) :
  Js.truthy_str d = true -> Js.truthy_str (Js.or_default o d) = true.
Proof.
  intros Hd. unfold Js.or_default. destruct o as [s|]; [| exact Hd].
  destruct (Js.truthy_str s) eqn:E; [exact E | exact Hd].
Qed.

Section WithPlatform.
Context (P : Platform).

(** The defaults of [loadConfiguration] leave no required key empty. *)
Lemma missing_nothing : missing (loadConfiguration P) = [].
Proof.
  unfold missing, requiredVars. cbn [List.filter].
  change (field (environment (loadConfiguration P)) "BASE_URL")
    with (Some (VStr (env_or P "BASE_URL" "https://opensource-demo.orangehrmlive.com"))).
  change (field (environment (loadConfiguration P)) "API_BASE_URL")
    with (Some (VStr (env_or P "API_BASE_URL"
                        "https://opensource-demo.orangehrmlive.com/web/api/v1"))).
  change (field (environment (loadConfiguration P)) "USERNAME")
    with (Some (VStr (env_or P "USERNAME" "Admin"))).
  change (field (environment (loadConfiguration P)) "PASSWORD")
    with (Some (VStr (env_or P "PASSWORD" "admin123"))).
  cbn [truthy]. unfold env_or.
  rewrite !or_default_truthy by reflexivity. reflexivity.
Qed.

End WithPlatform.
End ConfigFacts.

Section ConfigClaims.
Import Eff ConfigManager ConfigFacts.


(** X9.  [getCIProvider] answers Local exactly when [isCI] is false and
    TRAVIS is unset or empty: the two agree but for Travis, which only
    [getCIProvider] knows.  And under CI [getWorkersConfig] is 1 whatever
    WORKERS has been set to, while outside CI it is the value set. *)
Theorem ci_detection (P : Platform) :
  (Setup.getCIProvider P = "Local" <->
   isCI P = false /\ Js.truthy_opt (env P !! "TRAVIS") = false) /\
  (forall this value,
     getWorkersConfig P (set this "WORKERS" value) =
       if isCI P then Ok (VNum (Js.of_Z 1)) else Ok value).
Proof.
  split.
  - unfold Setup.getCIProvider, Setup.getenv, isCI.
    destruct (Js.truthy_opt (env P !! "GITHUB_ACTIONS")),
             (Js.truthy_opt (env P !! "JENKINS_URL")),
             (Js.truthy_opt (env P !! "BUILDKITE")),
             (Js.truthy_opt (env P !! "CIRCLECI")),
             (Js.truthy_opt (env P !! "TRAVIS")),
             (Js.truthy_opt (env P !! "CI"));
      cbn; split; try discriminate; try tauto; intros [H1 H2]; discriminate.
  - intros this value. unfold getWorkersConfig.
    destruct (isCI P); [reflexivity |].
    unfold get, set. cbn [environmentOverrides]. rewrite lookup_insert_eq. reflexivity.
Qed.

(** X11.  The configuration [loadConfiguration] builds never lacks a
    required key, whatever the environment: each has a default that is
    not empty, so validation reports no missing variable for it. *)
Theorem defaults_fill_required_keys (P : Platform) (k : string) :
  ~ In ("Missing required environment variable: " +:+ k)
       (errors P (loadConfiguration P)).
Proof.
  rewrite ValidationFacts.errors_described, missing_nothing.
  cbn [map app]. unfold url_faults, numeric_faults. cbv zeta.
  rewrite !in_app_iff.
  intros [[H | H] | [H | [H | H]]];
    match type of H with
    | In _ (if ?c then _ else _) => destruct c
    end; simpl in H; try contradiction; destruct H as [H | []]; discriminate H.
Qed.

(** X12.  A TIMEOUT that is set and reads as zero or as no number at
    all is not reported by the validation of the configuration manager,
    whose test is skipped for a falsy number, while [validateEnvironment]
    refuses the same environment. *)
Theorem zero_timeout_slips_through (P : Platform) (w : World P) (v : string) :
  env P !! "TIMEOUT" = Some v ->
  v <> EmptyString ->
  Js.truthy_num (Js.parseInt v) = false ->
  ~ In "TIMEOUT must be at least 1000ms" (errors P (loadConfiguration P)) /\
  result (Setup.validateEnvironment P w) <> Ok tt.
Proof.
  intros Hv Hne Hz. split.
  - rewrite ValidationFacts.errors_described, missing_nothing.
    cbn [map app]. unfold url_faults, numeric_faults. cbv zeta.
    assert (Ht : TIMEOUT (environment (loadConfiguration P)) = Js.parseInt v).
    { cbn [loadConfiguration environment TIMEOUT]. unfold env_or. rewrite Hv.
      apply AcceptFacts.truthy_str_spec in Hne. cbn [Js.or_default]. rewrite Hne. reflexivity. }
    rewrite Ht, Hz. cbn [andb app].
    rewrite !in_app_iff.
    intros [[H | H] | [H | H]];
      match type of H with
      | In _ (if ?c then _ else _) => destruct c
      end; simpl in H; try contradiction; destruct H as [H | []]; discriminate H.
  - rewrite AcceptFacts.accepts_iff. intros (_ & _ & H).
    apply Forall_cons in H as [H _]. destruct (H v Hv Hne) as (n & Hn & Hle).
    rewrite Hn in Hz. unfold Js.of_Z, Js.truthy_num in Hz.
    apply negb_false_iff, Qeq_bool_iff in Hz.
    assert (n = 0) by (apply (inject_Z_injective n 0); exact Hz). lia.
Qed.

(** X13.  [getEnvironmentName] goes by the first match among: localhost
    or 127.0.0.1, staging or stg, demo, prod.  The tests for
    opensource-demo and for production never decide, each being implied
    by the test before it. *)
Theorem environment_name_by_substring (this : State) (baseUrl : string) :
  get this "BASE_URL" = Ok (VStr baseUrl) ->
  getEnvironmentName this =
    Ok (if Js.includes baseUrl "localhost" || Js.includes baseUrl "127.0.0.1" then "local"
        else if Js.includes baseUrl "staging" || Js.includes baseUrl "stg" then "staging"
        else if Js.includes baseUrl "demo" then "demo"
        else if Js.includes baseUrl "prod" then "production"
        else "unknown").
Proof.
  intros H. unfold getEnvironmentName. rewrite H.
  rewrite (or_absorbs baseUrl "opensource-demo" "demo") by reflexivity.
  rewrite (or_absorbs baseUrl "production" "prod") by reflexivity.
  reflexivity.
Qed.

(** Witness of X10: two keys of the default configuration. *)
Lemma override_other_key_witness :
  get (set Lab.default_state "TIMEOUT" (VNum (Js.of_Z 5000))) "WORKERS" =
  get Lab.default_state "WORKERS".
Proof.
  apply (override_other_key Lab.default_state "TIMEOUT" "WORKERS" (VNum (Js.of_Z 5000))).
  discriminate.
Defined.

(** Witness of X12: a complete environment with TIMEOUT=0. *)
Lemma zero_timeout_slips_through_witness :
  ~ In "TIMEOUT must be at least 1000ms"
       (errors Lab.zero_timeout_platform (loadConfiguration Lab.zero_timeout_platform)) /\
  result (Setup.validateEnvironment Lab.zero_timeout_platform tt) <> Ok tt.
Proof.
  apply (zero_timeout_slips_through Lab.zero_timeout_platform tt "0").
  - vm_compute. reflexivity.
  - discriminate.
  - reflexivity.
Defined.

(** Witness of X13: the default base URL names the demo environment. *)
Lemma environment_name_by_substring_witness :
  getEnvironmentName Lab.default_state = Ok "demo".
Proof.
  apply (environment_name_by_substring Lab.default_state
           "https://opensource-demo.orangehrmlive.com").
  reflexivity.
Defined.

End ConfigClaims.

(* ===================================================================== *)
(** ** The performance report *)
(* ===================================================================== *)

Module ReportFacts.
Import Eff TeardownCommon.

(** A loop that pushes at most one record per line. *)
Lemma fold_collect {A B} (f : A -> option B) (keep : A -> bool) (xs : list A) (acc : list B) :
  fold_left (fun out x => if keep x then match f x with
                                          | Some y => out ++ [y]
                                          | None => out
                                          end
                          else out) xs acc =
  acc ++ flat_map (fun x => if keep x then match f x with
                                           | Some y => [y]
                                           | None => []
                                           end
                            else []) xs.
Proof.
  revert acc. induction xs as [|x xs IH]; intros acc; simpl.
  - symmetry. apply app_nil_r.
  - rewrite IH. destruct (keep x); [destruct (f x) |]; simpl;
      rewrite <- ?app_assoc; reflexivity.
Qed.

Lemma flat_map_short {A B} (g : A -> list B) (xs : list A) :
  (forall x, (length (g x) <= 1)%nat) -> (length (flat_map g xs) <= length xs)%nat.
Proof.
  intros Hg. induction xs as [|x xs IH]; simpl; [lia |].
  rewrite length_app. specialize (Hg x). lia.
Qed.

(** *** Sums and maxima of durations *)

Lemma add_nan_l (x : Js.num) : Js.add Js.NaN x = Js.NaN.
Proof. reflexivity. Qed.

Lemma add_nan_r (x : Js.num) : Js.add x Js.NaN = Js.NaN.
Proof. destruct x; reflexivity. Qed.

Lemma sum_nan_stays (data : list TeardownFocused.PerfRecord) :
  fold_left (fun acc item => Js.add acc (TeardownFocused.duration item)) data Js.NaN = Js.NaN.
Proof. induction data as [|d data IH]; simpl; [reflexivity | exact IH]. Qed.

Lemma sum_nan (data : list TeardownFocused.PerfRecord) (r : TeardownFocused.PerfRecord) acc :
  In r data -> TeardownFocused.duration r = Js.NaN ->
  fold_left (fun acc item => Js.add acc (TeardownFocused.duration item)) data acc = Js.NaN.
Proof.
  intros Hin Hr. revert acc. induction data as [|d data IH]; intros acc; [destruct Hin |].
  simpl. destruct Hin as [-> | Hin].
  - rewrite Hr, add_nan_r. apply sum_nan_stays.
  - apply IH. exact Hin.
Qed.

Lemma or_zero_not_nan (x : Js.num) : Js.or_zero x <> Js.NaN.
Proof. destruct x; unfold Js.or_zero; simpl; try discriminate. destruct (negb _); discriminate. Qed.

Lemma max2_not_nan (a b : Js.num) : a <> Js.NaN -> b <> Js.NaN -> Js.max2 a b <> Js.NaN.
Proof.
  destruct a, b; simpl; try congruence; try discriminate.
  intros _ _. destruct (Qle_bool q q0); discriminate.
Qed.

Lemma Math_max_not_nan (xs : list Js.num) (acc : Js.num) :
  acc <> Js.NaN -> Forall (fun x => x <> Js.NaN) xs -> fold_left Js.max2 xs acc <> Js.NaN.
Proof.
  intros Ha Hx. revert acc Ha. induction Hx as [|x xs Hx _ IH]; intros acc Ha; simpl.
  - exact Ha.
  - apply IH. apply max2_not_nan; assumption.
Qed.

(** A value other than [-Infinity] met on the way keeps the maximum
    above it. *)
Lemma max2_above (a b : Js.num) :
  a <> Js.NaN -> b <> Js.NaN -> a <> Js.NegInf \/ b <> Js.NegInf ->
  Js.max2 a b <> Js.NegInf.
Proof.
  destruct a, b; simpl; try tauto; try congruence; try discriminate.
  intros _ _ _. destruct (Qle_bool q q0); discriminate.
Qed.

Lemma Math_max_above (xs : list Js.num) (acc : Js.num) :
  acc <> Js.NaN -> Forall (fun x => x <> Js.NaN) xs ->
  acc <> Js.NegInf \/ Exists (fun x => x <> Js.NegInf) xs ->
  fold_left Js.max2 xs acc <> Js.NegInf.
Proof.
  intros Ha Hx. revert acc Ha. induction Hx as [|x xs Hx _ IH]; intros acc Ha H; simpl.
  - destruct H as [H | H]; [exact H | inversion H].
  - apply IH; [apply max2_not_nan; assumption |].
    destruct H as [H | H].
    + left. apply max2_above; tauto.
    + inversion H; subst; [left; apply max2_above; tauto | right; assumption].
Qed.

Lemma gt_not_nan (a b : Js.num) : Js.gt a b = true -> a <> Js.NaN /\ b <> Js.NaN.
Proof. unfold Js.gt, Js.lt. destruct a, b; try discriminate; split; discriminate. Qed.

Section WithPlatform.
Context (P : Platform).

(** The duration of a record of the second module is what [parseInt]
    made of a string. *)
Lemma entry_duration (line : string) (r : TeardownFocused.PerfRecord) :
  TeardownFocused.parseEntry P line = Some r ->
  exists s, TeardownFocused.duration r = Js.parseInt s.
Proof.
  unfold TeardownFocused.parseEntry. intros H.
  destruct (JSON_parse P line) as [logEntry|]; [| discriminate]. simpl in H.
  destruct (Js.member logEntry "action") as [action|]; [| discriminate]. simpl in H.
  destruct (Js.member logEntry "duration") as [rawDuration|]; [| discriminate]. simpl in H.
  destruct (Js.member logEntry "timestamp") as [time|]; [| discriminate]. simpl in H.
  destruct (Js.truthy action && Js.truthy rawDuration); [| discriminate].
  destruct action as [a|]; [| discriminate]. simpl in H.
  destruct rawDuration as [d|]; [| discriminate]. simpl in H.
  destruct (Js.replace_method d "ms" EmptyString) as [stripped|]; [| discriminate]. simpl in H.
  destruct (Js.includes_method a "API") as [api|]; [| discriminate]. simpl in H.
  injection H as <-. exists stripped. reflexivity.
Qed.

Lemma or_zero_parsed (s : string) :
  Js.or_zero (Js.parseInt s) <> Js.NaN /\ Js.or_zero (Js.parseInt s) <> Js.NegInf.
Proof.
  destruct (AcceptFacts.parseInt_cases s) as [-> | [n ->]].
  - split; discriminate.
  - unfold Js.or_zero, Js.of_Z. cbn [Js.truthy_num].
    destruct (negb (Qeq_bool (inject_Z n) 0)); split; discriminate.
Qed.

Lemma focused_collectLines_flat (lines : list string) :
  TeardownFocused.collectLines P lines =
  flat_map (fun line => if Js.includes line performance_marker
                        then match TeardownFocused.parseEntry P line with
                             | Some entry => [entry]
                             | None => []
                             end
                        else []) lines.
Proof.
  unfold TeardownFocused.collectLines.
  rewrite (fold_collect (TeardownFocused.parseEntry P)
                        (fun line => Js.includes line performance_marker)).
  reflexivity.
Qed.

Lemma full_collectLines_flat (lines : list string) :
  TeardownFull.collectLines P lines =
  flat_map (fun line => if Js.includes line performance_marker
                        then match TeardownFull.parseEntry P line with
                             | Some entry => [entry]
                             | None => []
                             end
                        else []) lines.
Proof.
  unfold TeardownFull.collectLines.
  rewrite (fold_collect (TeardownFull.parseEntry P)
                        (fun line => Js.includes line performance_marker)).
  reflexivity.
Qed.

(** The maximum over the records of one category, for records read from
    the log. *)
Lemma slowest_collected (lines : list string) (t : TeardownFocused.Category) :
  Js.Math_max (List.map (fun d => Js.or_zero (TeardownFocused.duration d))
                        (TeardownFocused.of_type t (TeardownFocused.collectLines P lines))) =
    Js.NegInf <->
  TeardownFocused.of_type t (TeardownFocused.collectLines P lines) = [].
Proof.
  split.
  - intros H.
    destruct (TeardownFocused.of_type t (TeardownFocused.collectLines P lines))
      as [|d rest] eqn:E; [reflexivity | exfalso].
    assert (Hall : forall r, In r (d :: rest) ->
                     Js.or_zero (TeardownFocused.duration r) <> Js.NaN /\
                     Js.or_zero (TeardownFocused.duration r) <> Js.NegInf).
    { intros r Hr. rewrite <- E in Hr. apply filter_In in Hr as [Hr _].
      destruct (PerfFacts.focused_collected P lines r Hr) as (line & _ & Hp).
      destruct (entry_duration line r Hp) as [s ->]. apply or_zero_parsed. }
    revert H. unfold Js.Math_max. apply Math_max_above; [discriminate | |].
    + apply List.Forall_forall. intros x Hx. apply in_map_iff in Hx as (r & <- & Hr).
      apply (Hall r Hr).
    + right. cbn [List.map]. apply Exists_cons_hd. apply (Hall d). left. reflexivity.
  - intros ->. reflexivity.
Qed.

End WithPlatform.
End ReportFacts.

Section ReportClaims.
Import Eff TeardownCommon TeardownFocused ReportFacts.

(** X14.  The report of the second teardown module: every record is
    counted in exactly one of the two categories; a violation is a record
    of the input whose duration is a number; with both thresholds
    unreadable there is no violation at all; and neither maximum is ever
    [NaN], whatever the durations are. *)
Theorem report_invariants (P : Platform) (data : list PerfRecord) :
  let report := performanceReport P data in
  totalMeasurements report =
    (length (of_type pageLoad data) + length (of_type apiResponse data))%nat /\
  (forall d, In d (violations report) -> In d data /\ duration d <> Js.NaN) /\
  (pageLoadThreshold report = Js.NaN -> apiResponseThreshold report = Js.NaN ->
   violations report = []) /\
  slowestPageLoad report <> Js.NaN /\
  slowestApiResponse report <> Js.NaN.
Proof.
  cbv zeta. unfold performanceReport. cbn [totalMeasurements violations pageLoadThreshold
    apiResponseThreshold slowestPageLoad slowestApiResponse].
  split; [| split; [| split; [| split]]].
  - unfold of_type. induction data as [|d data IH]; [reflexivity |].
    cbn [List.filter length]. destruct (type d); cbn [Category_eqb length]; lia.
  - intros d Hd. apply filter_In in Hd as [Hin Hv]. split; [exact Hin |].
    apply orb_true_iff in Hv as [Hv | Hv]; apply andb_true_iff in Hv as [_ Hv];
      apply gt_not_nan in Hv; tauto.
  - intros Hp Ha. rewrite Hp, Ha.
    induction data as [|d data IH]; [reflexivity |].
    cbn [List.filter].
    replace (Js.gt (duration d) Js.NaN) with false by (destruct (duration d); reflexivity).
    rewrite !andb_false_r. exact IH.
  - unfold Js.Math_max. apply Math_max_not_nan; [discriminate |].
    apply List.Forall_forall. intros x Hx. apply in_map_iff in Hx as (d & <- & _).
    apply or_zero_not_nan.
  - unfold Js.Math_max. apply Math_max_not_nan; [discriminate |].
    apply List.Forall_forall. intros x Hx. apply in_map_iff in Hx as (d & <- & _).
    apply or_zero_not_nan.
Qed.

(** X16.  One record whose duration is [NaN] makes the average of its
    list [NaN]: the guard against [NaN] protects the maxima only. *)
Theorem nan_duration_spoils_average (data : list PerfRecord) (r : PerfRecord) :
  In r data -> duration r = Js.NaN -> calculateAverage data = Js.NaN.
Proof.
  intros Hin Hr. unfold calculateAverage.
  destruct data as [|d data]; [destruct Hin |].
  cbn [length Nat.eqb]. rewrite (sum_nan (d :: data) r _ Hin Hr). reflexivity.
Qed.

(** X15.  For records read from the log, the maximum of a category is
    [-Infinity] exactly when the category has no record: an unparsed
    duration counts as zero there. *)
Theorem slowest_of_collected (P : Platform) (lines : list string) :
  let data := collectLines P lines in
  (slowestPageLoad (performanceReport P data) = Js.NegInf <-> of_type pageLoad data = []) /\
  (slowestApiResponse (performanceReport P data) = Js.NegInf <->
   of_type apiResponse data = []).
Proof.
  cbv zeta. split; apply slowest_collected.
Qed.

(** X17.  The lines of the log are collected one by one: the records of
    two pieces of a log are the records of the first followed by those of
    the second, and a log yields no more records than it has lines; this
    in both teardown modules. *)
Theorem lines_collected_independently (P : Platform) (l1 l2 : list string) :
  (collectLines P (l1 ++ l2) = collectLines P l1 ++ collectLines P l2 /\
   (length (collectLines P l1) <= length l1)%nat) /\
  (TeardownFull.collectLines P (l1 ++ l2) =
     TeardownFull.collectLines P l1 ++ TeardownFull.collectLines P l2 /\
   (length (TeardownFull.collectLines P l1) <= length l1)%nat).
Proof.
  rewrite !focused_collectLines_flat, !full_collectLines_flat.
  repeat split.
  - apply flat_map_app.
  - apply flat_map_short. intros line.
    destruct (Js.includes line performance_marker); [| simpl; lia].
    destruct (parseEntry P line); simpl; lia.
  - apply flat_map_app.
  - apply flat_map_short. intros line.
    destruct (Js.includes line performance_marker); [| simpl; lia].
    destruct (TeardownFull.parseEntry P line); simpl; lia.
Qed.

(** X18.  When the execution log cannot be read, [collectPerformanceData]
    returns no record and logs no warning, in both teardown modules. *)
Theorem unreadable_log_gives_no_record (P : Platform) (w w' : World P) (e : Err) :
  sys P string (ReadFile (in_root P "logs/test-execution.log")) w = (w', inl e) ->
  (result (collectPerformanceData P w) = Ok [] /\
   Trace.warnings (events (collectPerformanceData P w)) = []) /\
  (result (TeardownFull.collectPerformanceData P w) = Ok [] /\
   Trace.warnings (events (TeardownFull.collectPerformanceData P w)) = []).
Proof.
  intros Hs.
  set (logFile := in_root P "logs/test-execution.log") in *.
  assert (Hc : catch_value (request (ReadFile logFile)) EmptyString w =
               mkOut w' [EvSys (ReadFile logFile) false] (Ok EmptyString)).
  { unfold catch_value, try_catch, request. rewrite Hs. reflexivity. }
  unfold collectPerformanceData, TeardownFull.collectPerformanceData. cbv zeta.
  fold logFile.
  rewrite !Laws.result_fn, !Laws.events_fn, !Laws.result_try, !Laws.events_try.
  rewrite !(ProbeFacts.bind_out P _ _ _ _ _ _ Hc).
  cbn [result events].
  repeat split.
Qed.

(** Witness of X16. *)
Lemma nan_duration_spoils_average_witness :
  calculateAverage [Lab.sample_record; Lab.unparsed_record] = Js.NaN.
Proof.
  apply (nan_duration_spoils_average [Lab.sample_record; Lab.unparsed_record]
                                     Lab.unparsed_record).
  - right. left. reflexivity.
  - reflexivity.
Defined.

(** Witness of X18: a disk with no log file. *)
Lemma unreadable_log_gives_no_record_witness :
  (result (collectPerformanceData Lab.blank_platform tt) = Ok [] /\
   Trace.warnings (events (collectPerformanceData Lab.blank_platform tt)) = []) /\
  (result (TeardownFull.collectPerformanceData Lab.blank_platform tt) = Ok [] /\
   Trace.warnings (events (TeardownFull.collectPerformanceData Lab.blank_platform tt)) = []).
Proof.
  apply (unreadable_log_gives_no_record Lab.blank_platform tt tt
           (mkErr "ENOENT: no such file or directory" "ENOENT")).
  reflexivity.
Defined.

End ReportClaims.

(* ===================================================================== *)
(** ** Waiting for an endpoint, whatever it answers *)
(* ===================================================================== *)

Module WaitFacts.
Import Eff Trace Laws ApiHelper ProbeFacts.

Section WithPlatform.
Context (P : Platform) (endpoint : string).

(** The [try] of one turn against an endpoint that answers. *)
Lemma probe_answered (w w' : World P) (status : nat) :
  sys P nat (HttpGet endpoint) w = (w', inr status) ->
  probe P endpoint w =
  if (status <? 500)%nat
  then mkOut w' [EvSys (HttpGet endpoint) true; EvLog Info "Endpoint is available"] (Ok true)
  else mkOut w' [EvSys (HttpGet endpoint) true] (Ok false).
Proof.
  intros Hs. unfold probe, try_catch, mbind, M_bind, bind, request.
  rewrite Hs. cbn [result world events].
  destruct (status <? 500)%nat; reflexivity.
Qed.

(** The [try] of one turn, whatever the endpoint does: it never throws,
    asks once, and moves the world as the request does. *)
Lemma probe_out (w : World P) :
  exists w' r evs b,
    sys P nat (HttpGet endpoint) w = (w', r) /\
    probe P endpoint w = mkOut w' evs (Ok b) /\
    polls evs = 1%nat.
Proof.
  destruct (sys P nat (HttpGet endpoint) w) as [w' [e|status]] eqn:Hs.
  - exists w', (inl e), [EvSys (HttpGet endpoint) false], false.
    split; [reflexivity |]. split; [| reflexivity].
    unfold probe, try_catch, mbind, M_bind, bind, request. rewrite Hs. reflexivity.
  - rewrite (probe_answered w w' status Hs).
    destruct (status <? 500)%nat; eexists _, _, _, _; repeat split.
Qed.

Lemma polls_app evs1 evs2 : polls (evs1 ++ evs2) = (polls evs1 + polls evs2)%nat.
Proof. unfold polls. rewrite omap_app, length_app. reflexivity. Qed.

(** The loop never throws. *)
Lemma poll_returns fuel start timeout interval :
  returns (poll P fuel endpoint start timeout interval).
Proof.
  induction fuel as [|fuel IH]; cbn [poll]; [apply returns_ret |].
  apply returns_bind; [apply returns_now | intros t].
  destruct (t - start <? timeout).
  - apply returns_bind; [unfold probe; total | intros available].
    destruct available; [apply returns_ret |].
    apply returns_bind; [apply returns_delay | intros _; exact IH].
  - total.
Qed.

(** The loop ends, saying yes or no, within [k] turns when [k] waits use
    up the timeout, whatever the endpoint answers on the way. *)
Lemma poll_ends start timeout interval :
  steady P endpoint -> punctual P -> 0 < interval ->
  forall k fuel w,
    timeout - (now P w - start) <= Z.of_nat k * interval ->
    (k < fuel)%nat ->
    (exists b, result (poll P fuel endpoint start timeout interval w) = Ok (Some b)) /\
    (polls (events (poll P fuel endpoint start timeout interval w)) <= k)%nat.
Proof.
  intros Hsteady Hpunct Hpos. induction k as [|k IH]; intros fuel w Hleft Hfuel.
  - destruct fuel as [|fuel]; [lia |]. cbn [poll]. rewrite bind_now.
    destruct (Z.ltb_spec (now P w - start) timeout); [lia |].
    rewrite result_log_then, events_log_then.
    split; [exists false; reflexivity | change (polls _) with 0%nat; lia].
  - destruct fuel as [|fuel]; [lia |]. cbn [poll]. rewrite bind_now.
    destruct (Z.ltb_spec (now P w - start) timeout).
    + destruct (probe_out w) as (w' & r & evs & b & Hs & Hp & Hn).
      rewrite (bind_out P _ _ _ _ _ _ Hp).
      destruct b.
      * cbn [result events world]. split; [exists true; reflexivity |].
        rewrite polls_app, Hn. change (polls (events _)) with 0%nat. lia.
      * rewrite bind_delay. cbn [result events world].
        pose proof (Hsteady w w' r Hs) as Hmono.
        pose proof (Hpunct interval w') as Hp'.
        destruct (IH fuel (sleep P interval w')) as [Hr Hk]; [lia | lia |].
        split; [exact Hr |]. rewrite polls_app, Hn. lia.
    + rewrite result_log_then, events_log_then.
      split; [exists false; reflexivity | change (polls _) with 0%nat; lia].
Qed.

End WithPlatform.
End WaitFacts.

Section WaitClaims.
Import Eff Trace Laws ApiHelper ProbeFacts WaitFacts.

(** X19.  [waitForEndpoint] never throws: an error of the request is
    taken as one more refusal, whatever the platform does. *)
Theorem waitForEndpoint_never_throws (P : Platform) (endpoint : string)
    (fuel : nat) (timeout interval : Z) (w : World P) :
  exists answer, result (waitForEndpoint P fuel endpoint timeout interval w) = Ok answer.
Proof.
  unfold waitForEndpoint. rewrite result_fn, bind_now, result_log_then.
  apply poll_returns.
Qed.

(** X20.  With a positive timeout, an endpoint whose first answer has a
    status below 500 (a 404 as well as a 200) makes [waitForEndpoint]
    return true after that one request, without waiting. *)
Theorem waitForEndpoint_first_answer (P : Platform) (endpoint : string)
    (fuel : nat) (timeout interval : Z) (w w' : World P) (status : nat) :
  sys P nat (HttpGet endpoint) w = (w', inr status) ->
  (status < 500)%nat ->
  0 < timeout ->
  let o := waitForEndpoint P (S fuel) endpoint timeout interval w in
  result o = Ok (Some true) /\ polls (events o) = 1%nat /\ world o = w'.
Proof.
  intros Hs Hlt Hpos. cbv zeta.
  unfold waitForEndpoint. rewrite result_fn, events_fn, world_fn, bind_now.
  rewrite result_log_then, events_log_then, world_log_then.
  cbn [poll]. rewrite bind_now.
  destruct (Z.ltb_spec (now P w - now P w) timeout); [| lia].
  assert (Hp : probe P endpoint w =
               mkOut w' [EvSys (HttpGet endpoint) true; EvLog Info "Endpoint is available"]
                     (Ok true)).
  { rewrite (probe_answered P endpoint w w' status Hs).
    apply Nat.ltb_lt in Hlt. rewrite Hlt. reflexivity. }
  rewrite (bind_out P _ _ _ _ _ _ Hp). cbn [result events world].
  repeat split.
Qed.

(** X21.  On a platform whose clock does not go back during a request
    and whose timers do not fire early, [waitForEndpoint] returns true or
    false after at most [k] requests as soon as [k] intervals cover the
    timeout, whatever the endpoint answers; with a timeout of zero or
    less it asks nothing. *)
Theorem waitForEndpoint_ends (P : Platform) (endpoint : string)
    (fuel k : nat) (timeout interval : Z) (w : World P) :
  steady P endpoint -> punctual P -> 0 < interval ->
  timeout <= Z.of_nat k * interval -> (k < fuel)%nat ->
  let o := waitForEndpoint P fuel endpoint timeout interval w in
  (exists b, result o = Ok (Some b)) /\ (polls (events o) <= k)%nat.
Proof.
  intros Hsteady Hpunct Hpos Hk Hfuel. cbv zeta.
  destruct (waitForEndpoint_run P endpoint fuel timeout interval w) as [-> ->].
  apply (poll_ends P endpoint (now P w) timeout interval Hsteady Hpunct Hpos); lia.
Qed.

(** Witness of X20: an endpoint that answers 200 at once. *)
Lemma waitForEndpoint_first_answer_witness :
  let o := waitForEndpoint Lab.plain_platform 1 "/health" 200 50 tt in
  result o = Ok (Some true) /\ polls (events o) = 1%nat /\ world o = tt.
Proof.
  apply (waitForEndpoint_first_answer Lab.plain_platform "/health" 0 200 50 tt tt 200%nat).
  - reflexivity.
  - lia.
  - lia.
Defined.

(** Witness of X21: the server that takes 100 ms to answer 503. *)
Lemma waitForEndpoint_ends_witness :
  let o := waitForEndpoint (Lab.slow_server 100) 5 "/health" 200 50 0%Z in
  (exists b, result o = Ok (Some b)) /\ (polls (events o) <= 4)%nat.
Proof.
  apply (waitForEndpoint_ends (Lab.slow_server 100) "/health" 5 4 200 50 0%Z).
  - intros w w' r H. simpl in H. injection H as <- _. simpl. lia.
  - intros ms w. simpl. lia.
  - lia.
  - lia.
  - lia.
Defined.

End WaitClaims.

(* ===================================================================== *)
(** ** The cookie header, written and read back *)
(* ===================================================================== *)

Module SplitFacts.

Lemma append_cons (c : ascii) (a b : string) : String c a +:+ b = String c (a +:+ b).
Proof. reflexivity. Qed.

Lemma startsWith_append (p s : string) : Js.startsWith p (p +:+ s) = true.
Proof.
  induction p as [|c p IH]; [reflexivity |].
  rewrite append_cons. cbn [Js.startsWith]. rewrite Ascii.eqb_refl. exact IH.
Qed.

(** A string holds the character [c] nowhere. *)
Lemma includes_char_cons (c a : ascii) (s : string) :
  Js.includes (String a s) (String c EmptyString) =
  Ascii.eqb c a || Js.includes s (String c EmptyString).
Proof.
  cbn [Js.includes Js.startsWith]. destruct (Ascii.eqb c a); [| reflexivity].
  destruct s; reflexivity.
Qed.

Lemma includes_char_append (c : ascii) (a b : string) :
  Js.includes (a +:+ b) (String c EmptyString) =
  Js.includes a (String c EmptyString) || Js.includes b (String c EmptyString).
Proof.
  induction a as [|x a IH].
  - change (EmptyString +:+ b) with b. reflexivity.
  - rewrite append_cons, !includes_char_cons, IH. apply orb_assoc.
Qed.

(** The characters of a separator just found are passed over. *)
Lemma split_skip (sep t rest : string) :
  Js.split_str_go sep (String.length t) (t +:+ rest) = Js.split_str_go sep 0 rest.
Proof.
  induction t as [|c t IH]; [reflexivity |].
  rewrite append_cons. cbn [String.length Js.split_str_go]. exact IH.
Qed.

(** A piece free of the first character of the separator is cut off at
    the separator that follows it. *)
Lemma split_piece (c : ascii) (sep' x rest : string) :
  Js.includes x (String c EmptyString) = false ->
  Js.split_str_go (String c sep') 0 (x +:+ String c sep' +:+ rest) =
  x :: Js.split_str_go (String c sep') 0 rest.
Proof.
  intros Hx. induction x as [|a x IH].
  - change (EmptyString +:+ String c sep' +:+ rest) with (String c (sep' +:+ rest)).
    cbn [Js.split_str_go].
    change (String c (sep' +:+ rest)) with (String c sep' +:+ rest).
    rewrite startsWith_append.
    cbn [String.length]. rewrite Nat.sub_succ, Nat.sub_0_r.
    rewrite split_skip. reflexivity.
  - rewrite includes_char_cons in Hx. apply orb_false_iff in Hx as [Hca Hx].
    rewrite append_cons. cbn [Js.split_str_go Js.startsWith].
    rewrite Hca. rewrite (IH Hx). reflexivity.
Qed.

Lemma split_last (c : ascii) (sep' x : string) :
  Js.includes x (String c EmptyString) = false ->
  Js.split_str_go (String c sep') 0 x = [x].
Proof.
  intros Hx. induction x as [|a x IH]; [reflexivity |].
  rewrite includes_char_cons in Hx. apply orb_false_iff in Hx as [Hca Hx].
  cbn [Js.split_str_go Js.startsWith]. rewrite Hca, (IH Hx). reflexivity.
Qed.

(** Splitting undoes joining, for pieces free of the first character of
    the separator. *)
Lemma split_join (c : ascii) (sep' : string) (xs : list string) :
  xs <> [] ->
  Forall (fun x => Js.includes x (String c EmptyString) = false) xs ->
  Js.split_str (String c sep') (Js.join (String c sep') xs) = xs.
Proof.
  intros Hne Hxs. unfold Js.split_str.
  induction Hxs as [|x xs Hx Hxs IH]; [congruence |].
  destruct xs as [|y rest].
  - cbn [Js.join]. apply split_last. exact Hx.
  - change (Js.join (String c sep') (x :: y :: rest))
      with (x +:+ String c sep' +:+ Js.join (String c sep') (y :: rest)).
    rewrite (split_piece c sep' x _ Hx). rewrite IH by discriminate. reflexivity.
Qed.

Lemma truthy_append (a b : string) : Js.truthy_str a = true -> Js.truthy_str (a +:+ b) = true.
Proof. destruct a; [discriminate | reflexivity]. Qed.

Lemma truthy_join (sep x : string) (xs : list string) :
  Js.truthy_str x = true -> Js.truthy_str (Js.join sep (x :: xs)) = true.
Proof.
  intros Hx. destruct xs as [|y rest]; [exact Hx |].
  change (Js.join sep (x :: y :: rest)) with (x +:+ sep +:+ Js.join sep (y :: rest)).
  apply truthy_append. exact Hx.
Qed.

End SplitFacts.

Module CookieFacts.
Import Eff ApiHeaders SplitFacts.

Lemma plain_spec (s : string) :
  plain s = true ->
  Js.includes s ";" = false /\ Js.includes s "=" = false /\ Js.trim s = s.
Proof.
  unfold plain. intros H.
  apply andb_true_iff in H as [H H3]. apply andb_true_iff in H as [H H2].
  apply andb_true_iff in H as [_ H1].
  apply negb_true_iff in H1, H2. apply String.eqb_eq in H3. tauto.
Qed.

(** One cookie written into the header and read back. *)
Lemma parseCookie_written (c : Cookie) :
  plain (name c) = true -> plain (value c) = true ->
  parseCookie (name c +:+ "=" +:+ value c) = c.
Proof.
  intros Hn Hv.
  destruct (plain_spec _ Hn) as (_ & Hn2 & Hn3).
  destruct (plain_spec _ Hv) as (_ & Hv2 & Hv3).
  unfold parseCookie. cbv zeta.
  change (name c +:+ "=" +:+ value c) with (Js.join "=" [name c; value c]).
  rewrite (split_join "="%char EmptyString [name c; value c]);
    [| discriminate | repeat constructor; assumption].
  change ([name c; value c] !! 0%nat) with (Some (name c)).
  change ([name c; value c] !! 1%nat) with (Some (value c)).
  cbn [default]. unfold id. rewrite Hn3, Hv3.
  destruct c as [n v]. cbn [name value Js.or_default].
  destruct v; reflexivity.
Qed.

Lemma written_free (c : Cookie) :
  plain (name c) = true -> plain (value c) = true ->
  Js.includes (name c +:+ "=" +:+ value c) ";" = false.
Proof.
  intros Hn Hv.
  destruct (plain_spec _ Hn) as (Hn1 & _ & _).
  destruct (plain_spec _ Hv) as (Hv1 & _ & _).
  rewrite !includes_char_append, Hn1, Hv1. reflexivity.
Qed.

Lemma written_truthy (c : Cookie) : Js.truthy_str (name c +:+ "=" +:+ value c) = true.
Proof. destruct (name c); reflexivity. Qed.

End CookieFacts.

Section CookieClaims.
Import Eff ApiHeaders SplitFacts CookieFacts.

(** X22.  On an initialised helper, [getCookies] after [setCookies]
    returns the names and values that were set, in order, when they are
    ASCII and none of them holds a semicolon or an equals sign or has
    white space at an end; [setCookies] changes no header but Cookie; and after
    [clearCookies], [getCookies] returns the empty list. *)
Theorem cookies_round_trip (this : State) (cookies : list Cookie) :
  context this = true ->
  Forall (fun c => plain (name c) = true /\ plain (value c) = true) cookies ->
  exists this',
    setCookies this cookies = Ok this' /\
    getCookies this' = Ok cookies /\
    (forall key, key <> "Cookie" ->
       defaultHeaders this' !! key = defaultHeaders this !! key) /\
    exists this'', clearCookies this' = Ok this'' /\ getCookies this'' = Ok [].
Proof.
  intros Hctx Hplain.
  unfold setCookies. rewrite Hctx. cbn [negb]. cbv zeta.
  eexists. split; [reflexivity |]. split; [| split].
  2:{ intros key Hkey. cbn [defaultHeaders]. apply lookup_insert_ne. congruence. }
  - unfold getCookies. cbn [context defaultHeaders negb].
    rewrite lookup_insert_eq.
    destruct cookies as [|c rest]; [reflexivity |].
    cbn [map]. rewrite truthy_join by apply written_truthy. cbn [negb].
    change ((name c +:+ "=" +:+ value c)
              :: map (fun cookie => name cookie +:+ "=" +:+ value cookie) rest)
      with (map (fun cookie => name cookie +:+ "=" +:+ value cookie) (c :: rest)).
    rewrite (split_join ";"%char " ").
    + f_equal. rewrite map_map.
      rewrite <- (map_id (c :: rest)) at 2. apply map_ext_Forall.
      eapply Forall_impl; [exact Hplain |].
      intros c0 [Hn Hv]. apply parseCookie_written; assumption.
    + discriminate.
    + apply Forall_map. eapply Forall_impl; [exact Hplain |].
      intros c0 [Hn Hv]. apply written_free; assumption.
  - unfold clearCookies. cbn [context defaultHeaders negb].
    eexists. split; [reflexivity |].
    unfold getCookies. cbn [context defaultHeaders negb].
    rewrite lookup_delete_eq. reflexivity.
Qed.

(** Witness of X22: two cookies on a helper with no header set. *)
Lemma cookies_round_trip_witness :
  exists this',
    setCookies Lab.fresh_api Lab.session_cookies = Ok this' /\
    getCookies this' = Ok Lab.session_cookies /\
    (forall key, key <> "Cookie" ->
       defaultHeaders this' !! key = defaultHeaders Lab.fresh_api !! key) /\
    exists this'', clearCookies this' = Ok this'' /\ getCookies this'' = Ok [].
Proof.
  apply (cookies_round_trip Lab.fresh_api Lab.session_cookies).
  - reflexivity.
  - repeat (apply Forall_cons; split; [split; vm_compute; reflexivity |]). constructor.
Defined.

End CookieClaims.

(* ===================================================================== *)
(** ** The utility class *)
(* ===================================================================== *)

Module UtilFacts.
Import Eff Trace Laws TraceLaws TestUtils.

(** *** Characters *)

Lemma lower_idem (c : ascii) : Js.lower (Js.lower c) = Js.lower c.
Proof. destruct c as [[] [] [] [] [] [] [] []]; reflexivity. Qed.

Lemma lower_safe (c : ascii) : unsafe c = false -> unsafe (Js.lower c) = false.
Proof. destruct c as [[] [] [] [] [] [] [] []]; intros H; try reflexivity; discriminate H. Qed.

Lemma lower_no_space (c : ascii) : Js.is_space c = false -> Js.is_space (Js.lower c) = false.
Proof. destruct c as [[] [] [] [] [] [] [] []]; intros H; try reflexivity; discriminate H. Qed.

Lemma settled_lower (c : ascii) :
  unsafe c = false -> Js.is_space c = false -> settled (Js.lower c).
Proof.
  intros Hu Hs. split; [apply lower_safe; exact Hu |].
  split; [apply lower_no_space; exact Hs | apply lower_idem].
Qed.

(** *** The three passes of [sanitizeFilename] *)

Lemma replace_unsafe_safe (s : string) :
  Forall (fun c => unsafe c = false) (String.list_ascii_of_string (replace_unsafe s)).
Proof.
  induction s as [|c s IH]; cbn [replace_unsafe String.list_ascii_of_string]; constructor.
  - destruct (unsafe c) eqn:E; [reflexivity | exact E].
  - exact IH.
Qed.

Lemma underscore_runs_chars (inside : bool) (s : string) :
  Forall (fun c => unsafe c = false) (String.list_ascii_of_string s) ->
  Forall (fun c => unsafe c = false /\ Js.is_space c = false)
         (String.list_ascii_of_string (Js.underscore_runs inside s)).
Proof.
  revert inside. induction s as [|c s IH]; intros inside H;
    cbn [Js.underscore_runs String.list_ascii_of_string]; [constructor |].
  cbn [String.list_ascii_of_string] in H. apply Forall_cons in H as [Hc Hs].
  destruct (Js.is_space c) eqn:E.
  - destruct inside; [apply IH; exact Hs |].
    cbn [String.list_ascii_of_string]. constructor; [split; reflexivity | apply IH; exact Hs].
  - cbn [String.list_ascii_of_string]. constructor; [split; assumption | apply IH; exact Hs].
Qed.

Lemma toLowerCase_settled (s : string) :
  Forall (fun c => unsafe c = false /\ Js.is_space c = false) (String.list_ascii_of_string s) ->
  Forall settled (String.list_ascii_of_string (Js.toLowerCase s)).
Proof.
  induction s as [|c s IH]; intros H; cbn [Js.toLowerCase String.list_ascii_of_string];
    [constructor |].
  cbn [String.list_ascii_of_string] in H. apply Forall_cons in H as [[Hu Hs] H].
  constructor; [apply settled_lower; assumption | apply IH; exact H].
Qed.

(** On a name made of settled characters each pass changes nothing. *)
Lemma replace_unsafe_fixed (s : string) :
  Forall settled (String.list_ascii_of_string s) -> replace_unsafe s = s.
Proof.
  induction s as [|c s IH]; intros H; [reflexivity |].
  cbn [String.list_ascii_of_string] in H. apply Forall_cons in H as [(Hu & _ & _) H].
  cbn [replace_unsafe]. rewrite Hu, (IH H). reflexivity.
Qed.

Lemma underscore_runs_fixed (inside : bool) (s : string) :
  Forall settled (String.list_ascii_of_string s) -> Js.underscore_runs inside s = s.
Proof.
  revert inside. induction s as [|c s IH]; intros inside H; [reflexivity |].
  cbn [String.list_ascii_of_string] in H. apply Forall_cons in H as [(_ & Hs & _) H].
  cbn [Js.underscore_runs]. rewrite Hs, (IH false H). reflexivity.
Qed.

Lemma toLowerCase_fixed (s : string) :
  Forall settled (String.list_ascii_of_string s) -> Js.toLowerCase s = s.
Proof.
  induction s as [|c s IH]; intros H; [reflexivity |].
  cbn [String.list_ascii_of_string] in H. apply Forall_cons in H as [(_ & _ & Hl) H].
  cbn [Js.toLowerCase]. rewrite Hl, (IH H). reflexivity.
Qed.

Lemma underscore_runs_length (inside : bool) (s : string) :
  (String.length (Js.underscore_runs inside s) <= String.length s)%nat.
Proof.
  revert inside. induction s as [|c s IH]; intros inside; cbn [Js.underscore_runs String.length];
    [lia |].
  pose proof (IH true). pose proof (IH false).
  destruct (Js.is_space c); [destruct inside |]; cbn [String.length]; lia.
Qed.

Lemma replace_unsafe_length (s : string) :
  String.length (replace_unsafe s) = String.length s.
Proof. induction s as [|c s IH]; cbn [replace_unsafe String.length]; congruence. Qed.

Lemma toLowerCase_length (s : string) :
  String.length (Js.toLowerCase s) = String.length s.
Proof. induction s as [|c s IH]; cbn [Js.toLowerCase String.length]; congruence. Qed.

End UtilFacts.

Section UtilClaims.
Import Eff Trace Laws TraceLaws TestUtils UtilFacts.

(** X23.  For a duration that is not negative, [formatDuration] prints
    the whole seconds of it as hours, minutes below 60 and seconds below
    60 that add up to them, leaving out the hours when there are none and
    the minutes as well when there are neither. *)
Theorem formatDuration_parts (milliseconds : Z) :
  0 <= milliseconds ->
  exists h m s,
    0 <= h /\ 0 <= m < 60 /\ 0 <= s < 60 /\
    milliseconds / 1000 = 3600 * h + 60 * m + s /\
    formatDuration milliseconds =
      if 0 <? h then pretty h +:+ "h " +:+ pretty m +:+ "m " +:+ pretty s +:+ "s"
      else if 0 <? m then pretty m +:+ "m " +:+ pretty s +:+ "s"
      else pretty s +:+ "s".
Proof.
  intros Hms. unfold formatDuration. cbv zeta.
  set (seconds := milliseconds / 1000).
  assert (Hsec : 0 <= seconds) by (apply Z.div_pos; lia).
  set (minutes := seconds / 60).
  assert (Hmin : 0 <= minutes) by (apply Z.div_pos; lia).
  set (hours := minutes / 60).
  assert (Hh : 0 <= hours) by (apply Z.div_pos; lia).
  rewrite !Z.rem_mod_nonneg by lia.
  pose proof (Z.div_mod seconds 60 ltac:(lia)) as Hs60.
  pose proof (Z.div_mod minutes 60 ltac:(lia)) as Hm60.
  pose proof (Z.mod_pos_bound seconds 60 ltac:(lia)) as Hsb.
  pose proof (Z.mod_pos_bound minutes 60 ltac:(lia)) as Hmb.
  fold minutes in Hs60. fold hours in Hm60.
  exists hours, (minutes mod 60), (seconds mod 60).
  split; [exact Hh |]. split; [exact Hmb |]. split; [exact Hsb |]. split; [lia |].
  destruct (Z.ltb_spec 0 hours) as [Hpos | Hzero]; [reflexivity |].
  assert (hours = 0) by lia.
  assert (Hmm : minutes mod 60 = minutes) by lia. rewrite Hmm.
  destruct (Z.ltb_spec 0 minutes) as [Hpos | Hz]; [reflexivity |].
  assert (minutes = 0) by lia.
  assert (Hss : seconds mod 60 = seconds) by lia. rewrite Hss. reflexivity.
Qed.

(** X24.  For an ASCII name, what [sanitizeFilename] returns holds none
    of the nine reserved characters, no white space and no capital
    letter; sanitizing it again changes nothing; and it is no longer than
    the name given. *)
Theorem sanitizeFilename_settles (filename : string) :
  Js.ascii_only filename = true ->
  Forall settled (String.list_ascii_of_string (sanitizeFilename filename)) /\
  sanitizeFilename (sanitizeFilename filename) = sanitizeFilename filename /\
  (String.length (sanitizeFilename filename) <= String.length filename)%nat.
Proof.
  intros _.
  assert (H : Forall settled (String.list_ascii_of_string (sanitizeFilename filename))).
  { unfold sanitizeFilename. apply toLowerCase_settled, underscore_runs_chars,
      replace_unsafe_safe. }
  split; [exact H |]. split.
  - generalize dependent (sanitizeFilename filename). intros t Ht.
    unfold sanitizeFilename.
    rewrite (replace_unsafe_fixed t Ht), (underscore_runs_fixed false t Ht).
    apply toLowerCase_fixed. exact Ht.
  - unfold sanitizeFilename. rewrite toLowerCase_length.
    pose proof (underscore_runs_length false (replace_unsafe filename)) as Hl.
    rewrite replace_unsafe_length in Hl. exact Hl.
Qed.

(** Witness of X24: a report name with a colon, blanks and capitals. *)
Lemma sanitizeFilename_settles_witness :
  sanitizeFilename "Login Test:  Step 2?.PNG" = "login_test__step_2_.png" /\
  Forall settled (String.list_ascii_of_string
                    (sanitizeFilename "Login Test:  Step 2?.PNG")) /\
  sanitizeFilename (sanitizeFilename "Login Test:  Step 2?.PNG") =
    sanitizeFilename "Login Test:  Step 2?.PNG" /\
  (String.length (sanitizeFilename "Login Test:  Step 2?.PNG") <=
   String.length "Login Test:  Step 2?.PNG")%nat.
Proof.
  split; [vm_compute; reflexivity |].
  apply (sanitizeFilename_settles "Login Test:  Step 2?.PNG"). reflexivity.
Defined.

(** Witness of X23: one hour, two minutes and five seconds. *)
Lemma formatDuration_parts_witness :
  formatDuration 3725000 = "1h 2m 5s" /\
  exists h m s,
    0 <= h /\ 0 <= m < 60 /\ 0 <= s < 60 /\
    3725000 / 1000 = 3600 * h + 60 * m + s /\
    formatDuration 3725000 =
      if 0 <? h then pretty h +:+ "h " +:+ pretty m +:+ "m " +:+ pretty s +:+ "s"
      else if 0 <? m then pretty m +:+ "m " +:+ pretty s +:+ "s"
      else pretty s +:+ "s".
Proof.
  split; [vm_compute; reflexivity |].
  apply (formatDuration_parts 3725000). lia.
Defined.

End UtilClaims.

Module RetryFacts.
Import Eff Trace Laws TraceLaws TestUtils.

Section WithPlatform.
Context (P : Platform).

(** The loop of [retryWithBackoff] against an operation that throws
    every time: it gives up with an error of the operation, having
    logged one entry per attempt but the last, each with its delay. *)
Lemma attempts_exhaust {A} (fn : M P A) (maxRetries : nat) (baseDelay : Z) :
  (forall w, exists e, result (fn w) = Throw e) ->
  (forall w, debugs (events (fn w)) = []) ->
  forall more attempt w,
    (exists e w',
       result (attempts P fn maxRetries baseDelay attempt more w) = Throw e /\
       result (fn w') = Throw e) /\
    debugs (events (attempts P fn maxRetries baseDelay attempt more w)) =
      map (fun k => retry_message (attempt + k) maxRetries
                      (baseDelay * 2 ^ Z.of_nat (attempt + k - 1)))
          (List.seq 0 more).
Proof.
  intros Hfail Hquiet. induction more as [|more IH]; intros attempt w;
    cbn [attempts]; rewrite result_try, events_try;
    destruct (Hfail w) as [e He]; rewrite He.
  - split; [exists e, w; split; [reflexivity | exact He] |].
    unfold debugs in *. rewrite omap_app, Hquiet. reflexivity.
  - cbv zeta. rewrite result_log_then, events_log_then.
    rewrite (ProbeFacts.bind_delay P).
    destruct (IH (S attempt)
                 (sleep P (baseDelay * 2 ^ Z.of_nat (attempt - 1)) (world (fn w))))
      as [Hr Hd].
    split; [exact Hr |].
    unfold debugs in *. rewrite omap_app, Hquiet.
    rewrite (seen_keep _ _ _ (retry_message attempt maxRetries
                                (baseDelay * 2 ^ Z.of_nat (attempt - 1)))) by reflexivity.
    rewrite Hd. cbn [List.seq map app].
    rewrite Nat.add_0_r. f_equal.
    rewrite <- seq_shift, map_map. apply map_ext. intros k.
    rewrite Nat.add_succ_r. reflexivity.
Qed.

(** A turn of the loop of [cleanupOldFiles]. *)
Lemma cleanup_turn dirPath cutoffTime filePattern file (w : World P) :
  Forall (fun p => exists file, p = path_join dirPath file /\ skipped filePattern file = false)
         (unlinks (events
            ((if skipped filePattern file then mret tt
              else
                mtime ← request (Stat (path_join dirPath file)) ;
                if mtime <? cutoffTime then
                  request (Unlink (path_join dirPath file)) ;;
                  log Debug "Cleaned up old file"
                else mret tt) w))).
Proof.
  destruct (skipped filePattern file) eqn:E; [constructor |].
  rewrite events_bind.
  destruct (request_out (Stat (path_join dirPath file)) w) as (w1 & b & r & ->).
  cbn [result events world]. destruct r as [mtime|e]; [| constructor].
  unfold unlinks. rewrite omap_app, seen_skip by reflexivity.
  change (omap _ (@nil Event)) with (@nil string). cbn [app].
  destruct (mtime <? cutoffTime); [| constructor].
  rewrite events_bind.
  destruct (request_out (Unlink (path_join dirPath file)) w1) as (w2 & b' & r' & ->).
  cbn [result events world].
  destruct r' as [[]|e]; repeat constructor; exists file; split; try reflexivity; exact E.
Qed.

End WithPlatform.
End RetryFacts.

Section RetryClaims.
Import Eff Trace Laws TraceLaws TestUtils RetryFacts.

(** X25.  Against an operation that throws at every call and logs
    nothing at debug level, [retryWithBackoff] throws an error of the
    operation, having logged one retry entry after each attempt but the
    last, with delays that double from [baseDelay] on. *)
Theorem retry_exhausts (P : Platform) (A : Type) (fn : M P A)
    (maxRetries : positive) (baseDelay : Z) (w : World P) :
  (forall w, exists e, result (fn w) = Throw e) ->
  (forall w, debugs (events (fn w)) = []) ->
  (exists e w',
     result (retryWithBackoff P fn maxRetries baseDelay w) = Throw e /\
     result (fn w') = Throw e) /\
  debugs (events (retryWithBackoff P fn maxRetries baseDelay w)) =
    map (fun k => retry_message (S k) (Pos.to_nat maxRetries) (baseDelay * 2 ^ Z.of_nat k))
        (List.seq 0 (Pos.to_nat maxRetries - 1)).
Proof.
  intros Hfail Hquiet. unfold retryWithBackoff.
  destruct (attempts_exhaust P fn (Pos.to_nat maxRetries) baseDelay Hfail Hquiet
              (Pos.to_nat maxRetries - 1) 1%nat w) as [Hr Hd].
  split; [exact Hr |]. rewrite Hd. apply map_ext. intros k.
  cbn [Nat.add]. rewrite Nat.sub_succ, Nat.sub_0_r. reflexivity.
Qed.

(** X26.  [ensureDirectory] and [cleanupOldFiles] never throw, and every
    file [cleanupOldFiles] asks to delete lies in the directory given
    and passes the pattern, if one is given. *)
Theorem cleanupOldFiles_scope (P : Platform) (dirPath : string) (maxAge : Z)
    (filePattern : option (string -> bool)) (w : World P) :
  result (ensureDirectory P dirPath w) = Ok tt /\
  result (cleanupOldFiles P dirPath maxAge filePattern w) = Ok tt /\
  Forall (fun p => exists file, p = path_join dirPath file /\ skipped filePattern file = false)
         (unlinks (events (cleanupOldFiles P dirPath maxAge filePattern w))).
Proof.
  split; [apply returns_unit; unfold ensureDirectory; total |].
  split; [apply returns_unit; unfold cleanupOldFiles; total |].
  unfold cleanupOldFiles.
  rewrite events_fn. unfold unlinks. rewrite seen_skip by reflexivity.
  rewrite seen_try_log by reflexivity.
  rewrite events_bind.
  destruct (request_out (Readdir dirPath) w) as (w1 & b & r & ->).
  cbn [result events world]. destruct r as [files|e]; [| constructor].
  rewrite omap_app, seen_skip by reflexivity.
  change (omap _ (@nil Event)) with (@nil string). cbn [app].
  rewrite (ProbeFacts.bind_now P). cbv zeta.
  apply for_of_all. intros file w2 _. apply cleanup_turn.
Qed.

(** Witness of X25: reading a file that is not there, three times. *)
Lemma retry_exhausts_witness :
  (exists e w',
     result (retryWithBackoff Lab.blank_platform
               (request (ReadFile "auth/state.json")) 3 1000 tt) = Throw e /\
     result (request (ReadFile "auth/state.json") w'
               : Out Lab.blank_platform string) = Throw e) /\
  debugs (events (retryWithBackoff Lab.blank_platform
                    (request (ReadFile "auth/state.json")) 3 1000 tt)) =
    map (fun k => retry_message (S k) (Pos.to_nat 3) (1000 * 2 ^ Z.of_nat k))
        (List.seq 0 (Pos.to_nat 3 - 1)).
Proof.
  apply (retry_exhausts Lab.blank_platform string (request (ReadFile "auth/state.json"))
           3 1000 tt).
  - intros w. eexists. reflexivity.
  - intros w. reflexivity.
Defined.

End RetryClaims.

(* ===================================================================== *)
(** ** Notifications *)
(* ===================================================================== *)

Module NotifyFacts.
Import Eff Trace Laws TeardownCommon TeardownFull.

Section WithPlatform.
Context {P : Platform}.

(** After a step that returns, the functions entered are those of the
    step followed by those of the rest. *)
Lemma entered_after {A B} names (m : M P A) (k : A -> M P B) l1 l2 :
  returns m ->
  (forall w, entered names (events (m w)) = l1) ->
  (forall a w, entered names (events (k a w)) = l2) ->
  forall w, entered names (events ((m ≫= k) w)) = l1 ++ l2.
Proof.
  intros Hr H1 H2 w. rewrite events_bind. destruct (Hr w) as [a ->].
  rewrite entered_app, H1, H2. reflexivity.
Qed.

Lemma entered_when names (c : bool) name (body : M P unit) :
  mem names name = true -> silent names body ->
  forall w, entered names (events (when c (fn name body) w)) = if c then [name] else [].
Proof.
  intros Hn Hb w. destruct c; [| reflexivity].
  cbn [when]. apply entered_once; assumption.
Qed.

End WithPlatform.
End NotifyFacts.

Section NotifyClaims.
Import Eff Trace Laws TeardownCommon TeardownFull NotifyFacts.

(** X27.  [sendNotifications] enters the email, Slack and Teams senders
    in that order, each one exactly when its environment flag is the
    string true, and no sender otherwise. *)
Theorem notifications_follow_flags (P : Platform) (w : World P) :
  entered ["sendEmailNotification"; "sendSlackNotification"; "sendTeamsNotification"]
          (events (sendNotifications P w)) =
  (if env_true P "EMAIL_NOTIFICATIONS" then ["sendEmailNotification"] else []) ++
  (if env_true P "SLACK_NOTIFICATIONS" then ["sendSlackNotification"] else []) ++
  (if env_true P "TEAMS_NOTIFICATIONS" then ["sendTeamsNotification"] else []).
Proof.
  set (names := ["sendEmailNotification"; "sendSlackNotification"; "sendTeamsNotification"]).
  unfold sendNotifications. cbv zeta.
  rewrite entered_fn. change (mem names "sendNotifications") with false. cbv iota.
  rewrite events_log_then, entered_log.
  assert (Hbody : forall w0,
    entered names (events
      ((collectTestSummary P ;;
        when (env_true P "EMAIL_NOTIFICATIONS") (sendEmailNotification P) ;;
        when (env_true P "SLACK_NOTIFICATIONS") (sendSlackNotification P) ;;
        when (env_true P "TEAMS_NOTIFICATIONS") (sendTeamsNotification P) ;;
        log Info "✅ Notifications processed") w0)) =
    [] ++
    (if env_true P "EMAIL_NOTIFICATIONS" then ["sendEmailNotification"] else []) ++
    (if env_true P "SLACK_NOTIFICATIONS" then ["sendSlackNotification"] else []) ++
    (if env_true P "TEAMS_NOTIFICATIONS" then ["sendTeamsNotification"] else []) ++ []).
  { apply entered_after.
    { unfold collectTestSummary, collectTestResults. total. }
    { change (silent names (collectTestSummary P)).
      unfold collectTestSummary, collectTestResults. quiet. }
    intros _. apply entered_after.
    { unfold sendEmailNotification. total. }
    { unfold sendEmailNotification. apply entered_when; [reflexivity | quiet]. }
    intros _. apply entered_after.
    { unfold sendSlackNotification. total. }
    { unfold sendSlackNotification. apply entered_when; [reflexivity | quiet]. }
    intros _. apply entered_after.
    { unfold sendTeamsNotification. total. }
    { unfold sendTeamsNotification. apply entered_when; [reflexivity | quiet]. }
    intros _ w1. reflexivity. }
  rewrite app_nil_r in Hbody. cbn [app] in Hbody.
  rewrite events_try.
  destruct (env_true P "EMAIL_NOTIFICATIONS") eqn:Ee;
  destruct (env_true P "SLACK_NOTIFICATIONS") eqn:Es;
  destruct (env_true P "TEAMS_NOTIFICATIONS") eqn:Et;
  cbn [negb andb];
  lazymatch goal with
  | |- context [result (?body w)] =>
      assert (Hr : result (body w) = Ok tt);
      [apply returns_unit; unfold collectTestSummary, collectTestResults,
         sendEmailNotification, sendSlackNotification, sendTeamsNotification; total
      | rewrite Hr]
  end;
  first [apply Hbody | reflexivity].
Qed.

End NotifyClaims.

(* ===================================================================== *)
(** ** The patterns of the artifact folders *)
(* ===================================================================== *)

Module PatternFacts.
Import TeardownFull.

Lemma letters_match (w t : string) :
  match_here (letters w) t = true <-> exists post, t = w +:+ post.
Proof.
  revert t. induction w as [|c w IH]; intros t; cbn [letters match_here].
  - split; [intros _; exists t; reflexivity | reflexivity].
  - destruct t as [|d t].
    + split; [discriminate | intros [post H]; discriminate H].
    + cbn [atom_matches]. rewrite andb_true_iff, IH, Ascii.eqb_eq. split.
      * intros [-> [post ->]]. exists post. reflexivity.
      * intros [post H]. change (String c w +:+ post) with (String c (w +:+ post)) in H.
        injection H as -> ->. split; [reflexivity | exists post; reflexivity].
Qed.

(** What follows a starred atom matches some suffix of the text. *)
Lemma star_suffix (a : atom) (re : list (atom * bool)) (t : string) :
  match_here ((a, true) :: re) t = true ->
  exists pre rest, t = pre +:+ rest /\ match_here re rest = true.
Proof.
  induction t as [|c t IH]; cbn [match_here].
  - rewrite orb_false_r. intros H. exists EmptyString, EmptyString. split; [reflexivity | exact H].
  - intros H. apply orb_true_iff in H as [H | H].
    + exists EmptyString, (String c t). split; [reflexivity | exact H].
    + apply andb_true_iff in H as [_ H].
      destruct (IH H) as (pre & rest & -> & Hm).
      exists (String c pre), rest. split; [reflexivity | exact Hm].
Qed.

Lemma star_here (a : atom) (re : list (atom * bool)) (t : string) :
  match_here re t = true -> match_here ((a, true) :: re) t = true.
Proof. intros H. destruct t; cbn [match_here]; rewrite H; reflexivity. Qed.

Lemma search_spec (re : list (atom * bool)) (t : string) :
  search re t = true <-> exists pre rest, t = pre +:+ rest /\ match_here re rest = true.
Proof.
  induction t as [|c t IH]; cbn [search].
  - rewrite orb_false_r. split.
    + intros H. exists EmptyString, EmptyString. split; [reflexivity | exact H].
    + intros (pre & rest & H & Hm). destruct pre; [| discriminate H].
      change (EmptyString +:+ rest) with rest in H. subst rest. exact Hm.
  - rewrite orb_true_iff, IH. split.
    + intros [H | (pre & rest & -> & Hm)].
      * exists EmptyString, (String c t). split; [reflexivity | exact H].
      * exists (String c pre), rest. split; [reflexivity | exact Hm].
    + intros (pre & rest & H & Hm). destruct pre as [|d pre].
      * change (EmptyString +:+ rest) with rest in H. subst rest. left. exact Hm.
      * change (String d pre +:+ rest) with (String d (pre +:+ rest)) in H.
        injection H as -> ->. right. exists pre, rest. split; [reflexivity | exact Hm].
Qed.

(** Any run of characters, one more character, then the letters [w]:
    found in a text exactly when the text holds [w] after some
    character that ends no line. *)
Lemma loose_spec (w file : string) :
  search ((AnyChar, true) :: (AnyChar, false) :: letters w) file = true <->
  exists pre c post,
    file = pre +:+ String c (w +:+ post) /\ atom_matches AnyChar c = true.
Proof.
  rewrite search_spec. split.
  - intros (pre & rest & -> & Hm).
    destruct (star_suffix _ _ _ Hm) as (mid & rest' & -> & Hm').
    cbn [match_here] in Hm'. destruct rest' as [|c t]; [discriminate |].
    apply andb_true_iff in Hm' as [Hc Hw]. apply letters_match in Hw as [post ->].
    exists (pre +:+ mid), c, post. split; [| exact Hc].
    symmetry. apply ConfigFacts.append_assoc.
  - intros (pre & c & post & -> & Hc).
    exists pre, (String c (w +:+ post)). split; [reflexivity |].
    apply star_here. cbn [match_here]. rewrite Hc. cbn [andb].
    apply letters_match. exists post. reflexivity.
Qed.

End PatternFacts.

Section PatternClaims.
Import TeardownFull PatternFacts.

(** X28.  The three patterns of the first [organizeArtifacts] are looser
    than file extensions: an ASCII file name matches one of them exactly
    when the letters of the extension occur anywhere in it after at
    least one character that ends no line, with or without a dot before
    them and whatever follows. *)
Theorem first_module_patterns_are_loose (file : string) :
  Js.ascii_only file = true ->
  Forall (fun '(pattern, ext) =>
            matches pattern file = true <->
            exists pre c post,
              file = pre +:+ String c (ext +:+ post) /\
              c <> "010"%char /\ c <> "013"%char)
         [("**/*.png", "png"); ("**/*.webm", "webm"); ("**/*.zip", "zip")].
Proof.
  intros _.
  assert (Hc : forall c, atom_matches AnyChar c = true <-> c <> "010"%char /\ c <> "013"%char).
  { intros c. cbn [atom_matches]. rewrite negb_true_iff, orb_false_iff.
    rewrite <- !not_true_iff_false, !Ascii.eqb_eq. split; intros [H1 H2]; split; congruence. }
  repeat (apply Forall_cons; split;
          [unfold matches;
           lazymatch goal with
           | |- search (compile ?s) _ = true <-> exists pre c post, _ = _ +:+ String c (?ext +:+ _) /\ _ =>
               change (compile s) with ((AnyChar, true) :: (AnyChar, false) :: letters ext)
           end;
           rewrite loose_spec; split; intros (pre & c & post & H & H');
           exists pre, c, post; (split; [exact H | apply Hc; exact H']) |]).
  constructor.
Qed.

(** Witness of X28: a name that holds the letters of an extension but
    does not end with them. *)
Lemma first_module_patterns_are_loose_witness :
  Forall (fun '(pattern, ext) =>
            matches pattern "shot.png.bak" = true <->
            exists pre c post,
              "shot.png.bak" = pre +:+ String c (ext +:+ post) /\
              c <> "010"%char /\ c <> "013"%char)
         [("**/*.png", "png"); ("**/*.webm", "webm"); ("**/*.zip", "zip")].
Proof.
  apply (first_module_patterns_are_loose "shot.png.bak"). reflexivity.
Defined.

End PatternClaims.

(* ===================================================================== *)
(** ** Test data: the fallback and its validation *)
(* ===================================================================== *)

Module DataFacts.
Import Eff Trace TestUtils.

Section WithPlatform.
Context (P : Platform).

Lemma or_default_truthy_str o d :
  Js.truthy_str d = true -> Js.truthy_str (Js.or_default o d) = true.
Proof.
  intros Hd. unfold Js.or_default, Js.truthy_opt.
  destruct o as [s|]; [|exact Hd].
  destruct (Js.truthy_str s) eqn:E; [exact E|exact Hd].
Qed.

(** The loops only add to the list of errors. *)
Lemma checkProperty_grows data errors p :
  exists more, checkProperty data errors p = errors ++ more.
Proof.
  unfold checkProperty. destruct (negb _).
  - eexists; reflexivity.
  - exists []. by rewrite app_nil_r.
Qed.

Lemma checkUrl_grows errors entry :
  exists more, checkUrl P errors entry = errors ++ more.
Proof.
  destruct entry as [key url]. unfold checkUrl.
  destruct url; try (exists []; by rewrite app_nil_r).
  destruct (_ && _).
  - eexists; reflexivity.
  - exists []. by rewrite app_nil_r.
Qed.

Lemma fold_grows {A} (f : list string -> A -> list string) :
  (forall errors x, exists more, f errors x = errors ++ more) ->
  forall xs errors, exists more, fold_left f xs errors = errors ++ more.
Proof.
  intros Hf xs. induction xs as [|x xs IH]; intros errors; cbn [fold_left].
  - exists []. by rewrite app_nil_r.
  - destruct (Hf errors x) as [m1 ->]. destruct (IH (errors ++ m1)) as [m2 ->].
    exists (m1 ++ m2). by rewrite app_assoc.
Qed.

Lemma checkUsers_grows users : forall i errors errors',
  checkUsers i users errors = Some errors' -> exists more, errors' = errors ++ more.
Proof.
  induction users as [|user rest IH]; intros i errors errors'; cbn [checkUsers].
  - intros [= <-]. exists []. by rewrite app_nil_r.
  - destruct (Js.member user "username") as [username|]; [|discriminate].
    destruct (Js.member user "password") as [password|]; [|discriminate].
    cbn [mbind option_bind]. intros H. apply IH in H as [more ->].
    destruct (_ || _).
    + exists (["User at index " +:+ pretty i +:+ " missing username or password"] ++ more).
      by rewrite app_assoc.
    + by exists more.
Qed.

(** The loop over the users throws when, and only when, one of them is
    [null]. *)
Lemma checkUsers_throws users : forall i errors,
  checkUsers i users errors = None <-> In Js.JNull users.
Proof.
  induction users as [|user rest IH]; intros i errors; cbn [checkUsers In].
  - split; [discriminate|tauto].
  - destruct user; cbn [Js.member mbind option_bind];
      try (rewrite IH; split; [tauto | intros [?|?]; [discriminate|assumption]]).
    split; [intros _; by left | reflexivity].
Qed.

(** An empty list after the check of the required properties: there was
    none before, and every property is there. *)
Lemma checkProperty_none data ps : forall errors,
  fold_left (checkProperty data) ps errors = [] ->
  errors = [] /\ Forall (fun p => Js.truthy (prop data p) = true) ps.
Proof.
  induction ps as [|p ps IH]; intros errors; cbn [fold_left].
  - intros ->. split; [reflexivity | constructor].
  - intros H. apply IH in H as [H Hps]. unfold checkProperty in H.
    destruct (Js.truthy (prop data p)) eqn:E; cbn [negb] in H.
    + split; [exact H | by constructor].
    + by destruct errors.
Qed.

(** The fallback data has no error, whatever the environment holds. *)
Lemma default_validates :
  validateTestData P (Some (defaultTestData P)) = Some (true, []).
Proof.
  pose proof (or_default_truthy_str (env P !! "USERNAME") "Admin" eq_refl) as Hu.
  pose proof (or_default_truthy_str (env P !! "PASSWORD") "admin123" eq_refl) as Hp.
  unfold validateTestData, defaultTestData.
  cbn [Js.truthy negb prop Js.member Js.assoc String.eqb Ascii.eqb Bool.eqb default
       fold_left checkProperty checkUsers mbind option_bind entries checkUrl].
  unfold id. cbn [Js.truthy Js.member Js.assoc String.eqb Ascii.eqb Bool.eqb negb
                  mbind option_bind checkUsers].
  rewrite Hu, Hp. reflexivity.
Qed.

End WithPlatform.
End DataFacts.

Section DataClaims.
Import Eff Trace TestUtils DataFacts.

(** X29.  [loadTestData] never throws.  Either the file was read and
    parsed, and the parsed value is returned with no warning, or one
    warning is logged and the value returned is the fallback data, which
    [validateTestData] accepts without an error in any environment. *)
Theorem fallback_data_validates (P : Platform) (file : string) (w : World P) :
  exists data,
    result (loadTestData P file w) = Ok data /\
    ((Trace.warnings (events (loadTestData P file w)) = [] /\
      exists w' content,
        sys P string (ReadFile file) w = (w', inr content) /\
        JSON_parse P content = Some data) \/
     (Trace.warnings (events (loadTestData P file w)) = ["Failed to load test data"] /\
      data = defaultTestData P /\
      validateTestData P (Some data) = Some (true, []))).
Proof.
  unfold loadTestData, fn, try_catch, mbind, M_bind, bind, request.
  destruct (sys P string (ReadFile file) w) as [w' [e|content]] eqn:Hs;
    cbn [result events world].
  - exists (defaultTestData P). split; [reflexivity|]. right.
    split; [reflexivity|]. split; [reflexivity | apply default_validates].
  - destruct (JSON_parse P content) as [data|] eqn:Hp; cbn [result events world].
    + exists data. split; [reflexivity|]. left. split; [reflexivity|].
      exists w', content. split; [reflexivity | exact Hp].
    + exists (defaultTestData P). split; [reflexivity|]. right.
      split; [reflexivity|]. split; [reflexivity | apply default_validates].
Qed.

(** X30.  [validateTestData] throws a [TypeError] exactly when
    [testData.users] is an array that holds a [null].  When it reports
    the data as valid, the list of errors is empty and the three
    required properties are there and truthy. *)
Theorem validateTestData_outcomes (P : Platform) (testData : Js.value) :
  (validateTestData P testData = None <->
   exists data users,
     testData = Some data /\
     prop data "users" = Some (Js.JArr users) /\
     In Js.JNull users) /\
  (forall errors,
     validateTestData P testData = Some (true, errors) ->
     errors = [] /\
     exists data,
       testData = Some data /\
       Forall (fun p => Js.truthy (prop data p) = true)
              ["users"; "testUrls"; "apiEndpoints"]).
Proof.
  destruct testData as [data|]; cbn [validateTestData].
  2:{ split; [|discriminate].
      split; [discriminate | intros (? & ? & [=] & _)]. }
  destruct (Js.truthy (Some data)) eqn:Ht; cbn [negb].
  2:{ split; [|discriminate].
      split; [discriminate|]. intros (d & users & [= <-] & Hu & _).
      destruct data; try discriminate; cbn in Ht; discriminate. }
  cbv zeta.
  set (errors0 := fold_left (checkProperty data) _ []).
  assert (Hurls : forall errors1,
             exists more,
               match prop data "testUrls" with
               | Some testUrls =>
                   if Js.truthy (Some testUrls)
                   then fold_left (checkUrl P) (entries testUrls) errors1
                   else errors1
               | None => errors1
               end = errors1 ++ more).
  { intros errors1. destruct (prop data "testUrls") as [testUrls|].
    - destruct (Js.truthy (Some testUrls)).
      + apply fold_grows, checkUrl_grows.
      + exists []. by rewrite app_nil_r.
    - exists []. by rewrite app_nil_r. }
  split.
  - split.
    + intros H. exists data.
      destruct (prop data "users") as [[| | | |users|]|] eqn:Hu;
        cbn [mbind option_bind] in H; try discriminate.
      exists users. split; [reflexivity|]. split; [reflexivity|].
      destruct (checkUsers 0 users errors0) eqn:Hc; cbn [mbind option_bind] in H;
        [discriminate|].
      by apply checkUsers_throws in Hc.
    + intros (d & users & [= <-] & -> & Hin).
      apply (checkUsers_throws users 0 errors0) in Hin. rewrite Hin. reflexivity.
  - intros errors H.
    assert (exists more1 more2 : list string,
               errors = (errors0 ++ more1) ++ more2 /\
               (length errors =? 0)%nat = true) as (m1 & m2 & He & Hl).
    { destruct (prop data "users") as [[| | | |users|]|] eqn:Hu;
        cbn [mbind option_bind] in H;
        try (destruct (Hurls errors0) as [m2 Hm2]; rewrite Hm2 in H;
             injection H as Hl <-; exists [], m2;
             rewrite app_nil_r; split; [reflexivity | exact Hl]).
      destruct (checkUsers 0 users errors0) as [errors1|] eqn:Hc;
        cbn [mbind option_bind] in H; [|discriminate].
      apply checkUsers_grows in Hc as [m1 ->].
      destruct (Hurls (errors0 ++ m1)) as [m2 Hm2]. rewrite Hm2 in H.
      injection H as Hl <-. exists m1, m2.
      split; [reflexivity | exact Hl]. }
    apply Nat.eqb_eq in Hl. destruct errors; [|discriminate].
    split; [reflexivity|]. exists data. split; [reflexivity|].
    symmetry in He. apply app_eq_nil in He as [He _].
    apply app_eq_nil in He as [He _].
    by apply checkProperty_none in He as [_ He].
Qed.

End DataClaims.
